(** * Swapchain lifecycle and frame loop of the Vulkan exercises

    A shallow embedding of

    - [labutils/vulkan_window.cpp]: [create_swapchain],
      [get_swapchain_images], [create_swapchain_image_views],
      [recreate_swapchain] and the swapchain part of [make_vulkan_window];
    - [exercise3/main.cpp] and [exercise4/main.cpp]: the application main
      loop, as a small-step machine whose program points are the blocking or
      fallible calls of the loop body.

    The Vulkan driver, GLFW and the GPU are the environment.  Every answer of
    the environment is an input of the model: the driver's answers to one
    swapchain (re)creation are a [Platform] record, the answers to the calls
    of the loop body are [Response]s, and the GPU finishing a submission is an
    action of its own. *)

From Stdlib Require Import ZArith Lia String Bool.
From stdpp Require Import base list.

Local Open Scope Z_scope.

(** ** Vulkan types and constants

    Handles and enumerations are the integers of [vulkan_core.h]; the
    enumerators below carry the values of that header. *)
Module Vk.

Definition Handle := Z.
Definition VK_NULL_HANDLE : Handle := 0.

Definition VkResult := Z.
Definition VK_SUCCESS : VkResult := 0.
Definition VK_NOT_READY : VkResult := 1.
Definition VK_TIMEOUT : VkResult := 2.
Definition VK_ERROR_DEVICE_LOST : VkResult := -4.
Definition VK_ERROR_SURFACE_LOST_KHR : VkResult := -1000000000.
Definition VK_SUBOPTIMAL_KHR : VkResult := 1000001003.
Definition VK_ERROR_OUT_OF_DATE_KHR : VkResult := -1000001004.

Definition VkFormat := Z.
Definition VK_FORMAT_UNDEFINED : VkFormat := 0.
Definition VK_FORMAT_R8G8B8A8_UNORM : VkFormat := 37.
Definition VK_FORMAT_R8G8B8A8_SRGB : VkFormat := 43.
Definition VK_FORMAT_B8G8R8A8_UNORM : VkFormat := 44.
Definition VK_FORMAT_B8G8R8A8_SRGB : VkFormat := 50.

Definition VkColorSpaceKHR := Z.
Definition VK_COLOR_SPACE_SRGB_NONLINEAR_KHR : VkColorSpaceKHR := 0.

Definition VkPresentModeKHR := Z.
Definition VK_PRESENT_MODE_FIFO_KHR : VkPresentModeKHR := 2.
Definition VK_PRESENT_MODE_FIFO_RELAXED_KHR : VkPresentModeKHR := 3.

Definition VK_IMAGE_USAGE_COLOR_ATTACHMENT_BIT : Z := 16.
Definition VK_COMPOSITE_ALPHA_OPAQUE_BIT_KHR : Z := 1.
Definition VK_SHARING_MODE_EXCLUSIVE : Z := 0.
Definition VK_SHARING_MODE_CONCURRENT : Z := 1.
Definition VK_TRUE : Z := 1.

(** [std::numeric_limits<std::uint32_t>::max()] and the conversion of a C
    [int] to [std::uint32_t]. *)
Definition UINT32_MAX : Z := 4294967295.
Definition to_u32 (z : Z) : Z := z mod 4294967296.

Record VkExtent2D := { width : Z; height : Z }.

Record VkSurfaceFormatKHR := { format : VkFormat; colorSpace : VkColorSpaceKHR }.

Record VkSurfaceCapabilitiesKHR := {
  minImageCount : Z;
  maxImageCount : Z;
  currentExtent : VkExtent2D;
  minImageExtent : VkExtent2D;
  maxImageExtent : VkExtent2D;
  currentTransform : Z
}.

Record VkSwapchainCreateInfoKHR := {
  ci_minImageCount : Z;
  ci_imageFormat : VkFormat;
  ci_imageColorSpace : VkColorSpaceKHR;
  ci_imageExtent : VkExtent2D;
  ci_imageArrayLayers : Z;
  ci_imageUsage : Z;
  ci_preTransform : Z;
  ci_compositeAlpha : Z;
  ci_presentMode : VkPresentModeKHR;
  ci_clipped : Z;
  ci_oldSwapchain : Handle;
  ci_imageSharingMode : Z;
  ci_queueFamilyIndices : list Z
}.

(** The values of a capability report are [std::uint32_t]. *)
Definition is_u32 (z : Z) : Prop := 0 <= z <= UINT32_MAX.

Definition extent_eqb (a b : VkExtent2D) : bool :=
  (width a =? width b) && (height a =? height b).

(** [res == VK_SUCCESS], and the test the main loop makes on the status of
    an acquire and of a present:
    [res == VK_SUBOPTIMAL_KHR || res == VK_ERROR_OUT_OF_DATE_KHR]. *)
Definition succeeded (res : VkResult) : bool := res =? VK_SUCCESS.

Definition stale (res : VkResult) : bool :=
  (res =? VK_SUBOPTIMAL_KHR) || (res =? VK_ERROR_OUT_OF_DATE_KHR).

End Vk.
Export Vk.

(** ** Outcomes of fallible code

    [lut::Error] exceptions carry the name of the failing operation and the
    status it returned.  A failed [assert] ends the process: it is not an
    exception, and no handler sees it. *)
Module Outcome.

Inductive Error := MkError (operation : string) (status : VkResult).

Inductive outcome (A : Type) :=
| Ok (a : A)
| Throw (e : Error)
| Abort (assertion : string).
Arguments Ok {A} a.
Arguments Throw {A} e.
Arguments Abort {A} assertion.

Definition bind {A B} (m : outcome A) (k : A -> outcome B) : outcome B :=
  match m with
  | Ok a => k a
  | Throw e => Throw e
  | Abort s => Abort s
  end.

Definition is_throw {A} (m : outcome A) : bool :=
  match m with Throw _ => true | _ => false end.

(** [if (res != VK_SUCCESS) throw lut::Error(...)] *)
Definition check (operation : string) (res : VkResult) : outcome unit :=
  if res =? VK_SUCCESS then Ok tt else Throw (MkError operation res).

Definition assert (b : bool) (assertion : string) : outcome unit :=
  if b then Ok tt else Abort assertion.

End Outcome.
Export Outcome.

Declare Scope outcome_scope.
Notation "x <- m ;; k" := (bind m (fun x => k))
  (at level 100, m at next level, right associativity) : outcome_scope.
Notation "m ;;; k" := (bind m (fun _ => k))
  (at level 100, right associativity) : outcome_scope.

(** ** [labutils/vulkan_window.cpp] *)
Module Window.

Local Open Scope outcome_scope.

(** What the driver and GLFW answer during one creation of a swapchain with
    its images and views.  The two-call enumerations report the status of the
    counting call and of the filling call. *)
Record Platform := {
  formats_count_res : VkResult;
  formats_fill_res : VkResult;
  surface_formats : list VkSurfaceFormatKHR;
  modes_count_res : VkResult;
  modes_fill_res : VkResult;
  surface_present_modes : list VkPresentModeKHR;
  capabilities_res : VkResult;
  surface_capabilities : VkSurfaceCapabilitiesKHR;
  (* glfwGetFramebufferSize: two C ints *)
  framebuffer_size : Z * Z;
  vkCreateSwapchainKHR : VkSwapchainCreateInfoKHR -> VkResult * Handle;
  images_count_res : VkResult;
  images_count : nat;
  images_fill_res : VkResult;
  images_data : list Handle;
  (* index of the image, image, format of the view *)
  vkCreateImageView : nat -> Handle -> VkFormat -> VkResult * Handle
}.

Definition get_surface_formats (p : Platform) : outcome (list VkSurfaceFormatKHR) :=
  check "vkGetPhysicalDeviceSurfaceFormatsKHR" (formats_count_res p) ;;;
  check "vkGetPhysicalDeviceSurfaceFormatsKHR" (formats_fill_res p) ;;;
  Ok (surface_formats p).

(** The modes are returned as a [std::unordered_set]; only membership is
    asked of it. *)
Definition get_present_modes (p : Platform) : outcome (list VkPresentModeKHR) :=
  check "vkGetPhysicalDeviceSurfacePresentModesKHR" (modes_count_res p) ;;;
  check "vkGetPhysicalDeviceSurfacePresentModesKHR" (modes_fill_res p) ;;;
  Ok (surface_present_modes p).

Definition modes_count (modes : list VkPresentModeKHR) (m : VkPresentModeKHR) : bool :=
  existsb (Z.eqb m) modes.

(** The two tests of the format loop of [create_swapchain]. *)
Definition is_rgba_srgb (f : VkSurfaceFormatKHR) : bool :=
  (format f =? VK_FORMAT_R8G8B8A8_SRGB) && (colorSpace f =? VK_COLOR_SPACE_SRGB_NONLINEAR_KHR).

Definition is_bgra_srgb (f : VkSurfaceFormatKHR) : bool :=
  (format f =? VK_FORMAT_B8G8R8A8_SRGB) && (colorSpace f =? VK_COLOR_SPACE_SRGB_NONLINEAR_KHR).

(** [for (auto const curFormat : formats) { if (...) { format = curFormat;
    break; } if (...) { format = curFormat; break; } }], started with
    [format = formats[0]]. *)
Fixpoint select_format_loop (formats : list VkSurfaceFormatKHR)
    (format : VkSurfaceFormatKHR) : VkSurfaceFormatKHR :=
  match formats with
  | [] => format
  | curFormat :: rest =>
      if is_rgba_srgb curFormat then curFormat
      else if is_bgra_srgb curFormat then curFormat
      else select_format_loop rest format
  end.

Definition select_format (formats : list VkSurfaceFormatKHR) : outcome VkSurfaceFormatKHR :=
  match formats with
  | [] => Abort "!formats.empty()"
  | first :: _ => Ok (select_format_loop formats first)
  end.

Definition select_present_mode (modes : list VkPresentModeKHR) : VkPresentModeKHR :=
  if modes_count modes VK_PRESENT_MODE_FIFO_RELAXED_KHR
  then VK_PRESENT_MODE_FIFO_RELAXED_KHR
  else VK_PRESENT_MODE_FIFO_KHR.

(** [imageCount], in [std::uint32_t] arithmetic: [minImageCount + 1] wraps. *)
Definition select_image_count (caps : VkSurfaceCapabilitiesKHR) : Z :=
  let imageCount := 2 in
  let imageCount :=
    if imageCount <? to_u32 (minImageCount caps + 1)
    then to_u32 (minImageCount caps + 1) else imageCount in
  if (0 <? maxImageCount caps) && (maxImageCount caps <? imageCount)
  then maxImageCount caps else imageCount.

(** [std::clamp(v, lo, hi)]: [lo] if [v < lo], [hi] if [hi < v], else [v]
    (the standard asks for [lo <= hi]). *)
Definition clamp (v lo hi : Z) : Z :=
  if v <? lo then lo else if hi <? v then hi else v.

(** The test [create_swapchain] makes for the current extent that a surface
    reports when its size is left to the swapchain:
    [std::numeric_limits<std::uint32_t>::max() == extent.width]. *)
Definition undefined_extent (extent : VkExtent2D) : bool :=
  UINT32_MAX =? width extent.

Definition resolve_extent (caps : VkSurfaceCapabilitiesKHR) (fbsize : Z * Z) : VkExtent2D :=
  let extent := currentExtent caps in
  if undefined_extent extent then
    let '(w, h) := fbsize in
    let min := minImageExtent caps in
    let max := maxImageExtent caps in
    {| width := clamp (to_u32 w) (width min) (width max);
       height := clamp (to_u32 h) (height min) (height max) |}
  else extent.

(** Everything [create_swapchain] does before it calls
    [vkCreateSwapchainKHR]: the queries and the filled
    [VkSwapchainCreateInfoKHR]. *)
Definition swapchain_info (p : Platform) (aQueueFamilyIndices : list Z)
    (aOldSwapchain : Handle) : outcome VkSwapchainCreateInfoKHR :=
  formats <- get_surface_formats p ;;
  modes <- get_present_modes p ;;
  format <- select_format formats ;;
  let presentMode := select_present_mode modes in
  check "vkGetPhysicalDeviceSurfaceCapabilitiesKHR" (capabilities_res p) ;;;
  let surfaceCapabilities := surface_capabilities p in
  let imageCount := select_image_count surfaceCapabilities in
  let extent := resolve_extent surfaceCapabilities (framebuffer_size p) in
  let concurrent := negb (Nat.leb (length aQueueFamilyIndices) 1) in
  Ok {| ci_minImageCount := imageCount;
        ci_imageFormat := Vk.format format;
        ci_imageColorSpace := colorSpace format;
        ci_imageExtent := extent;
        ci_imageArrayLayers := 1;
        ci_imageUsage := VK_IMAGE_USAGE_COLOR_ATTACHMENT_BIT;
        ci_preTransform := currentTransform surfaceCapabilities;
        ci_compositeAlpha := VK_COMPOSITE_ALPHA_OPAQUE_BIT_KHR;
        ci_presentMode := presentMode;
        ci_clipped := VK_TRUE;
        ci_oldSwapchain := aOldSwapchain;
        ci_imageSharingMode :=
          if concurrent then VK_SHARING_MODE_CONCURRENT else VK_SHARING_MODE_EXCLUSIVE;
        ci_queueFamilyIndices := if concurrent then aQueueFamilyIndices else [] |}.

Definition create_swapchain (p : Platform) (aQueueFamilyIndices : list Z)
    (aOldSwapchain : Handle) : outcome (Handle * VkFormat * VkExtent2D) :=
  swapchainInfo <- swapchain_info p aQueueFamilyIndices aOldSwapchain ;;
  let '(res, swapchain) := vkCreateSwapchainKHR p swapchainInfo in
  check "vkCreateSwapchainKHR" res ;;;
  Ok (swapchain, ci_imageFormat swapchainInfo, ci_imageExtent swapchainInfo).

(** [std::vector<VkImage>::resize(n)]: new entries are null handles. *)
Definition resize (n : nat) (v : list Handle) : list Handle :=
  take n v ++ replicate (n - length v) VK_NULL_HANDLE.

(** The filling call writes the driver's handles over the front of the
    array and leaves its size alone. *)
Definition fill (data v : list Handle) : list Handle :=
  take (length v) data ++ drop (length data) v.

(** [get_swapchain_images] reports a failed enumeration on [stderr] and
    returns; the vector, passed by reference, keeps what it holds then. *)
Definition get_swapchain_images (p : Platform) (aImages : list Handle)
    : outcome (list Handle) :=
  assert (Nat.eqb 0 (length aImages)) "0 == aImages.size()" ;;;
  if negb (images_count_res p =? VK_SUCCESS) then Ok aImages
  else
    (* whether the filling call succeeds or not, the function returns with
       the resized vector and what the driver wrote into it *)
    Ok (fill (images_data p) (resize (images_count p) aImages)).

(** The loop of [create_swapchain_image_views]: [i] is the index of the
    first image of [images]; the views made so far stay in the caller's
    vector when a creation throws. *)
Fixpoint create_views_loop (p : Platform) (aSwapchainFormat : VkFormat) (i : nat)
    (images : list Handle) (aViews : list Handle) : list Handle * outcome unit :=
  match images with
  | [] => (aViews, Ok tt)
  | image :: rest =>
      let '(res, imageView) := vkCreateImageView p i image aSwapchainFormat in
      match check "vkCreateImageView" res with
      | Ok _ => create_views_loop p aSwapchainFormat (S i) rest (aViews ++ [imageView])
      | Throw e => (aViews, Throw e)
      | Abort s => (aViews, Abort s)
      end
  end.

Definition create_swapchain_image_views (p : Platform) (aSwapchainFormat : VkFormat)
    (aImages : list Handle) (aViews : list Handle) : list Handle * outcome unit :=
  match assert (Nat.eqb 0 (length aViews)) "0 == aViews.size()" with
  | Ok _ =>
      let '(aViews, r) := create_views_loop p aSwapchainFormat 0 aImages aViews in
      (aViews,
       r ;;; assert (Nat.eqb (length aViews) (length aImages)) "aViews.size() == aImages.size()")
  | Throw e => (aViews, Throw e)
  | Abort s => (aViews, Abort s)
  end.

(** The swapchain state of [VulkanWindow], with the two queue family indices
    that [recreate_swapchain] reads.  The class is declared in
    [vulkan_window.hpp]; the fields are those its move constructor lists. *)
Record VulkanWindow := {
  graphicsFamilyIndex : Z;
  presentFamilyIndex : Z;
  swapchain : Handle;
  swapImages : list Handle;
  swapViews : list Handle;
  swapchainFormat : VkFormat;
  swapchainExtent : VkExtent2D
}.

Definition set_swapchain (w : VulkanWindow) (sc : Handle) (f : VkFormat) (e : VkExtent2D)
    : VulkanWindow :=
  {| graphicsFamilyIndex := graphicsFamilyIndex w;
     presentFamilyIndex := presentFamilyIndex w;
     swapchain := sc;
     swapImages := swapImages w;
     swapViews := swapViews w;
     swapchainFormat := f;
     swapchainExtent := e |}.

Definition set_images (w : VulkanWindow) (images : list Handle) : VulkanWindow :=
  {| graphicsFamilyIndex := graphicsFamilyIndex w;
     presentFamilyIndex := presentFamilyIndex w;
     swapchain := swapchain w;
     swapImages := images;
     swapViews := swapViews w;
     swapchainFormat := swapchainFormat w;
     swapchainExtent := swapchainExtent w |}.

Definition set_views (w : VulkanWindow) (views : list Handle) : VulkanWindow :=
  {| graphicsFamilyIndex := graphicsFamilyIndex w;
     presentFamilyIndex := presentFamilyIndex w;
     swapchain := swapchain w;
     swapImages := swapImages w;
     swapViews := views;
     swapchainFormat := swapchainFormat w;
     swapchainExtent := swapchainExtent w |}.

Record SwapChanges := { changedSize : bool; changedFormat : bool }.

(** Lines 320-321 of [recreate_swapchain] and 274-275 of
    [make_vulkan_window]: the images of the new chain and a view for each.
    Both write through references into the window. *)
Definition fetch_images_and_views (p : Platform) (w : VulkanWindow)
    : VulkanWindow * outcome unit :=
  match get_swapchain_images p (swapImages w) with
  | Ok images =>
      let w := set_images w images in
      let '(views, r) :=
        create_swapchain_image_views p (swapchainFormat w) (swapImages w) (swapViews w) in
      (set_views w views, r)
  | Throw e => (w, Throw e)
  | Abort s => (w, Abort s)
  end.

(** The [queueFamilyIndices] that [recreate_swapchain] builds. *)
Definition queue_families (aWindow : VulkanWindow) : list Z :=
  if negb (presentFamilyIndex aWindow =? graphicsFamilyIndex aWindow)
  then [graphicsFamilyIndex aWindow; presentFamilyIndex aWindow] else [].

(** [recreate_swapchain] mutates the window it is given by reference: the
    window after the call is returned next to the outcome, also when the call
    throws. *)
Definition recreate_swapchain (p : Platform) (aWindow : VulkanWindow)
    : VulkanWindow * outcome SwapChanges :=
  let oldFormat := swapchainFormat aWindow in
  let oldExtent := swapchainExtent aWindow in
  let oldSwapchain := swapchain aWindow in
  (* the views are destroyed; swapViews.clear(); swapImages.clear() *)
  let aWindow := set_views aWindow [] in
  let aWindow := set_images aWindow [] in
  let queueFamilyIndices := queue_families aWindow in
  match create_swapchain p queueFamilyIndices oldSwapchain with
  | Throw e =>
      (* catch(...) { aWindow.swapchain = oldSwapchain; throw; } *)
      (set_swapchain aWindow oldSwapchain (swapchainFormat aWindow) (swapchainExtent aWindow),
       Throw e)
  | Abort s => (aWindow, Abort s)
  | Ok (newSwapchain, newFormat, newExtent) =>
      let aWindow := set_swapchain aWindow newSwapchain newFormat newExtent in
      (* vkDestroySwapchainKHR(aWindow.device, oldSwapchain, nullptr) *)
      match fetch_images_and_views p aWindow with
      | (aWindow, Ok _) =>
          (aWindow,
           Ok {| changedSize :=
                   negb (width oldExtent =? width (swapchainExtent aWindow))
                   || negb (height oldExtent =? height (swapchainExtent aWindow));
                 changedFormat := negb (oldFormat =? swapchainFormat aWindow) |})
      | (aWindow, Throw e) => (aWindow, Throw e)
      | (aWindow, Abort s) => (aWindow, Abort s)
      end
  end.

(** The end of [make_vulkan_window] (lines 270-275), for a window whose
    device and queues exist: [aQueueFamilyIndices] are the families the device
    was created with. *)
Definition make_vulkan_window (p : Platform) (graphics present : Z)
    (queueFamilyIndices : list Z) : VulkanWindow * outcome unit :=
  let ret := {| graphicsFamilyIndex := graphics;
                presentFamilyIndex := present;
                swapchain := VK_NULL_HANDLE;
                swapImages := [];
                swapViews := [];
                swapchainFormat := VK_FORMAT_UNDEFINED;
                swapchainExtent := {| width := 0; height := 0 |} |} in
  match create_swapchain p queueFamilyIndices VK_NULL_HANDLE with
  | Throw e => (ret, Throw e)
  | Abort s => (ret, Abort s)
  | Ok (sc, f, e) => fetch_images_and_views p (set_swapchain ret sc f e)
  end.

End Window.

(** ** The application main loop of [exercise3/main.cpp] and
    [exercise4/main.cpp] *)
Module Loop.

Import Window.

(** The two programs differ in the resources they rebuild after a
    recreation. *)
Inductive Exercise := Exercise3 | Exercise4.

(** A fence with the number of queue submissions that have not finished
    yet and will signal it.  The code reads a fence only through
    [vkWaitForFences]; [pending] is the GPU's side of it. *)
Record Fence := { signaled : bool; pending : nat }.

(** What a rebuilt object keeps of the window: the render pass the format
    of its colour attachment, a pipeline the extent of its static viewport
    and scissor, the depth buffer and a framebuffer their extent. *)
Record DepthBuffer := { depth_view : Handle; depth_extent : VkExtent2D }.

Record Framebuffer := { fb_attachments : list Handle; fb_extent : VkExtent2D }.

Inductive Pc :=
| PcLoopHead      (* while( !glfwWindowShouldClose() ), glfwPollEvents() *)
| PcWaitIdle      (* vkDeviceWaitIdle of the recreation branch *)
| PcRecreate      (* before recreate_swapchain; the step from here runs the
                     branch to its [continue]: recreate_swapchain and the
                     rebuilds *)
| PcAcquire       (* vkAcquireNextImageKHR *)
| PcWaitFence     (* vkWaitForFences *)
| PcResetFence    (* vkResetFences *)
| PcRecord        (* record_commands *)
| PcSubmit        (* submit_commands *)
| PcPresent       (* vkQueuePresentKHR *)
| PcShutdown      (* vkDeviceWaitIdle after the loop *)
| PcExit0         (* at [return 0], before the destructors of the locals *)
| PcExit1         (* an exception reached the handler of main: return 1 *)
| PcAborted.      (* a failed assert *)

Inductive Event :=
| EvPollEvents
| EvDeviceWaitIdle
| EvRecreateSwapchain
| EvCreateRenderPass (f : VkFormat)
| EvCreatePipeline (e : VkExtent2D)
| EvCreateAlphaPipeline (e : VkExtent2D)
| EvCreateDepthBuffer (e : VkExtent2D)
| EvClearFramebuffers
| EvCreateFramebuffer (i : nat) (e : VkExtent2D)
| EvAcquire (res : VkResult) (imageIndex : nat)
| EvWaitFence (imageIndex : nat)
| EvResetFence (imageIndex : nat)
| EvRecord (imageIndex : nat)
| EvSubmit (imageIndex : nat)
| EvPresent (imageIndex : nat) (res : VkResult).

(** The local variables of [main], the program point, and the calls made so
    far, oldest first. *)
Record State := {
  window : VulkanWindow;
  renderPass : VkFormat;
  pipe : VkExtent2D;
  alphaPipeline : option VkExtent2D;
  depthBuffer : option DepthBuffer;
  framebuffers : list Framebuffer;
  cbuffers : list Handle;
  cbfences : list Fence;
  recreateSwapchain : bool;
  imageIndex : nat;
  pc : Pc;
  log : list Event
}.

(** The driver's answers to the calls that build resources. *)
Record Driver := {
  platform : Platform;
  render_pass_res : VkResult;
  pipeline_res : VkResult;
  alpha_pipeline_res : VkResult;
  depth_buffer_res : VkResult * Handle;
  framebuffer_res : nat -> VkResult;
  command_buffer_res : nat -> VkResult * Handle;
  fence_res : nat -> VkResult
}.

(** What the environment answers to the call at the current program
    point. *)
Record Response := {
  should_close : bool;      (* glfwWindowShouldClose *)
  status : VkResult;        (* the VkResult of the call *)
  acquired : nat;           (* the index written by vkAcquireNextImageKHR *)
  driver : Driver           (* the answers during recreation *)
}.

Inductive Action :=
| Host (r : Response)        (* the program runs to its next program point *)
| GpuComplete (slot : nat).  (* the GPU finishes a submission of that slot *)

Definition upd_window (s : State) (w : VulkanWindow) : State :=
  {| window := w; renderPass := renderPass s; pipe := pipe s;
     alphaPipeline := alphaPipeline s; depthBuffer := depthBuffer s;
     framebuffers := framebuffers s; cbuffers := cbuffers s; cbfences := cbfences s;
     recreateSwapchain := recreateSwapchain s; imageIndex := imageIndex s;
     pc := pc s; log := log s |}.

Definition upd_renderPass (s : State) (f : VkFormat) : State :=
  {| window := window s; renderPass := f; pipe := pipe s;
     alphaPipeline := alphaPipeline s; depthBuffer := depthBuffer s;
     framebuffers := framebuffers s; cbuffers := cbuffers s; cbfences := cbfences s;
     recreateSwapchain := recreateSwapchain s; imageIndex := imageIndex s;
     pc := pc s; log := log s |}.

Definition upd_pipe (s : State) (e : VkExtent2D) : State :=
  {| window := window s; renderPass := renderPass s; pipe := e;
     alphaPipeline := alphaPipeline s; depthBuffer := depthBuffer s;
     framebuffers := framebuffers s; cbuffers := cbuffers s; cbfences := cbfences s;
     recreateSwapchain := recreateSwapchain s; imageIndex := imageIndex s;
     pc := pc s; log := log s |}.

Definition upd_alphaPipeline (s : State) (e : option VkExtent2D) : State :=
  {| window := window s; renderPass := renderPass s; pipe := pipe s;
     alphaPipeline := e; depthBuffer := depthBuffer s;
     framebuffers := framebuffers s; cbuffers := cbuffers s; cbfences := cbfences s;
     recreateSwapchain := recreateSwapchain s; imageIndex := imageIndex s;
     pc := pc s; log := log s |}.

Definition upd_depthBuffer (s : State) (d : option DepthBuffer) : State :=
  {| window := window s; renderPass := renderPass s; pipe := pipe s;
     alphaPipeline := alphaPipeline s; depthBuffer := d;
     framebuffers := framebuffers s; cbuffers := cbuffers s; cbfences := cbfences s;
     recreateSwapchain := recreateSwapchain s; imageIndex := imageIndex s;
     pc := pc s; log := log s |}.

Definition upd_framebuffers (s : State) (l : list Framebuffer) : State :=
  {| window := window s; renderPass := renderPass s; pipe := pipe s;
     alphaPipeline := alphaPipeline s; depthBuffer := depthBuffer s;
     framebuffers := l; cbuffers := cbuffers s; cbfences := cbfences s;
     recreateSwapchain := recreateSwapchain s; imageIndex := imageIndex s;
     pc := pc s; log := log s |}.

Definition upd_pool (s : State) (bufs : list Handle) (fences : list Fence) : State :=
  {| window := window s; renderPass := renderPass s; pipe := pipe s;
     alphaPipeline := alphaPipeline s; depthBuffer := depthBuffer s;
     framebuffers := framebuffers s; cbuffers := bufs; cbfences := fences;
     recreateSwapchain := recreateSwapchain s; imageIndex := imageIndex s;
     pc := pc s; log := log s |}.

Definition upd_cbfences (s : State) (fences : list Fence) : State :=
  upd_pool s (cbuffers s) fences.

Definition upd_recreateSwapchain (s : State) (b : bool) : State :=
  {| window := window s; renderPass := renderPass s; pipe := pipe s;
     alphaPipeline := alphaPipeline s; depthBuffer := depthBuffer s;
     framebuffers := framebuffers s; cbuffers := cbuffers s; cbfences := cbfences s;
     recreateSwapchain := b; imageIndex := imageIndex s;
     pc := pc s; log := log s |}.

Definition upd_imageIndex (s : State) (i : nat) : State :=
  {| window := window s; renderPass := renderPass s; pipe := pipe s;
     alphaPipeline := alphaPipeline s; depthBuffer := depthBuffer s;
     framebuffers := framebuffers s; cbuffers := cbuffers s; cbfences := cbfences s;
     recreateSwapchain := recreateSwapchain s; imageIndex := i;
     pc := pc s; log := log s |}.

Definition goto (s : State) (l : Pc) : State :=
  {| window := window s; renderPass := renderPass s; pipe := pipe s;
     alphaPipeline := alphaPipeline s; depthBuffer := depthBuffer s;
     framebuffers := framebuffers s; cbuffers := cbuffers s; cbfences := cbfences s;
     recreateSwapchain := recreateSwapchain s; imageIndex := imageIndex s;
     pc := l; log := log s |}.

Definition emit (s : State) (ev : Event) : State :=
  {| window := window s; renderPass := renderPass s; pipe := pipe s;
     alphaPipeline := alphaPipeline s; depthBuffer := depthBuffer s;
     framebuffers := framebuffers s; cbuffers := cbuffers s; cbfences := cbfences s;
     recreateSwapchain := recreateSwapchain s; imageIndex := imageIndex s;
     pc := pc s; log := log s ++ [ev] |}.

(** *** Code that changes the variables of [main] and may throw *)

Definition M (A : Type) : Type := State -> State * outcome A.

Definition ret {A} (a : A) : M A := fun s => (s, Ok a).

Definition mbind {A B} (m : M A) (k : A -> M B) : M B :=
  fun s =>
    match m s with
    | (s', Ok a) => k a s'
    | (s', Throw e) => (s', Throw e)
    | (s', Abort x) => (s', Abort x)
    end.

Definition lift {A} (o : outcome A) : M A := fun s => (s, o).

Definition get : M State := fun s => (s, Ok s).

Definition modify (f : State -> State) : M unit := fun s => (f s, Ok tt).

Definition when (b : bool) (m : M unit) : M unit := if b then m else ret tt.

Declare Scope loop_scope.
Notation "x <- m ;; k" := (mbind m (fun x => k))
  (at level 100, m at next level, right associativity) : loop_scope.
Notation "m ;;; k" := (mbind m (fun _ => k))
  (at level 100, right associativity) : loop_scope.
Local Open Scope loop_scope.

(** [create_render_pass]: the colour attachment has the format of the
    swapchain. *)
Definition create_render_pass (d : Driver) : M VkFormat :=
  s <- get ;;
  lift (check "vkCreateRenderPass" (render_pass_res d)) ;;;
  modify (fun s => emit s (EvCreateRenderPass (swapchainFormat (window s)))) ;;;
  ret (swapchainFormat (window s)).

(** [create_triangle_pipeline] and [create_pipeline]: viewport and scissor
    are static state, of the extent of the swapchain. *)
Definition create_pipeline (d : Driver) : M VkExtent2D :=
  s <- get ;;
  lift (check "vkCreateGraphicsPipelines" (pipeline_res d)) ;;;
  modify (fun s => emit s (EvCreatePipeline (swapchainExtent (window s)))) ;;;
  ret (swapchainExtent (window s)).

Definition create_alpha_pipeline (d : Driver) : M VkExtent2D :=
  s <- get ;;
  lift (check "vkCreateGraphicsPipelines" (alpha_pipeline_res d)) ;;;
  modify (fun s => emit s (EvCreateAlphaPipeline (swapchainExtent (window s)))) ;;;
  ret (swapchainExtent (window s)).

(** [create_depth_buffer]: an image of the extent of the swapchain and its
    view. *)
Definition create_depth_buffer (d : Driver) : M DepthBuffer :=
  s <- get ;;
  lift (check "create_depth_buffer" (fst (depth_buffer_res d))) ;;;
  modify (fun s => emit s (EvCreateDepthBuffer (swapchainExtent (window s)))) ;;;
  ret {| depth_view := snd (depth_buffer_res d);
         depth_extent := swapchainExtent (window s) |}.

(** The attachments of the framebuffer of a swapchain view: the view alone
    in exercise 3, the view and the depth view in exercise 4. *)
Definition attachments (ex : Exercise) (s : State) (view : Handle) : list Handle :=
  match ex with
  | Exercise3 => [view]
  | Exercise4 =>
      [view; match depthBuffer s with
             | Some db => depth_view db
             | None => VK_NULL_HANDLE
             end]
  end.

Fixpoint create_framebuffers_loop (ex : Exercise) (d : Driver) (i : nat)
    (views : list Handle) : M unit :=
  match views with
  | [] => ret tt
  | view :: rest =>
      lift (check "vkCreateFramebuffer" (framebuffer_res d i)) ;;;
      modify (fun s =>
        emit (upd_framebuffers s
                (framebuffers s ++
                 [{| fb_attachments := attachments ex s view;
                     fb_extent := swapchainExtent (window s) |}]))
             (EvCreateFramebuffer i (swapchainExtent (window s)))) ;;;
      create_framebuffers_loop ex d (S i) rest
  end.

Definition create_swapchain_framebuffers (ex : Exercise) (d : Driver) : M unit :=
  s <- get ;;
  lift (assert (Nat.eqb (length (framebuffers s)) 0) "aFramebuffers.empty()") ;;;
  create_framebuffers_loop ex d 0 (swapViews (window s)) ;;;
  s <- get ;;
  lift (assert (Nat.eqb (length (swapViews (window s))) (length (framebuffers s)))
          "aWindow.swapViews.size() == aFramebuffers.size()").

(** [lut::recreate_swapchain(window)] *)
Definition call_recreate_swapchain (d : Driver) : M SwapChanges :=
  fun s =>
    let '(w, r) := recreate_swapchain (platform d) (window s) in
    (emit (upd_window s w) EvRecreateSwapchain, r).

(** [renderPass = create_render_pass(window)] and the like: the variable
    is assigned once the call has returned. *)
Definition assign_renderPass (d : Driver) : M unit :=
  rp <- create_render_pass d ;; modify (fun s => upd_renderPass s rp).

Definition assign_pipe (d : Driver) : M unit :=
  p <- create_pipeline d ;; modify (fun s => upd_pipe s p).

Definition assign_alphaPipeline (d : Driver) : M unit :=
  a <- create_alpha_pipeline d ;; modify (fun s => upd_alphaPipeline s (Some a)).

Definition assign_depthBuffer (d : Driver) : M unit :=
  db <- create_depth_buffer d ;; modify (fun s => upd_depthBuffer s (Some db)).

(** [framebuffers.clear()] *)
Definition clear_framebuffers : M unit :=
  modify (fun s => emit (upd_framebuffers s []) EvClearFramebuffers).

(** What the recreation branch rebuilds once [recreate_swapchain] has
    returned its changes, up to [recreateSwapchain = false]. *)
Definition rebuild (ex : Exercise) (d : Driver) (changes : SwapChanges) : M unit :=
  match ex with
  | Exercise3 =>
      when (changedFormat changes) (assign_renderPass d) ;;;
      clear_framebuffers ;;;
      create_swapchain_framebuffers Exercise3 d ;;;
      when (changedSize changes) (assign_pipe d) ;;;
      modify (fun s => upd_recreateSwapchain s false)
  | Exercise4 =>
      when (changedFormat changes) (assign_renderPass d) ;;;
      when (changedSize changes)
        (assign_pipe d ;;; assign_alphaPipeline d ;;; assign_depthBuffer d) ;;;
      clear_framebuffers ;;;
      create_swapchain_framebuffers Exercise4 d ;;;
      modify (fun s => upd_recreateSwapchain s false)
  end.

(** The recreation branch of the loop after its [vkDeviceWaitIdle]. *)
Definition recreation (ex : Exercise) (d : Driver) : M unit :=
  changes <- call_recreate_swapchain d ;;
  rebuild ex d changes.

(** [for( std::size_t i = 0; i < framebuffers.size(); ++i )]: a command
    buffer and a fence created signaled, per framebuffer. *)
Fixpoint alloc_pool (d : Driver) (i n : nat) : M unit :=
  match n with
  | O => ret tt
  | S n' =>
      lift (check "vkAllocateCommandBuffers" (fst (command_buffer_res d i))) ;;;
      modify (fun s => upd_pool s (cbuffers s ++ [snd (command_buffer_res d i)]) (cbfences s)) ;;;
      lift (check "vkCreateFence" (fence_res d i)) ;;;
      modify (fun s =>
        upd_pool s (cbuffers s) (cbfences s ++ [{| signaled := true; pending := 0 |}])) ;;;
      alloc_pool d (S i) n'
  end.

(** The variables of [main] before anything is created. *)
Definition blank : State :=
  {| window := {| graphicsFamilyIndex := 0; presentFamilyIndex := 0;
                  swapchain := VK_NULL_HANDLE; swapImages := []; swapViews := [];
                  swapchainFormat := VK_FORMAT_UNDEFINED;
                  swapchainExtent := {| width := 0; height := 0 |} |};
     renderPass := VK_FORMAT_UNDEFINED;
     pipe := {| width := 0; height := 0 |};
     alphaPipeline := None;
     depthBuffer := None;
     framebuffers := [];
     cbuffers := [];
     cbfences := [];
     recreateSwapchain := false;
     imageIndex := O;
     pc := PcLoopHead;
     log := [] |}.

(** [main] up to its loop: the window with its swapchain, the render pass,
    the pipelines, the depth buffer of exercise 4, the framebuffers and the
    pool of command buffers and fences.  (The objects that do not depend on
    the swapchain are left out.) *)
Definition call_make_vulkan_window (d : Driver) (graphics present : Z)
    (queueFamilyIndices : list Z) : M unit :=
  fun s =>
    let '(w, r) := make_vulkan_window (platform d) graphics present queueFamilyIndices in
    (upd_window s w, r).

Definition setup (ex : Exercise) (d : Driver) (graphics present : Z)
    (queueFamilyIndices : list Z) : M unit :=
  call_make_vulkan_window d graphics present queueFamilyIndices ;;;
  assign_renderPass d ;;;
  assign_pipe d ;;;
  match ex with
  | Exercise3 => ret tt
  | Exercise4 => assign_alphaPipeline d ;;; assign_depthBuffer d
  end ;;;
  create_swapchain_framebuffers ex d ;;;
  s <- get ;;
  alloc_pool d 0 (length (framebuffers s)).

(** Where the program goes after a piece of code that may throw: on, to the
    handler of [main], or nowhere after a failed assert. *)
Definition conclude (r : State * outcome unit) (next : Pc) : State :=
  match r with
  | (s, Ok _) => goto s next
  | (s, Throw _) => goto s PcExit1
  | (s, Abort _) => goto s PcAborted
  end.

Definition startup (ex : Exercise) (d : Driver) (graphics present : Z)
    (queueFamilyIndices : list Z) : State :=
  conclude (setup ex d graphics present queueFamilyIndices blank) PcLoopHead.

(** *** The steps of the loop *)

(** No submission is in flight: what a successful [vkDeviceWaitIdle] waits
    for. *)
Definition device_idle (s : State) : bool :=
  forallb (fun f => Nat.eqb (pending f) 0) (cbfences s).

Definition fence_signaled (s : State) (i : nat) : bool :=
  match cbfences s !! i with
  | Some f => signaled f
  | None => false
  end.

Definition reset_fence (i : nat) (s : State) : State :=
  match cbfences s !! i with
  | Some f => upd_cbfences s (<[i := {| signaled := false; pending := pending f |}]> (cbfences s))
  | None => s
  end.

(** [vkQueueSubmit] with the fence of slot [i]: one more submission in
    flight that will signal it. *)
Definition queue_submit (i : nat) (s : State) : State :=
  match cbfences s !! i with
  | Some f =>
      upd_cbfences s (<[i := {| signaled := signaled f; pending := S (pending f) |}]> (cbfences s))
  | None => s
  end.

(** The GPU finishes a submission of slot [i] and signals its fence. *)
Definition gpu_complete (i : nat) (s : State) : State :=
  match cbfences s !! i with
  | Some f =>
      match pending f with
      | O => s
      | S n => upd_cbfences s (<[i := {| signaled := true; pending := n |}]> (cbfences s))
      end
  | None => s
  end.

(** One step of the program.  A blocking call that cannot return yet leaves
    the state as it is: [vkWaitForFences] and [vkDeviceWaitIdle] are called
    without a timeout and return [VK_SUCCESS] only once the fence is signaled,
    respectively the device idle.  The status of [vkDeviceWaitIdle] is not
    looked at by the code. *)
Definition host_step (ex : Exercise) (r : Response) (s : State) : State :=
  match pc s with
  | PcLoopHead =>
      if should_close r then goto s PcShutdown
      else
        let s := emit s EvPollEvents in
        if recreateSwapchain s then goto s PcWaitIdle else goto s PcAcquire
  | PcWaitIdle =>
      if negb (device_idle s) && succeeded (status r) then s
      else goto (emit s EvDeviceWaitIdle) PcRecreate
  | PcRecreate =>
      (* ... continue; *)
      conclude (recreation ex (driver r) s) PcLoopHead
  | PcAcquire =>
      let s := emit (upd_imageIndex s (acquired r)) (EvAcquire (status r) (acquired r)) in
      if stale (status r) then
        (* recreateSwapchain = true; continue; *)
        goto (upd_recreateSwapchain s true) PcLoopHead
      else if negb (succeeded (status r)) then goto s PcExit1
      else if Nat.ltb (imageIndex s) (length (cbfences s)) then goto s PcWaitFence
      else goto s PcAborted
  | PcWaitFence =>
      if negb (succeeded (status r)) then goto s PcExit1
      else if fence_signaled s (imageIndex s)
      then goto (emit s (EvWaitFence (imageIndex s))) PcResetFence
      else s
  | PcResetFence =>
      if negb (succeeded (status r)) then goto s PcExit1
      else
        let s := emit (reset_fence (imageIndex s) s) (EvResetFence (imageIndex s)) in
        if Nat.ltb (imageIndex s) (length (cbuffers s))
           && Nat.ltb (imageIndex s) (length (framebuffers s))
        then goto s PcRecord else goto s PcAborted
  | PcRecord =>
      if negb (succeeded (status r)) then goto s PcExit1
      else goto (emit s (EvRecord (imageIndex s))) PcSubmit
  | PcSubmit =>
      if negb (succeeded (status r)) then goto s PcExit1
      else goto (emit (queue_submit (imageIndex s) s) (EvSubmit (imageIndex s))) PcPresent
  | PcPresent =>
      let s := emit s (EvPresent (imageIndex s) (status r)) in
      if stale (status r) then goto (upd_recreateSwapchain s true) PcLoopHead
      else if negb (succeeded (status r)) then goto s PcExit1
      else goto s PcLoopHead
  | PcShutdown =>
      if negb (device_idle s) && succeeded (status r) then s
      else goto (emit s EvDeviceWaitIdle) PcExit0
  | PcExit0 | PcExit1 | PcAborted => s
  end.

Definition step (ex : Exercise) (a : Action) (s : State) : State :=
  match a with
  | Host r => host_step ex r s
  | GpuComplete i => gpu_complete i s
  end.

(** The state after a sequence of actions, first action first. *)
Definition run (ex : Exercise) (acts : list Action) (s : State) : State :=
  fold_left (fun s a => step ex a s) acts s.

End Loop.

(** ** Concrete surfaces, windows and runs *)
Module Scenario.

Import Window Loop.

Definition extent (w h : Z) : VkExtent2D := {| width := w; height := h |}.

Definition caps (minCount maxCount : Z) (cur lo hi : VkExtent2D) : VkSurfaceCapabilitiesKHR :=
  {| minImageCount := minCount; maxImageCount := maxCount;
     currentExtent := cur; minImageExtent := lo; maxImageExtent := hi;
     currentTransform := 1 |}.

Definition bgra_srgb : VkSurfaceFormatKHR :=
  {| format := VK_FORMAT_B8G8R8A8_SRGB; colorSpace := VK_COLOR_SPACE_SRGB_NONLINEAR_KHR |}.

Definition rgba_unorm : VkSurfaceFormatKHR :=
  {| format := VK_FORMAT_R8G8B8A8_UNORM; colorSpace := VK_COLOR_SPACE_SRGB_NONLINEAR_KHR |}.

Definition bgra_unorm : VkSurfaceFormatKHR :=
  {| format := VK_FORMAT_B8G8R8A8_UNORM; colorSpace := VK_COLOR_SPACE_SRGB_NONLINEAR_KHR |}.

(** A driver that accepts everything: the swapchain gets the handle [sc],
    it has [n] images with the handles [100, 101, ...], and the view of image
    [i] gets the handle [200 + i]. *)
Definition surface (formats : list VkSurfaceFormatKHR) (c : VkSurfaceCapabilitiesKHR)
    (fb : Z * Z) (sc : Handle) (n : nat) : Platform :=
  {| formats_count_res := VK_SUCCESS;
     formats_fill_res := VK_SUCCESS;
     surface_formats := formats;
     modes_count_res := VK_SUCCESS;
     modes_fill_res := VK_SUCCESS;
     surface_present_modes := [VK_PRESENT_MODE_FIFO_KHR];
     capabilities_res := VK_SUCCESS;
     surface_capabilities := c;
     framebuffer_size := fb;
     vkCreateSwapchainKHR := fun _ => (VK_SUCCESS, sc);
     images_count_res := VK_SUCCESS;
     images_count := n;
     images_fill_res := VK_SUCCESS;
     images_data := map (fun i => 100 + Z.of_nat i) (seq 0 n);
     vkCreateImageView := fun i _ _ => (VK_SUCCESS, 200 + Z.of_nat i) |}.

(** The same surface when the driver refuses to create the swapchain. *)
Definition refusing (p : Platform) (res : VkResult) : Platform :=
  {| formats_count_res := formats_count_res p;
     formats_fill_res := formats_fill_res p;
     surface_formats := surface_formats p;
     modes_count_res := modes_count_res p;
     modes_fill_res := modes_fill_res p;
     surface_present_modes := surface_present_modes p;
     capabilities_res := capabilities_res p;
     surface_capabilities := surface_capabilities p;
     framebuffer_size := framebuffer_size p;
     vkCreateSwapchainKHR := fun _ => (res, VK_NULL_HANDLE);
     images_count_res := images_count_res p;
     images_count := images_count p;
     images_fill_res := images_fill_res p;
     images_data := images_data p;
     vkCreateImageView := vkCreateImageView p |}.

(** Scenario A of the specification: an undefined current extent, a
    drawable area of 800 x 600, extents from 1 x 1 to 4096 x 4096. *)
Definition capsA : VkSurfaceCapabilitiesKHR :=
  caps 2 0 (extent UINT32_MAX UINT32_MAX) (extent 1 1) (extent 4096 4096).

Definition surfaceA : Platform := surface [bgra_srgb] capsA (800, 600) 7 2.

(** A surface with a fixed extent of 1280 x 720, and one whose reported
    current extent has only its height at [UINT32_MAX]. *)
Definition caps720 (minCount maxCount : Z) : VkSurfaceCapabilitiesKHR :=
  caps minCount maxCount (extent 1280 720) (extent 1 1) (extent 4096 4096).

Definition capsH : VkSurfaceCapabilitiesKHR :=
  caps 2 0 (extent 640 UINT32_MAX) (extent 1 1) (extent 4096 4096).

Definition surfaceH : Platform := surface [bgra_srgb] capsH (800, 600) 7 2.

(** A surface whose reported current extent has only its width at
    [UINT32_MAX]. *)
Definition capsW : VkSurfaceCapabilitiesKHR :=
  caps 2 0 (extent UINT32_MAX 500) (extent 1 1) (extent 4096 4096).

Definition surfaceW : Platform := surface [bgra_srgb] capsW (800, 600) 7 2.

(** A surface that lists a preferred format second, one that lists none,
    and one that allows exactly two images. *)
Definition surface_mixed : Platform :=
  surface [rgba_unorm; bgra_srgb; bgra_unorm] (caps720 2 0) (1280, 720) 7 2.

Definition surface_unorm : Platform :=
  surface [bgra_unorm; rgba_unorm] (caps720 2 0) (1280, 720) 7 2.

Definition surface_two : Platform :=
  surface [bgra_srgb] (caps720 2 2) (1280, 720) 7 2.

(** A window with two images and their views. *)
Definition window2 : VulkanWindow :=
  {| graphicsFamilyIndex := 0; presentFamilyIndex := 0;
     swapchain := 7; swapImages := [100; 101]; swapViews := [200; 201];
     swapchainFormat := VK_FORMAT_B8G8R8A8_SRGB;
     swapchainExtent := extent 1280 720 |}.

(** A driver for the resources of [main] that accepts everything. *)
Definition driver_ok (p : Platform) : Driver :=
  {| platform := p;
     render_pass_res := VK_SUCCESS;
     pipeline_res := VK_SUCCESS;
     alpha_pipeline_res := VK_SUCCESS;
     depth_buffer_res := (VK_SUCCESS, 300);
     framebuffer_res := fun _ => VK_SUCCESS;
     command_buffer_res := fun i => (VK_SUCCESS, 400 + Z.of_nat i);
     fence_res := fun _ => VK_SUCCESS |}.

Definition answer (close : bool) (res : VkResult) (i : nat) (p : Platform) : Response :=
  {| should_close := close; status := res; acquired := i; driver := driver_ok p |}.

(** A surface of 1280 x 720 with [n] images. *)
Definition surface720 (sc : Handle) (n : nat) : Platform :=
  surface [bgra_srgb] (caps720 2 0) (1280, 720) sc n.

(** The plain answer: go on, [VK_SUCCESS], image 0. *)
Definition fine : Response := answer false VK_SUCCESS 0 (surface720 8 2).

Definition start (ex : Exercise) (n : nat) : State :=
  startup ex (driver_ok (surface720 7 n)) 0 0 [0].

(** The window is resized while the program runs: the acquire reports an
    out-of-date swapchain, and the recreated swapchain has three images where
    the first one had two. *)
Definition grow_run : list Action :=
  [ Host fine;                                                     (* loop head *)
    Host (answer false VK_ERROR_OUT_OF_DATE_KHR 0 (surface720 8 3)); (* acquire *)
    Host fine;                                                     (* loop head *)
    Host fine;                                                     (* wait idle *)
    Host (answer false VK_SUCCESS 0 (surface720 8 3)) ].           (* recreation *)

(** From the head of the loop to the submission of a frame: loop head,
    acquire, wait, reset, record. *)
Definition to_submit : list Action :=
  [Host fine; Host fine; Host fine; Host fine; Host fine].

(** A recreation that changes nothing, in exercise 4. *)
Definition same_run : list Action :=
  [ Host fine;
    Host (answer false VK_SUBOPTIMAL_KHR 0 (surface720 8 2));
    Host fine;
    Host fine ].

End Scenario.

(** ** Properties the theorems speak about *)
Module Props.

Import Window Loop.

(** An 8-bit sRGB format with four channels in RGBA or BGRA order, in the
    sRGB non-linear colour space. *)
Definition preferred (f : VkSurfaceFormatKHR) : Prop :=
  (format f = VK_FORMAT_R8G8B8A8_SRGB \/ format f = VK_FORMAT_B8G8R8A8_SRGB)
  /\ colorSpace f = VK_COLOR_SPACE_SRGB_NONLINEAR_KHR.

(** The driver answers every query of [create_swapchain]. *)
Definition queries_succeed (p : Platform) : Prop :=
  formats_count_res p = VK_SUCCESS /\ formats_fill_res p = VK_SUCCESS
  /\ modes_count_res p = VK_SUCCESS /\ modes_fill_res p = VK_SUCCESS
  /\ capabilities_res p = VK_SUCCESS.

(** The driver creates whatever swapchain it is asked for. *)
Definition accepting (p : Platform) : Prop :=
  forall info, fst (vkCreateSwapchainKHR p info) = VK_SUCCESS.

(** The bounds on the requested image count, read as three bounds that
    hold together. *)
Definition count_bounds (c : VkSurfaceCapabilitiesKHR) (n : Z) : Prop :=
  2 <= n
  /\ (2 < minImageCount c + 1 -> minImageCount c + 1 <= n)
  /\ (maxImageCount c <> 0 -> n <= maxImageCount c).

(** The drawable area clamped, component by component, to the extents the
    surface supports. *)
Definition clamped_drawable (c : VkSurfaceCapabilitiesKHR) (fb : Z * Z) : VkExtent2D :=
  {| width := clamp (to_u32 (fst fb)) (width (minImageExtent c)) (width (maxImageExtent c));
     height := clamp (to_u32 (snd fb)) (height (minImageExtent c)) (height (maxImageExtent c)) |}.

Definition within (e lo hi : VkExtent2D) : Prop :=
  width lo <= width e <= width hi /\ height lo <= height e <= height hi.

(** A fence as [create_fence] makes it for the pool: signaled, nothing in
    flight. *)
Definition fresh (f : Fence) : Prop := signaled f = true /\ pending f = O.

(** The protocol of the fences: a slot has at most one submission in
    flight, and none when its fence is signaled; a fence that is neither
    signaled nor awaited by a submission is the fence of the acquired image,
    which the program has reset and not yet submitted with (or it ended
    there); the program resets a fence only after the wait on it has returned;
    it records and submits only with the fence reset and nothing of the slot
    in flight. *)
Definition fence_protocol (s : State) : Prop :=
  (forall i f, cbfences s !! i = Some f ->
     (pending f <= 1)%nat
     /\ (signaled f = true -> pending f = O)
     /\ (signaled f = false -> pending f = O ->
         i = imageIndex s
         /\ (pc s = PcRecord \/ pc s = PcSubmit \/ pc s = PcExit1 \/ pc s = PcAborted)))
  /\ (pc s = PcResetFence -> fence_signaled s (imageIndex s) = true)
  /\ (pc s = PcRecord \/ pc s = PcSubmit ->
      exists f, cbfences s !! imageIndex s = Some f /\ signaled f = false /\ pending f = O).

(** What the code that rebuilds resources leaves alone: the pool, the
    acquired index and the program point; the log only grows. *)
Definition same_pool (s s' : State) : Prop :=
  cbuffers s' = cbuffers s /\ cbfences s' = cbfences s
  /\ imageIndex s' = imageIndex s /\ pc s' = pc s
  /\ exists evs, log s' = log s ++ evs.

(** What the code that builds resources from the window leaves alone. *)
Definition same_window (s s' : State) : Prop :=
  window s' = window s /\ cbuffers s' = cbuffers s /\ cbfences s' = cbfences s.

Definition keeps_fresh (s s' : State) : Prop :=
  Forall fresh (cbfences s) -> Forall fresh (cbfences s').

(** The framebuffers of a window: one per view, of the extent of the
    swapchain. *)
Definition window_framebuffers (ex : Exercise) (s : State) : list Framebuffer :=
  map (fun view => {| fb_attachments := attachments ex s view;
                      fb_extent := swapchainExtent (window s) |})
      (swapViews (window s)).

(** The framebuffer loop when no creation fails. *)
Fixpoint add_framebuffers (ex : Exercise) (i : nat) (views : list Handle) (s : State) : State :=
  match views with
  | [] => s
  | view :: rest =>
      add_framebuffers ex (S i) rest
        (emit (upd_framebuffers s
                 (framebuffers s ++
                  [{| fb_attachments := attachments ex s view;
                      fb_extent := swapchainExtent (window s) |}]))
              (EvCreateFramebuffer i (swapchainExtent (window s))))
  end.

Definition framebuffer_events (e : VkExtent2D) (first n : nat) : list Event :=
  map (fun i => EvCreateFramebuffer i e) (seq first n).

(** The calls of a recreation that changes the format ([cf]) or the size
    ([cs]) and ends with format [f], extent [e] and [n] views. *)
Definition recreation_events (ex : Exercise) (cf cs : bool) (f : VkFormat) (e : VkExtent2D)
    (n : nat) : list Event :=
  match ex with
  | Exercise3 =>
      [EvRecreateSwapchain]
      ++ (if cf then [EvCreateRenderPass f] else [])
      ++ [EvClearFramebuffers] ++ framebuffer_events e 0 n
      ++ (if cs then [EvCreatePipeline e] else [])
  | Exercise4 =>
      [EvRecreateSwapchain]
      ++ (if cf then [EvCreateRenderPass f] else [])
      ++ (if cs then [EvCreatePipeline e; EvCreateAlphaPipeline e; EvCreateDepthBuffer e]
          else [])
      ++ [EvClearFramebuffers] ++ framebuffer_events e 0 n
  end.

Definition is_frame_event (ev : Event) : bool :=
  match ev with
  | EvAcquire _ _ | EvWaitFence _ | EvResetFence _ | EvRecord _ | EvSubmit _
  | EvPresent _ _ => true
  | _ => false
  end.

(** The events logged since the log had [n] entries. *)
Definition events_since (n : nat) (s : State) : list Event := drop n (log s).

End Props.

(** ** Device selection of [labutils/vulkan_window.cpp] *)
Module Device.

(** Enumerators of [vulkan_core.h], and the two version macros
    [VK_API_VERSION_MAJOR] and [VK_API_VERSION_MINOR]. *)
Definition VK_FALSE : Z := 0.
Definition VK_QUEUE_GRAPHICS_BIT : Z := 1.
Definition VK_QUEUE_COMPUTE_BIT : Z := 2.
Definition VK_QUEUE_TRANSFER_BIT : Z := 4.
Definition VK_PHYSICAL_DEVICE_TYPE_OTHER : Z := 0.
Definition VK_PHYSICAL_DEVICE_TYPE_INTEGRATED_GPU : Z := 1.
Definition VK_PHYSICAL_DEVICE_TYPE_DISCRETE_GPU : Z := 2.
Definition VK_KHR_SWAPCHAIN_EXTENSION_NAME : string := "VK_KHR_swapchain".

Definition VK_API_VERSION_MAJOR (version : Z) : Z := Z.land (Z.shiftr version 22) 127.
Definition VK_API_VERSION_MINOR (version : Z) : Z := Z.land (Z.shiftr version 12) 1023.
Definition VK_MAKE_API_VERSION (variant major minor patch : Z) : Z :=
  Z.lor (Z.lor (Z.lor (Z.shiftl variant 29) (Z.shiftl major 22)) (Z.shiftl minor 12)) patch.

(** What the driver reports about a physical device: its properties, the
    names that [lut::detail::get_device_extensions] returns for it, the
    [queueFlags] of its queue families in order, and the answer of
    [vkGetPhysicalDeviceSurfaceSupportKHR] for the family of an index: the
    status and the value of [supported] after the call. *)
Record PhysicalDevice := {
  dev_handle : Handle;
  apiVersion : Z;
  deviceType : Z;
  device_extensions : list string;
  queueFamilies : list Z;
  surface_support : nat -> VkResult * Z
}.

(** [(res && supported) == VK_SUCCESS]: the conjunction of the two integers
    is a [bool], and it is compared with the enumerator 0. *)
Definition support_test (res : VkResult) (supported : Z) : bool :=
  (if negb (res =? 0) && negb (supported =? 0) then 1 else 0) =? VK_SUCCESS.

(** The loop of [find_queue_family], from the family of index [i] on. *)
Fixpoint find_queue_family_loop (dev : PhysicalDevice) (aQueueFlags : Z) (aSurface : Handle)
    (i : nat) (families : list Z) : option nat :=
  match families with
  | [] => None
  | queueFlags :: rest =>
      if aQueueFlags =? Z.land aQueueFlags queueFlags then
        if aSurface =? VK_NULL_HANDLE then Some i
        else
          let '(res, supported) := surface_support dev i in
          if support_test res supported then Some i
          else find_queue_family_loop dev aQueueFlags aSurface (S i) rest
      else find_queue_family_loop dev aQueueFlags aSurface (S i) rest
  end.

Definition find_queue_family (dev : PhysicalDevice) (aQueueFlags : Z) (aSurface : Handle)
    : option nat :=
  find_queue_family_loop dev aQueueFlags aSurface 0 (queueFamilies dev).

Definition extensions_count (extensions : list string) (name : string) : bool :=
  existsb (String.eqb name) extensions.

(** [score_device]: the scores are the floats -1, 0, 100 and 500, which are
    integers; they are only added to 0 and compared. *)
Definition score_device (dev : PhysicalDevice) (aSurface : Handle) : Z :=
  let major := VK_API_VERSION_MAJOR (apiVersion dev) in
  let minor := VK_API_VERSION_MINOR (apiVersion dev) in
  if (major <? 1) || ((major =? 1) && (minor <? 2)) then -1
  else if negb (extensions_count (device_extensions dev) VK_KHR_SWAPCHAIN_EXTENSION_NAME)
  then -1
  else if negb (bool_decide (is_Some (find_queue_family dev 0 aSurface))) then -1
  else if negb (bool_decide (is_Some (find_queue_family dev VK_QUEUE_GRAPHICS_BIT
                                        VK_NULL_HANDLE)))
  then -1
  else
    let score := 0 in
    if VK_PHYSICAL_DEVICE_TYPE_DISCRETE_GPU =? deviceType dev then score + 500
    else if VK_PHYSICAL_DEVICE_TYPE_INTEGRATED_GPU =? deviceType dev then score + 100
    else score.

(** The loop of [select_device]. *)
Fixpoint select_device_loop (devices : list PhysicalDevice) (aSurface : Handle)
    (bestScore : Z) (bestDevice : Handle) : Z * Handle :=
  match devices with
  | [] => (bestScore, bestDevice)
  | device :: rest =>
      let score := score_device device aSurface in
      if bestScore <? score
      then select_device_loop rest aSurface score (dev_handle device)
      else select_device_loop rest aSurface bestScore bestDevice
  end.

(** The answers of [vkEnumeratePhysicalDevices]. *)
Record Enumeration := {
  devices_count_res : VkResult;
  devices_fill_res : VkResult;
  devices : list PhysicalDevice
}.

Definition select_device (e : Enumeration) (aSurface : Handle) : outcome Handle :=
  bind (check "vkEnumeratePhysicalDevices" (devices_count_res e)) (fun _ =>
  bind (check "vkEnumeratePhysicalDevices" (devices_fill_res e)) (fun _ =>
  Ok (snd (select_device_loop (devices e) aSurface (-1) VK_NULL_HANDLE)))).

(** The choice of the queue families in [make_vulkan_window] (lines 229 to
    253): the new value of [ret.graphicsFamilyIndex] and the families the
    device is created with.  In the second branch [ret.graphicsFamilyIndex]
    is assigned twice, and [ret.presentFamilyIndex] not at all. *)
Definition select_queue_families (dev : PhysicalDevice) (aSurface : Handle)
    : outcome (Z * list Z) :=
  match find_queue_family dev VK_QUEUE_GRAPHICS_BIT aSurface with
  | Some index => Ok (Z.of_nat index, [Z.of_nat index])
  | None =>
      let graphics := find_queue_family dev VK_QUEUE_GRAPHICS_BIT VK_NULL_HANDLE in
      let present := find_queue_family dev 0 aSurface in
      match graphics, present with
      | Some graphics, Some present =>
          let graphicsFamilyIndex := Z.of_nat graphics in
          let graphicsFamilyIndex := Z.of_nat present in
          Ok (graphicsFamilyIndex, [Z.of_nat graphics; Z.of_nat present])
      | _, _ => Abort "graphics && present"
      end
  end.

(** [ret.presentFamilyIndex] after the queues are retrieved (lines 262 to
    268), given its value before. *)
Definition present_family (graphicsFamilyIndex presentFamilyIndex : Z)
    (queueFamilyIndices : list Z) : Z :=
  if Nat.leb 2 (length queueFamilyIndices) then presentFamilyIndex
  else graphicsFamilyIndex.

End Device.

(** ** [find_memory_type] of [exercise2/main.cpp] *)
Module Memory.

(** [1u << i] in [std::uint32_t]. *)
Definition bit (i : nat) : Z := to_u32 (Z.shiftl 1 (Z.of_nat i)).

(** The loop over [memoryProperties.memoryTypes], given by the
    [propertyFlags] of the types in order, from the type of index [i] on. *)
Fixpoint find_memory_type_loop (aMemoryTypeBits aProps : Z) (i : nat)
    (memoryTypes : list Z) : option nat :=
  match memoryTypes with
  | [] => None
  | propertyFlags :: rest =>
      if (aProps =? Z.land aProps propertyFlags)
         && negb (Z.land aMemoryTypeBits (bit i) =? 0)
      then Some i
      else find_memory_type_loop aMemoryTypeBits aProps (S i) rest
  end.

(** The exception of [find_memory_type] carries the allowed memory types and
    the required properties. *)
Inductive NoMemoryType := MkNoMemoryType (allowed required : Z).

Definition find_memory_type (memoryTypes : list Z) (aMemoryTypeBits aProps : Z)
    : nat + NoMemoryType :=
  match find_memory_type_loop aMemoryTypeBits aProps 0 memoryTypes with
  | Some i => inl i
  | None => inr (MkNoMemoryType aMemoryTypeBits aProps)
  end.

End Memory.

(** ** Mip levels and the texture upload of [labutils/vkimage.cpp] *)
Module Image.

(** [aX <<= n] in [std::uint32_t]. *)
Definition shl32 (x n : Z) : Z := to_u32 (Z.shiftl x n).

Definition countl_zero_ (aX : Z) : Z :=
  if aX =? 0 then 32
  else
    let res := 0 in
    let '(res, aX) :=
      if Z.land aX 4294901760 =? 0 then (res + 16, shl32 aX 16) else (res, aX) in
    let '(res, aX) :=
      if Z.land aX 4278190080 =? 0 then (res + 8, shl32 aX 8) else (res, aX) in
    let '(res, aX) :=
      if Z.land aX 4026531840 =? 0 then (res + 4, shl32 aX 4) else (res, aX) in
    let '(res, aX) :=
      if Z.land aX 3221225472 =? 0 then (res + 2, shl32 aX 2) else (res, aX) in
    if Z.land aX 2147483648 =? 0 then res + 1 else res.

Definition compute_mip_level_count (aWidth aHeight : Z) : Z :=
  let bits := Z.lor aWidth aHeight in
  let leadingZeros := countl_zero_ bits in
  32 - leadingZeros.

Inductive VkImageLayout :=
| VK_IMAGE_LAYOUT_UNDEFINED
| VK_IMAGE_LAYOUT_TRANSFER_DST_OPTIMAL
| VK_IMAGE_LAYOUT_TRANSFER_SRC_OPTIMAL
| VK_IMAGE_LAYOUT_SHADER_READ_ONLY_OPTIMAL.

Definition VK_ACCESS_TRANSFER_READ_BIT : Z := 2048.
Definition VK_ACCESS_TRANSFER_WRITE_BIT : Z := 4096.
Definition VK_ACCESS_SHADER_READ_BIT : Z := 32.
Definition VK_PIPELINE_STAGE_TOP_OF_PIPE_BIT : Z := 1.
Definition VK_PIPELINE_STAGE_FRAGMENT_SHADER_BIT : Z := 128.
Definition VK_PIPELINE_STAGE_TRANSFER_BIT : Z := 4096.

(** The commands that [load_image_texture2d] records on the colour aspect of
    the one image: [image_barrier] with its masks, layouts, stages and range
    of mip levels, the copy of the staging buffer, and a blit between two mip
    levels with the far corners of its source and destination regions. *)
Inductive Cmd :=
| CmdImageBarrier (aSrcAccessMask aDstAccessMask : Z) (aSrcLayout aDstLayout : VkImageLayout)
    (aSrcStageMask aDstStageMask : Z) (baseMipLevel levelCount : nat)
| CmdCopyBufferToImage (dstImageLayout : VkImageLayout) (mipLevel : nat) (width height : Z)
| CmdBlitImage (srcImageLayout : VkImageLayout) (srcLevel : nat) (srcWidth srcHeight : Z)
    (dstImageLayout : VkImageLayout) (dstLevel : nat) (dstWidth dstHeight : Z).

(** [width >>= 1; if (width == 0) width = 1;] *)
Definition halve (x : Z) : Z :=
  let x := Z.shiftr x 1 in if x =? 0 then 1 else x.

(** [std::int32_t(width)] *)
Definition to_i32 (x : Z) : Z := if x <? 2147483648 then x else x - 4294967296.

(** The loop [for (mipLevel = 1; mipLevel < mipLevels; mipLevel++)], with
    [n] iterations left. *)
Fixpoint blit_loop (n : nat) (mipLevel : nat) (width height : Z) : list Cmd :=
  match n with
  | O => []
  | S n' =>
      CmdBlitImage VK_IMAGE_LAYOUT_TRANSFER_SRC_OPTIMAL (mipLevel - 1)
        (to_i32 width) (to_i32 height)
        VK_IMAGE_LAYOUT_TRANSFER_DST_OPTIMAL mipLevel
        (to_i32 (halve width)) (to_i32 (halve height))
      :: CmdImageBarrier VK_ACCESS_TRANSFER_WRITE_BIT VK_ACCESS_TRANSFER_READ_BIT
           VK_IMAGE_LAYOUT_TRANSFER_DST_OPTIMAL VK_IMAGE_LAYOUT_TRANSFER_SRC_OPTIMAL
           VK_PIPELINE_STAGE_TRANSFER_BIT VK_PIPELINE_STAGE_TRANSFER_BIT mipLevel 1
      :: blit_loop n' (S mipLevel) (halve width) (halve height)
  end.

(** What [load_image_texture2d] records between [vkBeginCommandBuffer] and
    [vkEndCommandBuffer] for a base image of [baseWidth] x [baseHeight]. *)
Definition upload_commands (baseWidth baseHeight : Z) : list Cmd :=
  let mipLevels := Z.to_nat (compute_mip_level_count baseWidth baseHeight) in
  [ CmdImageBarrier 0 VK_ACCESS_TRANSFER_WRITE_BIT
      VK_IMAGE_LAYOUT_UNDEFINED VK_IMAGE_LAYOUT_TRANSFER_DST_OPTIMAL
      VK_PIPELINE_STAGE_TOP_OF_PIPE_BIT VK_PIPELINE_STAGE_TRANSFER_BIT 0 mipLevels;
    CmdCopyBufferToImage VK_IMAGE_LAYOUT_TRANSFER_DST_OPTIMAL 0 baseWidth baseHeight;
    CmdImageBarrier VK_ACCESS_TRANSFER_WRITE_BIT VK_ACCESS_TRANSFER_READ_BIT
      VK_IMAGE_LAYOUT_TRANSFER_DST_OPTIMAL VK_IMAGE_LAYOUT_TRANSFER_SRC_OPTIMAL
      VK_PIPELINE_STAGE_TRANSFER_BIT VK_PIPELINE_STAGE_TRANSFER_BIT 0 1 ]
  ++ blit_loop (mipLevels - 1) 1 baseWidth baseHeight
  ++ [ CmdImageBarrier VK_ACCESS_TRANSFER_READ_BIT VK_ACCESS_SHADER_READ_BIT
         VK_IMAGE_LAYOUT_TRANSFER_SRC_OPTIMAL VK_IMAGE_LAYOUT_SHADER_READ_ONLY_OPTIMAL
         VK_PIPELINE_STAGE_TRANSFER_BIT VK_PIPELINE_STAGE_FRAGMENT_SHADER_BIT 0 mipLevels ].

End Image.

(** ** The input callbacks of [exercise4/main.cpp] *)
Module Input.

(** Keys, buttons, actions and cursor modes of [GLFW/glfw3.h]. *)
Definition GLFW_RELEASE : Z := 0.
Definition GLFW_PRESS : Z := 1.
Definition GLFW_REPEAT : Z := 2.
Definition GLFW_KEY_A : Z := 65.
Definition GLFW_KEY_D : Z := 68.
Definition GLFW_KEY_E : Z := 69.
Definition GLFW_KEY_Q : Z := 81.
Definition GLFW_KEY_S : Z := 83.
Definition GLFW_KEY_W : Z := 87.
Definition GLFW_KEY_ESCAPE : Z := 256.
Definition GLFW_KEY_LEFT_SHIFT : Z := 340.
Definition GLFW_KEY_LEFT_CONTROL : Z := 341.
Definition GLFW_KEY_RIGHT_SHIFT : Z := 344.
Definition GLFW_KEY_RIGHT_CONTROL : Z := 345.
Definition GLFW_MOUSE_BUTTON_RIGHT : Z := 1.
Definition GLFW_CURSOR_NORMAL : Z := 212993.
Definition GLFW_CURSOR_DISABLED : Z := 212995.

Inductive EInputState :=
| forward | backward | leftward | rightward | upward | downward | fast | slow | mousing.

(** [std::size_t(EInputState::...)]; [EInputState::max] is 9. *)
Definition index (e : EInputState) : nat :=
  match e with
  | forward => 0 | backward => 1 | leftward => 2 | rightward => 3 | upward => 4
  | downward => 5 | fast => 6 | slow => 7 | mousing => 8
  end.

Definition max : nat := 9.

(** What the key and button callbacks read and write: [inputMap] of the
    [UserState], and the close flag and the cursor mode of the GLFW window. *)
Record InputState := {
  inputMap : list bool;
  shouldClose : bool;
  cursorMode : Z
}.

Definition set_input (s : InputState) (e : EInputState) (b : bool) : InputState :=
  {| inputMap := <[index e := b]> (inputMap s);
     shouldClose := shouldClose s;
     cursorMode := cursorMode s |}.

Definition input (s : InputState) (e : EInputState) : bool :=
  match inputMap s !! index e with
  | Some b => b
  | None => false
  end.

(** The [switch (aKey)] of [glfw_callback_key_press]. *)
Definition key_slot (aKey : Z) : option EInputState :=
  if aKey =? GLFW_KEY_W then Some forward
  else if aKey =? GLFW_KEY_S then Some backward
  else if aKey =? GLFW_KEY_A then Some leftward
  else if aKey =? GLFW_KEY_D then Some rightward
  else if aKey =? GLFW_KEY_E then Some upward
  else if aKey =? GLFW_KEY_Q then Some downward
  else if (aKey =? GLFW_KEY_LEFT_SHIFT) || (aKey =? GLFW_KEY_RIGHT_SHIFT) then Some fast
  else if (aKey =? GLFW_KEY_LEFT_CONTROL) || (aKey =? GLFW_KEY_RIGHT_CONTROL) then Some slow
  else None.

Definition glfw_callback_key_press (aKey aAction : Z) (s : InputState) : InputState :=
  let s :=
    if (GLFW_KEY_ESCAPE =? aKey) && (GLFW_PRESS =? aAction)
    then {| inputMap := inputMap s; shouldClose := true; cursorMode := cursorMode s |}
    else s in
  let isReleased := GLFW_RELEASE =? aAction in
  match key_slot aKey with
  | Some e => set_input s e (negb isReleased)
  | None => s
  end.

Definition glfw_callback_button (aButton aAction : Z) (s : InputState) : InputState :=
  if (GLFW_MOUSE_BUTTON_RIGHT =? aButton) && (GLFW_PRESS =? aAction) then
    let flag := negb (input s mousing) in
    {| inputMap := <[index mousing := flag]> (inputMap s);
       shouldClose := shouldClose s;
       cursorMode := if flag then GLFW_CURSOR_DISABLED else GLFW_CURSOR_NORMAL |}
  else s.

(** A key or button event as GLFW delivers it. *)
Inductive InputEvent :=
| Key (aKey aAction : Z)
| Button (aButton aAction : Z).

Definition deliver (s : InputState) (ev : InputEvent) : InputState :=
  match ev with
  | Key k a => glfw_callback_key_press k a s
  | Button b a => glfw_callback_button b a s
  end.

(** [UserState userState{}]: nothing pressed; a new window is open with a
    normal cursor. *)
Definition initial : InputState :=
  {| inputMap := replicate max false; shouldClose := false;
     cursorMode := GLFW_CURSOR_NORMAL |}.

End Input.

(** ** More concrete drivers and devices *)
Module ScenarioExtra.

Import Window Scenario.

(** The driver of [p], except that the view of the image of index [k]
    cannot be created. *)
Definition views_failing (p : Platform) (k : nat) : Platform :=
  {| formats_count_res := formats_count_res p;
     formats_fill_res := formats_fill_res p;
     surface_formats := surface_formats p;
     modes_count_res := modes_count_res p;
     modes_fill_res := modes_fill_res p;
     surface_present_modes := surface_present_modes p;
     capabilities_res := capabilities_res p;
     surface_capabilities := surface_capabilities p;
     framebuffer_size := framebuffer_size p;
     vkCreateSwapchainKHR := vkCreateSwapchainKHR p;
     images_count_res := images_count_res p;
     images_count := images_count p;
     images_fill_res := images_fill_res p;
     images_data := images_data p;
     vkCreateImageView := fun i image f =>
       if Nat.eqb i k then (VK_ERROR_DEVICE_LOST, VK_NULL_HANDLE)
       else vkCreateImageView p i image f |}.

(** The driver of [p], except that the images of the chain cannot be
    counted. *)
Definition uncounted (p : Platform) : Platform :=
  {| formats_count_res := formats_count_res p;
     formats_fill_res := formats_fill_res p;
     surface_formats := surface_formats p;
     modes_count_res := modes_count_res p;
     modes_fill_res := modes_fill_res p;
     surface_present_modes := surface_present_modes p;
     capabilities_res := capabilities_res p;
     surface_capabilities := surface_capabilities p;
     framebuffer_size := framebuffer_size p;
     vkCreateSwapchainKHR := vkCreateSwapchainKHR p;
     images_count_res := VK_ERROR_DEVICE_LOST;
     images_count := images_count p;
     images_fill_res := images_fill_res p;
     images_data := images_data p;
     vkCreateImageView := vkCreateImageView p |}.

(** A physical device with the swapchain extension and two queue families,
    the first for graphics, compute and transfer, the second for transfer
    only; the support query gives the same answer for both. *)
Definition gpu (h : Handle) (version type : Z) (support : VkResult * Z)
    : Device.PhysicalDevice :=
  {| Device.dev_handle := h;
     Device.apiVersion := version;
     Device.deviceType := type;
     Device.device_extensions := ["VK_KHR_maintenance1"; "VK_KHR_swapchain"]%string;
     Device.queueFamilies := [7; 4];
     Device.surface_support := fun _ => support |}.

(** A device whose graphics family cannot present: the support query fails
    for family 0 and succeeds for family 1, which is for transfer only. *)
Definition split_gpu : Device.PhysicalDevice :=
  {| Device.dev_handle := 15;
     Device.apiVersion := Device.VK_MAKE_API_VERSION 0 1 3 0;
     Device.deviceType := Device.VK_PHYSICAL_DEVICE_TYPE_DISCRETE_GPU;
     Device.device_extensions := ["VK_KHR_swapchain"]%string;
     Device.queueFamilies := [7; 4];
     Device.surface_support := fun i =>
       match i with
       | O => (VK_ERROR_SURFACE_LOST_KHR, VK_TRUE)
       | _ => (VK_SUCCESS, VK_TRUE)
       end |}.

(** Vulkan 1.3.0 and 1.1.0. *)
Definition version13 : Z := Device.VK_MAKE_API_VERSION 0 1 3 0.
Definition version11 : Z := Device.VK_MAKE_API_VERSION 0 1 1 0.

(** An integrated GPU, a discrete GPU with Vulkan 1.1, and two discrete
    GPUs with Vulkan 1.3. *)
Definition machine : Device.Enumeration :=
  {| Device.devices_count_res := VK_SUCCESS;
     Device.devices_fill_res := VK_SUCCESS;
     Device.devices :=
       [ gpu 11 version13 Device.VK_PHYSICAL_DEVICE_TYPE_INTEGRATED_GPU (VK_SUCCESS, VK_TRUE);
         gpu 12 version11 Device.VK_PHYSICAL_DEVICE_TYPE_DISCRETE_GPU (VK_SUCCESS, VK_TRUE);
         gpu 13 version13 Device.VK_PHYSICAL_DEVICE_TYPE_DISCRETE_GPU (VK_SUCCESS, VK_TRUE);
         gpu 14 version13 Device.VK_PHYSICAL_DEVICE_TYPE_DISCRETE_GPU (VK_SUCCESS, VK_TRUE) ] |}.

End ScenarioExtra.

(** ** More properties of the main loop *)
Module PropsExtra.

Import Window Loop Props.

(** The objects that [main] builds from the swapchain match the window:
    the render pass has its format, the pipelines and the depth buffer its
    extent, and the framebuffers are those of its views. *)
Definition in_sync (ex : Exercise) (s : State) : Prop :=
  renderPass s = swapchainFormat (window s)
  /\ pipe s = swapchainExtent (window s)
  /\ framebuffers s = window_framebuffers ex s
  /\ (ex = Exercise4 ->
      alphaPipeline s = Some (swapchainExtent (window s))
      /\ depth_extent <$> depthBuffer s = Some (swapchainExtent (window s))).

(** The acquired index is within the vectors that the loop indexes with it
    at the program point. *)
Definition in_range (s : State) : Prop :=
  (pc s = PcWaitFence \/ pc s = PcResetFence ->
   (imageIndex s < length (cbfences s))%nat)
  /\ (pc s = PcRecord \/ pc s = PcSubmit \/ pc s = PcPresent ->
      (imageIndex s < length (cbfences s))%nat
      /\ (imageIndex s < length (cbuffers s))%nat
      /\ (imageIndex s < length (framebuffers s))%nat).

(** The calls of one frame on the image of index [i], up to its
    submission. *)
Definition frame_events (i : nat) : list Event :=
  [EvAcquire VK_SUCCESS i; EvWaitFence i; EvResetFence i; EvRecord i; EvSubmit i].

(** The log ends with the calls of the frame in progress. *)
Definition frame_in_progress (s : State) : Prop :=
  match pc s with
  | PcWaitFence => exists l, log s = l ++ take 1 (frame_events (imageIndex s))
  | PcResetFence => exists l, log s = l ++ take 2 (frame_events (imageIndex s))
  | PcRecord => exists l, log s = l ++ take 3 (frame_events (imageIndex s))
  | PcSubmit => exists l, log s = l ++ take 4 (frame_events (imageIndex s))
  | PcPresent => exists l, log s = l ++ frame_events (imageIndex s)
  | _ => True
  end.

(** Every present in the log comes right after the calls of a frame on the
    same image. *)
Definition presents_follow_frames (l : list Event) : Prop :=
  forall l1 l2 i res,
    l = l1 ++ EvPresent i res :: l2 -> exists l0, l1 = l0 ++ frame_events i.

(** The log grew by calls that are not part of a frame. *)
Definition quiet_log (s s' : State) : Prop :=
  exists evs, log s' = log s ++ evs /\ Forall (fun ev => is_frame_event ev = false) evs.

(** The window and what [main] built from it are the same. *)
Definition same_resources (s s' : State) : Prop :=
  window s' = window s /\ renderPass s' = renderPass s /\ pipe s' = pipe s
  /\ alphaPipeline s' = alphaPipeline s /\ depthBuffer s' = depthBuffer s
  /\ framebuffers s' = framebuffers s.

End PropsExtra.

(** ** Properties of the device selection, the memory types, the texture
    upload and the input callbacks *)
Module ToolProps.

Import Device Memory Image Input.

(** The family of index [i] has all the queue flags asked for and, when a
    surface is given, passes the test that [find_queue_family] makes on the
    answer of [vkGetPhysicalDeviceSurfaceSupportKHR]: the call returned
    [VK_SUCCESS], or it left [supported] at [VK_FALSE]. *)
Definition family_accepted (dev : PhysicalDevice) (aQueueFlags : Z) (aSurface : Handle)
    (i : nat) : Prop :=
  exists queueFlags,
    queueFamilies dev !! i = Some queueFlags
    /\ Z.land aQueueFlags queueFlags = aQueueFlags
    /\ (aSurface = VK_NULL_HANDLE
        \/ fst (surface_support dev i) = VK_SUCCESS
        \/ snd (surface_support dev i) = VK_FALSE).

(** A device that [score_device] does not discard: Vulkan 1.2 or later, the
    swapchain extension, a family accepted for the surface and a graphics
    family. *)
Definition eligible (dev : PhysicalDevice) (aSurface : Handle) : Prop :=
  (1 < VK_API_VERSION_MAJOR (apiVersion dev)
   \/ (VK_API_VERSION_MAJOR (apiVersion dev) = 1
       /\ 2 <= VK_API_VERSION_MINOR (apiVersion dev)))
  /\ In VK_KHR_SWAPCHAIN_EXTENSION_NAME (device_extensions dev)
  /\ (exists i, family_accepted dev 0 aSurface i)
  /\ (exists i, family_accepted dev VK_QUEUE_GRAPHICS_BIT VK_NULL_HANDLE i).

(** The memory type of index [i] has all the required properties and is
    one of the allowed types. *)
Definition memory_type_suitable (memoryTypes : list Z) (aMemoryTypeBits aProps : Z)
    (i : nat) : Prop :=
  exists propertyFlags,
    memoryTypes !! i = Some propertyFlags
    /\ Z.land aProps propertyFlags = aProps
    /\ Z.testbit aMemoryTypeBits (Z.of_nat i) = true.

(** The extent of a mip level along one axis, as Vulkan defines it. *)
Definition mip_extent (base : Z) (level : nat) : Z :=
  Z.max 1 (Z.shiftr base (Z.of_nat level)).

Definition is_blit (c : Cmd) : bool :=
  match c with
  | CmdBlitImage _ _ _ _ _ _ _ _ => true
  | _ => false
  end.

(** The blit that fills the mip level after [level] from it. *)
Definition blit_from (baseWidth baseHeight : Z) (level : nat) : Cmd :=
  CmdBlitImage VK_IMAGE_LAYOUT_TRANSFER_SRC_OPTIMAL level
    (mip_extent baseWidth level) (mip_extent baseHeight level)
    VK_IMAGE_LAYOUT_TRANSFER_DST_OPTIMAL (S level)
    (mip_extent baseWidth (S level)) (mip_extent baseHeight (S level)).

(** *** The layouts of the mip levels while commands are recorded *)

Definition layout_eqb (a b : VkImageLayout) : bool :=
  match a, b with
  | VK_IMAGE_LAYOUT_UNDEFINED, VK_IMAGE_LAYOUT_UNDEFINED
  | VK_IMAGE_LAYOUT_TRANSFER_DST_OPTIMAL, VK_IMAGE_LAYOUT_TRANSFER_DST_OPTIMAL
  | VK_IMAGE_LAYOUT_TRANSFER_SRC_OPTIMAL, VK_IMAGE_LAYOUT_TRANSFER_SRC_OPTIMAL
  | VK_IMAGE_LAYOUT_SHADER_READ_ONLY_OPTIMAL, VK_IMAGE_LAYOUT_SHADER_READ_ONLY_OPTIMAL => true
  | _, _ => false
  end.

(** The layout of each mip level. *)
Definition Layouts := nat -> VkImageLayout.

Definition levels_in (st : Layouts) (l : VkImageLayout) (base count : nat) : bool :=
  forallb (fun j => layout_eqb (st j) l) (seq base count).

(** The rules of Vulkan for the three commands on an image of [levels] mip
    levels: a barrier names levels of the image, and its old layout is the
    layout of each of them, or undefined; a copy writes a level that is in
    the transfer destination layout; a blit reads a level in the transfer
    source layout and writes one in the transfer destination layout.  The
    result is the layouts after the command, or nothing when a rule is
    broken. *)
Definition track (levels : nat) (st : Layouts) (c : Cmd) : option Layouts :=
  match c with
  | CmdImageBarrier _ _ old new _ _ base count =>
      if Nat.leb (base + count) levels
         && (layout_eqb old VK_IMAGE_LAYOUT_UNDEFINED || levels_in st old base count)
      then Some (fun j => if Nat.leb base j && Nat.ltb j (base + count) then new else st j)
      else None
  | CmdCopyBufferToImage l level _ _ =>
      if Nat.ltb level levels
         && layout_eqb l VK_IMAGE_LAYOUT_TRANSFER_DST_OPTIMAL
         && layout_eqb (st level) l
      then Some st else None
  | CmdBlitImage sl s _ _ dl d _ _ =>
      if Nat.ltb s levels && Nat.ltb d levels
         && layout_eqb sl VK_IMAGE_LAYOUT_TRANSFER_SRC_OPTIMAL
         && layout_eqb dl VK_IMAGE_LAYOUT_TRANSFER_DST_OPTIMAL
         && layout_eqb (st s) sl && layout_eqb (st d) dl
      then Some st else None
  end.

Fixpoint track_all (levels : nat) (st : Layouts) (cmds : list Cmd) : option Layouts :=
  match cmds with
  | [] => Some st
  | c :: rest =>
      match track levels st c with
      | Some st' => track_all levels st' rest
      | None => None
      end
  end.

(** The levels below [m] have been written and are sources of transfers;
    the others still wait for their blit. *)
Definition filled_below (levels m : nat) (st : Layouts) : Prop :=
  (forall j, (j < m)%nat -> st j = VK_IMAGE_LAYOUT_TRANSFER_SRC_OPTIMAL)
  /\ (forall j, (m <= j < levels)%nat -> st j = VK_IMAGE_LAYOUT_TRANSFER_DST_OPTIMAL).

(** *** Input events *)

(** The state after the events that GLFW delivered, oldest first. *)
Definition deliver_all (evs : list InputEvent) : InputState :=
  fold_left deliver evs initial.



Definition is_toggle (ev : InputEvent) : bool :=
  match ev with
  | Button b a => (GLFW_MOUSE_BUTTON_RIGHT =? b) && (GLFW_PRESS =? a)
  | Key _ _ => false
  end.

End ToolProps.

(** ** Theorems about [labutils/vulkan_window.cpp] *)
Module WindowSpec.

Import Window Scenario Props.

Lemma check_success (op : string) : check op VK_SUCCESS = Ok tt.
Proof. reflexivity. Qed.

Lemma is_rgba_srgb_true (f : VkSurfaceFormatKHR) :
  is_rgba_srgb f = true <->
  format f = VK_FORMAT_R8G8B8A8_SRGB /\ colorSpace f = VK_COLOR_SPACE_SRGB_NONLINEAR_KHR.
Proof.
  unfold is_rgba_srgb. rewrite andb_true_iff, !Z.eqb_eq. tauto.
Qed.

Lemma is_bgra_srgb_true (f : VkSurfaceFormatKHR) :
  is_bgra_srgb f = true <->
  format f = VK_FORMAT_B8G8R8A8_SRGB /\ colorSpace f = VK_COLOR_SPACE_SRGB_NONLINEAR_KHR.
Proof.
  unfold is_bgra_srgb. rewrite andb_true_iff, !Z.eqb_eq. tauto.
Qed.

Lemma preferred_tests (f : VkSurfaceFormatKHR) :
  preferred f <-> is_rgba_srgb f = true \/ is_bgra_srgb f = true.
Proof.
  rewrite is_rgba_srgb_true, is_bgra_srgb_true. unfold preferred. tauto.
Qed.

(** The loop stops at the first preferred format; it keeps its initial
    value when the list has none. *)
Lemma select_format_loop_found (formats : list VkSurfaceFormatKHR) (d : VkSurfaceFormatKHR) :
  (exists g, g ∈ formats /\ preferred g) ->
  select_format_loop formats d ∈ formats /\ preferred (select_format_loop formats d).
Proof.
  induction formats as [|c rest IH]; intros [g [Hin Hg]].
  - inversion Hin.
  - simpl. destruct (is_rgba_srgb c) eqn:Ha.
    + split; [left | apply preferred_tests; auto].
    + destruct (is_bgra_srgb c) eqn:Hb.
      * split; [left | apply preferred_tests; auto].
      * apply elem_of_cons in Hin as [-> | Hin].
        -- apply preferred_tests in Hg. destruct Hg; congruence.
        -- destruct IH as [IH1 IH2]; [eauto |]. split; [right |]; assumption.
Qed.

Lemma select_format_loop_default (formats : list VkSurfaceFormatKHR) (d : VkSurfaceFormatKHR) :
  (forall g, g ∈ formats -> ~ preferred g) -> select_format_loop formats d = d.
Proof.
  induction formats as [|c rest IH]; intros H; simpl; [reflexivity |].
  assert (Hc : ~ preferred c) by (apply H; left).
  rewrite preferred_tests in Hc.
  destruct (is_rgba_srgb c); [tauto |]. destruct (is_bgra_srgb c); [tauto |].
  apply IH. intros g Hg. apply H. right. exact Hg.
Qed.

Lemma classic_preferred (formats : list VkSurfaceFormatKHR) :
  (exists g, g ∈ formats /\ preferred g) \/ (forall g, g ∈ formats -> ~ preferred g).
Proof.
  induction formats as [|c rest [IH | IH]].
  - right. intros g Hg. inversion Hg.
  - left. destruct IH as (g & Hg & Hp). exists g. split; [right |]; assumption.
  - destruct (is_rgba_srgb c || is_bgra_srgb c) eqn:E.
    + left. exists c. split; [left |]. apply preferred_tests. apply orb_true_iff. exact E.
    + right. intros g Hg. apply elem_of_cons in Hg as [-> | Hg]; [| auto].
      rewrite preferred_tests. apply orb_false_iff in E. destruct E. intros []; congruence.
Qed.

(** When the driver answers and accepts, [create_swapchain] returns: the
    handle the driver made, the selected format and the resolved extent. *)
Lemma swapchain_info_ok (p : Platform) (q : list Z) (old : Handle) (first : VkSurfaceFormatKHR)
    (rest : list VkSurfaceFormatKHR) :
  queries_succeed p -> surface_formats p = first :: rest ->
  exists info,
    swapchain_info p q old = Ok info
    /\ ci_minImageCount info = select_image_count (surface_capabilities p)
    /\ ci_imageFormat info = format (select_format_loop (first :: rest) first)
    /\ ci_imageColorSpace info = colorSpace (select_format_loop (first :: rest) first)
    /\ ci_imageExtent info = resolve_extent (surface_capabilities p) (framebuffer_size p)
    /\ ci_oldSwapchain info = old.
Proof.
  intros (H1 & H2 & H3 & H4 & H5) Hf.
  unfold swapchain_info, get_surface_formats, get_present_modes.
  rewrite H1, H2, H3, H4, H5, Hf. cbn -[select_format_loop select_image_count resolve_extent].
  eexists. split; [reflexivity |]. cbn -[select_format_loop select_image_count resolve_extent].
  repeat split; reflexivity.
Qed.

Lemma create_swapchain_ok (p : Platform) (q : list Z) (old : Handle) (first : VkSurfaceFormatKHR)
    (rest : list VkSurfaceFormatKHR) :
  queries_succeed p -> accepting p -> surface_formats p = first :: rest ->
  exists h,
    create_swapchain p q old =
    Ok (h, format (select_format_loop (first :: rest) first),
        resolve_extent (surface_capabilities p) (framebuffer_size p)).
Proof.
  intros Hq Ha Hf.
  destruct (swapchain_info_ok p q old first rest Hq Hf) as (info & Hi & _ & Hfmt & _ & Hext & _).
  unfold create_swapchain. rewrite Hi. cbn [bind].
  specialize (Ha info). destruct (vkCreateSwapchainKHR p info) as [res h]. simpl in Ha. subst res.
  rewrite check_success. cbn [bind]. exists h. rewrite Hfmt, Hext. reflexivity.
Qed.

(** What [create_swapchain] returns comes from the create info it built. *)
Lemma create_swapchain_inv (p : Platform) (q : list Z) (old h : Handle) (f : VkFormat)
    (e : VkExtent2D) :
  create_swapchain p q old = Ok (h, f, e) ->
  exists first rest,
    surface_formats p = first :: rest
    /\ f = format (select_format_loop (first :: rest) first)
    /\ e = resolve_extent (surface_capabilities p) (framebuffer_size p).
Proof.
  unfold create_swapchain, swapchain_info, get_surface_formats, get_present_modes, check.
  destruct (formats_count_res p =? VK_SUCCESS); [| discriminate].
  destruct (formats_fill_res p =? VK_SUCCESS); [| discriminate].
  destruct (modes_count_res p =? VK_SUCCESS); [| discriminate].
  destruct (modes_fill_res p =? VK_SUCCESS); [| discriminate].
  cbn [bind]. destruct (surface_formats p) as [|first rest]; [discriminate |].
  cbn [select_format bind].
  destruct (capabilities_res p =? VK_SUCCESS); [| discriminate].
  cbn [bind]. destruct (vkCreateSwapchainKHR p _) as [res h'].
  destruct (res =? VK_SUCCESS); [| discriminate].
  cbn [bind ci_imageFormat ci_imageExtent]. intros [= <- <- <-]. eauto.
Qed.

Lemma clamp_within (v lo hi : Z) : lo <= hi -> lo <= clamp v lo hi <= hi.
Proof.
  intros H. unfold clamp.
  destruct (v <? lo) eqn:E1; [lia |]. destruct (hi <? v) eqn:E2; lia.
Qed.

Lemma clamp_id (v lo hi : Z) : lo <= v <= hi -> clamp v lo hi = v.
Proof.
  intros H. unfold clamp.
  destruct (v <? lo) eqn:E1; [lia |]. destruct (hi <? v) eqn:E2; lia.
Qed.

Lemma resolve_extent_undefined (c : VkSurfaceCapabilitiesKHR) (fb : Z * Z) :
  undefined_extent (currentExtent c) = true -> resolve_extent c fb = clamped_drawable c fb.
Proof.
  intros H. unfold resolve_extent, clamped_drawable. rewrite H. destruct fb; reflexivity.
Qed.

Lemma resolve_extent_defined (c : VkSurfaceCapabilitiesKHR) (fb : Z * Z) :
  undefined_extent (currentExtent c) = false -> resolve_extent c fb = currentExtent c.
Proof.
  intros H. unfold resolve_extent. rewrite H. reflexivity.
Qed.

(** A successful [create_swapchain_image_views] has passed its closing
    assert; the loop makes a view per image. *)
Lemma create_views_loop_length (p : Platform) (f : VkFormat) (images : list Handle) :
  forall (i : nat) (views views' : list Handle),
    create_views_loop p f i images views = (views', Ok tt) ->
    length views' = (length views + length images)%nat.
Proof.
  induction images as [|image rest IH]; intros i views views' H; cbn in H.
  - injection H as <-. cbn. lia.
  - destruct (vkCreateImageView p i image f) as [res v]. unfold check in H.
    destruct (res =? VK_SUCCESS); [| discriminate].
    apply IH in H. rewrite H, length_app. cbn. lia.
Qed.

Lemma create_swapchain_image_views_ok (p : Platform) (f : VkFormat)
    (images views views' : list Handle) :
  create_swapchain_image_views p f images views = (views', Ok tt) ->
  length views' = length images.
Proof.
  unfold create_swapchain_image_views.
  destruct (assert _ _) as [[] | e | x]; try (intros [= _ ?]; discriminate).
  destruct (create_views_loop p f 0 images views) as [vs [[] | e | x]]; cbn [bind];
    try (intros [= _ ?]; discriminate).
  unfold assert. destruct (Nat.eqb _ _) eqn:E; [| intros [= _ ?]; discriminate].
  intros [= <-]. apply Nat.eqb_eq in E. exact E.
Qed.

Lemma fetch_images_and_views_ok (p : Platform) (w w' : VulkanWindow) :
  fetch_images_and_views p w = (w', Ok tt) ->
  length (swapViews w') = length (swapImages w')
  /\ swapchain w' = swapchain w /\ swapchainFormat w' = swapchainFormat w
  /\ swapchainExtent w' = swapchainExtent w
  /\ graphicsFamilyIndex w' = graphicsFamilyIndex w
  /\ presentFamilyIndex w' = presentFamilyIndex w.
Proof.
  unfold fetch_images_and_views.
  destruct (get_swapchain_images p (swapImages w)) as [images | e | x];
    try (intros [= _ ?]; discriminate).
  destruct (create_swapchain_image_views p _ _ _) as [views r] eqn:Hv.
  intros [= <- ->]. apply create_swapchain_image_views_ok in Hv. cbn in *.
  repeat split. exact Hv.
Qed.

Lemma recreate_swapchain_ok (p : Platform) (w w' : VulkanWindow) (ch : SwapChanges) :
  recreate_swapchain p w = (w', Ok ch) ->
  length (swapViews w') = length (swapImages w')
  /\ changedFormat ch = negb (swapchainFormat w =? swapchainFormat w')
  /\ changedSize ch = negb (extent_eqb (swapchainExtent w) (swapchainExtent w'))
  /\ graphicsFamilyIndex w' = graphicsFamilyIndex w
  /\ presentFamilyIndex w' = presentFamilyIndex w
  /\ create_swapchain p (queue_families w) (swapchain w)
     = Ok (swapchain w', swapchainFormat w', swapchainExtent w').
Proof.
  unfold recreate_swapchain.
  change (queue_families (set_images (set_views w []) [])) with (queue_families w).
  destruct (create_swapchain p (queue_families w) (swapchain w)) as [[[h f] e] | err | x];
    try (intros [= _ ?]; discriminate).
  destruct (fetch_images_and_views p _) as [w1 [[] | err | x]] eqn:Hf;
    try (intros [= _ ?]; discriminate).
  apply fetch_images_and_views_ok in Hf as (H1 & H2 & H3 & H4 & H5 & H6).
  intros [= <- <-]. cbn in H2, H3, H4, H5, H6. cbn [changedFormat changedSize].
  rewrite H2, H3, H4. split; [exact H1 |]. split; [reflexivity |]. split.
  { unfold extent_eqb. rewrite negb_andb. reflexivity. }
  split; [exact H5 |]. split; [exact H6 | reflexivity].
Qed.

(** C9. For every non-empty list of surface formats, [create_swapchain]
    selects a format of the list; the format is 8-bit sRGB with four channels
    in RGBA or BGRA order and the sRGB non-linear colour space when the list
    has such a format, and it is the first format of the list otherwise.  The
    selected format and colour space are in the create info given to the
    driver, and the format is returned. *)
Theorem create_swapchain_selects_preferred_format (p : Platform) (q : list Z) (old : Handle) :
  surface_formats p <> [] -> queries_succeed p -> accepting p ->
  exists f h e info,
    select_format (surface_formats p) = Ok f
    /\ swapchain_info p q old = Ok info
    /\ ci_imageFormat info = format f /\ ci_imageColorSpace info = colorSpace f
    /\ create_swapchain p q old = Ok (h, format f, e)
    /\ f ∈ surface_formats p
    /\ ((exists g, g ∈ surface_formats p /\ preferred g) -> preferred f)
    /\ ((forall g, g ∈ surface_formats p -> ~ preferred g) -> head (surface_formats p) = Some f).
Proof.
  intros Hne Hq Ha. destruct (surface_formats p) as [|first rest] eqn:Hf; [congruence |].
  destruct (swapchain_info_ok p q old first rest Hq Hf) as (info & Hi & _ & Hfmt & Hcs & _).
  destruct (create_swapchain_ok p q old first rest Hq Ha Hf) as (h & Hc).
  exists (select_format_loop (first :: rest) first), h,
    (resolve_extent (surface_capabilities p) (framebuffer_size p)), info.
  split; [reflexivity |]. split; [exact Hi |]. split; [exact Hfmt |].
  split; [exact Hcs |]. split; [exact Hc |]. split; [| split].
  - destruct (classic_preferred (first :: rest)) as [Hex | Hno].
    + apply select_format_loop_found; assumption.
    + rewrite select_format_loop_default by assumption. left.
  - intros Hex. apply select_format_loop_found; assumption.
  - intros Hno. rewrite select_format_loop_default by assumption. reflexivity.
Qed.

Lemma create_swapchain_selects_preferred_format_witness :
  exists f, select_format (surface_formats surface_mixed) = Ok f /\ preferred f.
Proof.
  destruct (create_swapchain_selects_preferred_format surface_mixed [] 0)
    as (f & h & e & info & Hs & _ & _ & _ & _ & _ & Hp & _).
  - discriminate.
  - repeat split.
  - intros info. reflexivity.
  - exists f. split; [exact Hs |]. apply Hp. exists bgra_srgb. split.
    + right. left.
    + split; [right |]; reflexivity.
Defined.

(** C8, as stated: with a surface that allows exactly two images
    ([minImageCount = maxImageCount = 2]) the requested count is 2, below
    [minImageCount + 1]. *)
Lemma image_count_exactly_two :
  exists info,
    swapchain_info surface_two [] 0 = Ok info
    /\ ci_minImageCount info = 2
    /\ ~ count_bounds (surface_capabilities surface_two) (ci_minImageCount info).
Proof.
  eexists. split; [reflexivity |]. split; [reflexivity |].
  intros (_ & H & _). change (2 < 2 + 1 -> 2 + 1 <= 2) in H. lia.
Qed.

(** C8, amended.  The image count that [create_swapchain] requests is the
    larger of 2 and [minImageCount + 1] (in 32-bit arithmetic), unless the
    surface reports a nonzero [maxImageCount] below that, and then it is
    [maxImageCount].  So it never exceeds a nonzero [maxImageCount]; it is at
    least 2 and at least [minImageCount + 1] when the cap is zero or not below
    them; and it is at least [minImageCount] when the cap is zero or not below
    [minImageCount]. *)
Theorem create_swapchain_image_count (p : Platform) (q : list Z) (old : Handle) :
  surface_formats p <> [] -> queries_succeed p ->
  is_u32 (minImageCount (surface_capabilities p)) ->
  is_u32 (maxImageCount (surface_capabilities p)) ->
  let c := surface_capabilities p in
  let wanted := Z.max 2 (to_u32 (minImageCount c + 1)) in
  exists info,
    swapchain_info p q old = Ok info
    /\ (maxImageCount c = 0 -> ci_minImageCount info = wanted)
    /\ (maxImageCount c <> 0 -> ci_minImageCount info = Z.min wanted (maxImageCount c))
    /\ (maxImageCount c <> 0 -> ci_minImageCount info <= maxImageCount c)
    /\ (minImageCount c < UINT32_MAX -> maxImageCount c = 0 \/ wanted <= maxImageCount c ->
        2 <= ci_minImageCount info /\ minImageCount c + 1 <= ci_minImageCount info)
    /\ (minImageCount c < UINT32_MAX ->
        maxImageCount c = 0 \/ minImageCount c <= maxImageCount c ->
        minImageCount c <= ci_minImageCount info).
Proof.
  intros Hne Hq Hmin Hmax c wanted.
  destruct (surface_formats p) as [|first rest] eqn:Hf; [congruence |].
  destruct (swapchain_info_ok p q old first rest Hq Hf) as (info & Hi & Hn & _).
  exists info. split; [exact Hi |]. rewrite Hn. fold c.
  unfold is_u32, UINT32_MAX in *. fold c in Hmin, Hmax.
  assert (Hw : minImageCount c < 4294967295 -> to_u32 (minImageCount c + 1) = minImageCount c + 1).
  { intros H. unfold to_u32. apply Z.mod_small. lia. }
  assert (Hb : 0 <= to_u32 (minImageCount c + 1)).
  { unfold to_u32. apply Z.mod_pos_bound. lia. }
  subst wanted. unfold select_image_count.
  set (x := to_u32 (minImageCount c + 1)) in *.
  destruct (Z.ltb_spec 2 x);
  repeat match goal with
         | |- context [?a <? ?b] => destruct (Z.ltb_spec a b); cbn [andb]
         end;
    repeat split; intros; lia.
Qed.

Lemma create_swapchain_image_count_witness :
  exists info, swapchain_info surface_two [] 0 = Ok info /\ ci_minImageCount info <= 2.
Proof.
  destruct (create_swapchain_image_count surface_two [] 0)
    as (info & Hi & _ & _ & Hcap & _).
  - discriminate.
  - repeat split.
  - cbn. unfold is_u32, UINT32_MAX. lia.
  - cbn. unfold is_u32, UINT32_MAX. lia.
  - exists info. split; [exact Hi |]. apply Hcap. discriminate.
Defined.

(** C3, as stated: a surface reports the current extent [(0xFFFFFFFF, 500)],
    which is not the undefined extent [(0xFFFFFFFF, 0xFFFFFFFF)], with a
    drawable area of 800 x 600 and extents from 1 x 1 to 4096 x 4096.
    [create_swapchain] does not return the reported extent: it returns
    800 x 600, the clamped size of the drawable area. *)
Lemma width_sentinel_not_verbatim :
  currentExtent (surface_capabilities surfaceW)
  = {| width := UINT32_MAX; height := 500 |}
  /\ currentExtent (surface_capabilities surfaceW)
     <> {| width := UINT32_MAX; height := UINT32_MAX |}
  /\ framebuffer_size surfaceW = (800, 600)
  /\ create_swapchain surfaceW [] 0
     = Ok (7, VK_FORMAT_B8G8R8A8_SRGB, {| width := 800; height := 600 |})
  /\ {| width := 800; height := 600 |} <> currentExtent (surface_capabilities surfaceW).
Proof.
  split; [reflexivity |]. split; [discriminate |]. split; [reflexivity |].
  split; [reflexivity | discriminate].
Qed.

Lemma clamp_max_min (v lo hi : Z) : lo <= hi -> clamp v lo hi = Z.max lo (Z.min v hi).
Proof.
  intros H. unfold clamp.
  destruct (v <? lo) eqn:E1; [lia |]. destruct (hi <? v) eqn:E2; lia.
Qed.

(** C3, amended.  For every surface capability report: when the width of
    the reported current extent is [0xFFFFFFFF], as in the undefined extent
    [(0xFFFFFFFF, 0xFFFFFFFF)] and whatever the reported height,
    [create_swapchain] returns the size of the drawable area clamped component
    by component to [[minImageExtent, maxImageExtent]], an extent within that
    range; when the width is any other value, it returns the reported current
    extent as it is.  With the undefined extent, a drawable area of 800 x 600
    and extents from 1 x 1 to 4096 x 4096 it returns 800 x 600. *)
Theorem create_swapchain_resolves_extent (p : Platform) (q : list Z) (old : Handle) :
  surface_formats p <> [] -> queries_succeed p -> accepting p ->
  let c := surface_capabilities p in
  exists h f e,
    create_swapchain p q old = Ok (h, f, e)
    /\ (width (currentExtent c) = UINT32_MAX ->
        e = clamped_drawable c (framebuffer_size p))
    /\ (currentExtent c = {| width := UINT32_MAX; height := UINT32_MAX |} ->
        e = clamped_drawable c (framebuffer_size p))
    /\ (width (currentExtent c) <> UINT32_MAX -> e = currentExtent c)
    /\ (width (currentExtent c) = UINT32_MAX ->
        width (minImageExtent c) <= width (maxImageExtent c) ->
        height (minImageExtent c) <= height (maxImageExtent c) ->
        within e (minImageExtent c) (maxImageExtent c)
        /\ width e = Z.max (width (minImageExtent c))
                       (Z.min (to_u32 (fst (framebuffer_size p))) (width (maxImageExtent c)))
        /\ height e = Z.max (height (minImageExtent c))
                        (Z.min (to_u32 (snd (framebuffer_size p)))
                           (height (maxImageExtent c))))
    /\ (currentExtent c = {| width := UINT32_MAX; height := UINT32_MAX |} ->
        framebuffer_size p = (800, 600) ->
        minImageExtent c = {| width := 1; height := 1 |} ->
        maxImageExtent c = {| width := 4096; height := 4096 |} ->
        e = {| width := 800; height := 600 |}).
Proof.
  intros Hne Hq Ha c. destruct (surface_formats p) as [|first rest] eqn:Hf; [congruence |].
  destruct (create_swapchain_ok p q old first rest Hq Ha Hf) as (h & Hc).
  do 3 eexists. split; [exact Hc |]. fold c.
  assert (U : width (currentExtent c) = UINT32_MAX ->
              undefined_extent (currentExtent c) = true).
  { intros E. unfold undefined_extent. rewrite E. reflexivity. }
  assert (D : width (currentExtent c) <> UINT32_MAX ->
              undefined_extent (currentExtent c) = false).
  { intros E. unfold undefined_extent. apply Z.eqb_neq. congruence. }
  split; [intros E; apply resolve_extent_undefined, U, E |].
  split; [intros Hcur; apply resolve_extent_undefined; rewrite Hcur; reflexivity |].
  split; [intros E; apply resolve_extent_defined, D, E |]. split.
  - intros Hu Hw Hh. rewrite resolve_extent_undefined by (apply U, Hu).
    unfold within, clamped_drawable. cbn [width height].
    split; [split; apply clamp_within; assumption |].
    split; apply clamp_max_min; assumption.
  - intros Hcur Hfb Hlo Hhi. rewrite resolve_extent_undefined by (rewrite Hcur; reflexivity).
    unfold clamped_drawable. rewrite Hfb, Hlo, Hhi. reflexivity.
Qed.

Lemma create_swapchain_resolves_extent_witness :
  (exists h f, create_swapchain surfaceA [] 0 = Ok (h, f, {| width := 800; height := 600 |}))
  /\ (exists h f, create_swapchain surfaceW [] 0
                  = Ok (h, f, {| width := 800; height := 600 |})).
Proof.
  split.
  - destruct (create_swapchain_resolves_extent surfaceA [] 0)
      as (h & f & e & Hc & _ & _ & _ & _ & HA).
    + discriminate.
    + repeat split.
    + intros info. reflexivity.
    + exists h, f. rewrite <- (HA eq_refl eq_refl eq_refl eq_refl). exact Hc.
  - destruct (create_swapchain_resolves_extent surfaceW [] 0)
      as (h & f & e & Hc & HW & _).
    + discriminate.
    + repeat split.
    + intros info. reflexivity.
    + exists h, f. rewrite Hc, (HW eq_refl). reflexivity.
Defined.

(** C10. The test for the undefined extent looks at the width alone: when
    the width of the reported current extent is not [0xFFFFFFFF],
    [create_swapchain] returns the reported extent as it is, also when its
    height is [0xFFFFFFFF] and whatever the extent range of the surface. *)
Theorem create_swapchain_sentinel_is_width (p : Platform) (q : list Z) (old : Handle) :
  surface_formats p <> [] -> queries_succeed p -> accepting p ->
  width (currentExtent (surface_capabilities p)) <> UINT32_MAX ->
  undefined_extent (currentExtent (surface_capabilities p)) = false
  /\ exists h f e,
       create_swapchain p q old = Ok (h, f, e)
       /\ e = currentExtent (surface_capabilities p)
       /\ (height (currentExtent (surface_capabilities p)) = UINT32_MAX ->
           height e = UINT32_MAX).
Proof.
  intros Hne Hq Ha Hw. destruct (surface_formats p) as [|first rest] eqn:Hf; [congruence |].
  assert (Hu : undefined_extent (currentExtent (surface_capabilities p)) = false).
  { unfold undefined_extent. apply Z.eqb_neq. congruence. }
  split; [exact Hu |].
  destruct (create_swapchain_ok p q old first rest Hq Ha Hf) as (h & Hc).
  rewrite (resolve_extent_defined _ _ Hu) in Hc.
  do 3 eexists. split; [exact Hc |]. split; [reflexivity |]. intros H. exact H.
Qed.

Lemma create_swapchain_sentinel_is_width_witness :
  (exists h f, create_swapchain surfaceH [] 0 = Ok (h, f, {| width := 640; height := UINT32_MAX |}))
  /\ ~ within {| width := 640; height := UINT32_MAX |}
         (minImageExtent (surface_capabilities surfaceH))
         (maxImageExtent (surface_capabilities surfaceH)).
Proof.
  split.
  - destruct (create_swapchain_sentinel_is_width surfaceH [] 0)
      as (_ & h & f & e & Hc & He & _).
    + discriminate.
    + repeat split.
    + intros info. reflexivity.
    + cbn. unfold UINT32_MAX. lia.
    + exists h, f. rewrite He in Hc. exact Hc.
  - unfold within. cbn. unfold UINT32_MAX. lia.
Defined.

(** C2, as stated: a recreation that fails in [create_swapchain] leaves the
    handle of the chain as it was, but not the window: its views were
    destroyed and its lists of views and images emptied before the attempt. *)
Lemma recreate_failure_empties_views :
  let p := refusing (surface720 8 2) VK_ERROR_SURFACE_LOST_KHR in
  is_throw (create_swapchain p (queue_families window2) (swapchain window2)) = true
  /\ is_throw (snd (recreate_swapchain p window2)) = true
  /\ swapchain (fst (recreate_swapchain p window2)) = swapchain window2
  /\ swapViews window2 = [200; 201]
  /\ swapViews (fst (recreate_swapchain p window2)) = []
  /\ fst (recreate_swapchain p window2) <> window2.
Proof.
  cbv zeta. repeat split; try reflexivity. vm_compute. discriminate.
Qed.

(** C2, amended.  When [create_swapchain] throws, [recreate_swapchain]
    throws the same error and the window keeps the handle of its chain, its
    format, its extent and its queue families; its lists of views and images
    are empty.  A second call then does what the same call on the window
    before the failure would have done. *)
Theorem recreate_failure_restores_handle (p : Platform) (w : VulkanWindow) (e : Error) :
  create_swapchain p (queue_families w) (swapchain w) = Throw e ->
  let w' := fst (recreate_swapchain p w) in
  snd (recreate_swapchain p w) = Throw e
  /\ swapchain w' = swapchain w
  /\ swapchainFormat w' = swapchainFormat w
  /\ swapchainExtent w' = swapchainExtent w
  /\ graphicsFamilyIndex w' = graphicsFamilyIndex w
  /\ presentFamilyIndex w' = presentFamilyIndex w
  /\ swapViews w' = [] /\ swapImages w' = []
  /\ forall p2, recreate_swapchain p2 w' = recreate_swapchain p2 w.
Proof.
  intros H w'. subst w'. unfold recreate_swapchain.
  change (queue_families (set_images (set_views w []) [])) with (queue_families w).
  rewrite H. cbn. repeat split.
Qed.

Lemma recreate_failure_restores_handle_witness :
  swapchain (fst (recreate_swapchain (refusing (surface720 8 2) VK_ERROR_SURFACE_LOST_KHR)
                    window2)) = 7.
Proof.
  exact (proj1 (proj2 (recreate_failure_restores_handle
    (refusing (surface720 8 2) VK_ERROR_SURFACE_LOST_KHR) window2
    (MkError "vkCreateSwapchainKHR" VK_ERROR_SURFACE_LOST_KHR) eq_refl))).
Defined.

End WindowSpec.

(** ** Theorems about the main loop *)
Module LoopSpec.

Import Window Loop Scenario Props.
Local Open Scope loop_scope.

(** *** Running code in [M] *)

Lemma mbind_ok {A B} (m : M A) (k : A -> M B) (s s' : State) (b : B) :
  mbind m k s = (s', Ok b) -> exists s1 a, m s = (s1, Ok a) /\ k a s1 = (s', Ok b).
Proof.
  unfold mbind. destruct (m s) as [s1 [a | e | x]]; intros H; try discriminate. eauto.
Qed.

Lemma when_ok (b : bool) (m : M unit) (s s' : State) :
  when b m s = (s', Ok tt) -> if b then m s = (s', Ok tt) else s' = s.
Proof. destruct b; cbn; [auto | intros [= <-]; reflexivity]. Qed.

Lemma assign_renderPass_run (d : Driver) (s : State) :
  assign_renderPass d s =
  if succeeded (render_pass_res d)
  then (upd_renderPass (emit s (EvCreateRenderPass (swapchainFormat (window s))))
          (swapchainFormat (window s)), Ok tt)
  else (s, Throw (MkError "vkCreateRenderPass" (render_pass_res d))).
Proof.
  unfold assign_renderPass, create_render_pass, mbind, get, lift, modify, ret, check, succeeded.
  destruct (_ =? _); reflexivity.
Qed.

Lemma assign_pipe_run (d : Driver) (s : State) :
  assign_pipe d s =
  if succeeded (pipeline_res d)
  then (upd_pipe (emit s (EvCreatePipeline (swapchainExtent (window s))))
          (swapchainExtent (window s)), Ok tt)
  else (s, Throw (MkError "vkCreateGraphicsPipelines" (pipeline_res d))).
Proof.
  unfold assign_pipe, create_pipeline, mbind, get, lift, modify, ret, check, succeeded.
  destruct (_ =? _); reflexivity.
Qed.

Lemma assign_alphaPipeline_run (d : Driver) (s : State) :
  assign_alphaPipeline d s =
  if succeeded (alpha_pipeline_res d)
  then (upd_alphaPipeline (emit s (EvCreateAlphaPipeline (swapchainExtent (window s))))
          (Some (swapchainExtent (window s))), Ok tt)
  else (s, Throw (MkError "vkCreateGraphicsPipelines" (alpha_pipeline_res d))).
Proof.
  unfold assign_alphaPipeline, create_alpha_pipeline, mbind, get, lift, modify, ret, check,
    succeeded.
  destruct (_ =? _); reflexivity.
Qed.

Lemma assign_depthBuffer_run (d : Driver) (s : State) :
  assign_depthBuffer d s =
  if succeeded (fst (depth_buffer_res d))
  then (upd_depthBuffer (emit s (EvCreateDepthBuffer (swapchainExtent (window s))))
          (Some {| depth_view := snd (depth_buffer_res d);
                   depth_extent := swapchainExtent (window s) |}), Ok tt)
  else (s, Throw (MkError "create_depth_buffer" (fst (depth_buffer_res d)))).
Proof.
  unfold assign_depthBuffer, create_depth_buffer, mbind, get, lift, modify, ret, check,
    succeeded.
  destruct (_ =? _); reflexivity.
Qed.

Lemma create_framebuffers_loop_ok (ex : Exercise) (d : Driver) (views : list Handle) :
  forall (i : nat) (s s' : State),
    create_framebuffers_loop ex d i views s = (s', Ok tt) ->
    s' = add_framebuffers ex i views s.
Proof.
  induction views as [|view rest IH]; intros i s s' H.
  - cbn in H. injection H as <-. reflexivity.
  - cbn [create_framebuffers_loop] in H. unfold mbind at 1, lift, check in H.
    destruct (framebuffer_res d i =? VK_SUCCESS); [| discriminate].
    unfold mbind at 1, modify in H. apply IH in H. exact H.
Qed.

Lemma add_framebuffers_fields (ex : Exercise) (views : list Handle) :
  forall (i : nat) (s : State),
    let s' := add_framebuffers ex i views s in
    window s' = window s /\ renderPass s' = renderPass s /\ pipe s' = pipe s
    /\ alphaPipeline s' = alphaPipeline s /\ depthBuffer s' = depthBuffer s
    /\ cbuffers s' = cbuffers s /\ cbfences s' = cbfences s
    /\ recreateSwapchain s' = recreateSwapchain s /\ imageIndex s' = imageIndex s
    /\ pc s' = pc s
    /\ framebuffers s' =
       framebuffers s ++
       map (fun view => {| fb_attachments := attachments ex s view;
                           fb_extent := swapchainExtent (window s) |}) views
    /\ log s' = log s ++ framebuffer_events (swapchainExtent (window s)) i (length views).
Proof.
  induction views as [|view rest IH]; intros i s; cbn zeta.
  - cbn. rewrite !app_nil_r. repeat split.
  - cbn [add_framebuffers].
    specialize (IH (S i) (emit (upd_framebuffers s
                 (framebuffers s ++
                  [{| fb_attachments := attachments ex s view;
                      fb_extent := swapchainExtent (window s) |}]))
              (EvCreateFramebuffer i (swapchainExtent (window s))))).
    cbn zeta in IH. destruct IH as (H1 & H2 & H3 & H4 & H5 & H6 & H7 & H8 & H9 & H10 & H11 & H12).
    rewrite H1, H2, H3, H4, H5, H6, H7, H8, H9, H10, H11, H12. cbn.
    rewrite <- !app_assoc. cbn. repeat split.
Qed.

Lemma create_swapchain_framebuffers_ok (ex : Exercise) (d : Driver) (s s' : State) :
  create_swapchain_framebuffers ex d s = (s', Ok tt) ->
  framebuffers s = [] /\ s' = add_framebuffers ex 0 (swapViews (window s)) s.
Proof.
  unfold create_swapchain_framebuffers. intros H.
  apply mbind_ok in H as (s1 & a & [= <- <-] & H).
  apply mbind_ok in H as (s1 & [] & H1 & H).
  unfold lift, assert in H1. destruct (length (framebuffers s)) eqn:Hl; [| discriminate].
  injection H1 as <-.
  apply mbind_ok in H as (s2 & [] & H2 & H).
  apply create_framebuffers_loop_ok in H2. subst s2.
  apply mbind_ok in H as (s3 & a & [= <- <-] & H).
  unfold lift in H. injection H as <- _.
  split; [| reflexivity]. destruct (framebuffers s); [reflexivity | discriminate].
Qed.

(** A recreation that returns: the window is the recreated one, the render
    pass follows a changed format, the pipelines (and in exercise 4 the depth
    buffer) a changed size, the framebuffers are those of the new window, the
    flag is cleared, and the calls made are [recreation_events]. *)
Lemma recreation_ok (ex : Exercise) (d : Driver) (s s' : State) :
  recreation ex d s = (s', Ok tt) ->
  exists w' ch,
    recreate_swapchain (platform d) (window s) = (w', Ok ch)
    /\ window s' = w'
    /\ renderPass s' = (if changedFormat ch then swapchainFormat w' else renderPass s)
    /\ pipe s' = (if changedSize ch then swapchainExtent w' else pipe s)
    /\ alphaPipeline s' =
       match ex with
       | Exercise3 => alphaPipeline s
       | Exercise4 => if changedSize ch then Some (swapchainExtent w') else alphaPipeline s
       end
    /\ depthBuffer s' =
       match ex with
       | Exercise3 => depthBuffer s
       | Exercise4 =>
           if changedSize ch
           then Some {| depth_view := snd (depth_buffer_res d);
                        depth_extent := swapchainExtent w' |}
           else depthBuffer s
       end
    /\ framebuffers s' = window_framebuffers ex s'
    /\ recreateSwapchain s' = false
    /\ cbuffers s' = cbuffers s /\ cbfences s' = cbfences s
    /\ imageIndex s' = imageIndex s /\ pc s' = pc s
    /\ log s' = log s ++ recreation_events ex (changedFormat ch) (changedSize ch)
                          (swapchainFormat w') (swapchainExtent w') (length (swapViews w')).
Proof.
  unfold recreation. intros H. apply mbind_ok in H as (s1 & ch & H1 & H).
  unfold call_recreate_swapchain in H1.
  destruct (recreate_swapchain (platform d) (window s)) as [w' r] eqn:Hr.
  injection H1 as <- ->. exists w', ch. split; [reflexivity |].
  destruct ex; unfold rebuild in H.
  - apply mbind_ok in H as (s2 & [] & H2 & H). apply when_ok in H2.
    apply mbind_ok in H as (s3 & [] & [= <-] & H).
    apply mbind_ok in H as (s4 & [] & H4 & H).
    apply create_swapchain_framebuffers_ok in H4 as [_ ->].
    apply mbind_ok in H as (s5 & [] & H5 & [= <-]). apply when_ok in H5.
    pose proof (add_framebuffers_fields Exercise3
                  (swapViews (window (emit (upd_framebuffers s2 []) EvClearFramebuffers))) 0
                  (emit (upd_framebuffers s2 []) EvClearFramebuffers)) as F.
    cbn zeta in F. set (s4 := add_framebuffers _ _ _ _) in *.
    destruct F as (F1 & F2 & F3 & F4 & F5 & F6 & F7 & F8 & F9 & F10 & F11 & F12).
    assert (W2 : window s2 = w' /\ pipe s2 = pipe s /\ alphaPipeline s2 = alphaPipeline s
                 /\ depthBuffer s2 = depthBuffer s /\ cbuffers s2 = cbuffers s
                 /\ cbfences s2 = cbfences s /\ imageIndex s2 = imageIndex s /\ pc s2 = pc s
                 /\ renderPass s2 = (if changedFormat ch then swapchainFormat w' else renderPass s)
                 /\ log s2 = (log s ++ [EvRecreateSwapchain])
                             ++ (if changedFormat ch then [EvCreateRenderPass (swapchainFormat w')]
                                 else [])).
    { destruct (changedFormat ch).
      - rewrite assign_renderPass_run in H2. destruct (succeeded _); [| discriminate].
        injection H2 as <-. cbn. repeat split.
      - subst s2. cbn. rewrite app_nil_r. repeat split. }
    destruct W2 as (W1 & W3 & W4 & W5 & W6 & W7 & W8 & W9 & W10 & W11).
    cbn in F1, F2, F3, F4, F5, F6, F7, F8, F9, F10, F11, F12.
    assert (W5' : window s5 = w' /\ renderPass s5 = renderPass s4
                  /\ alphaPipeline s5 = alphaPipeline s4 /\ depthBuffer s5 = depthBuffer s4
                  /\ framebuffers s5 = framebuffers s4
                  /\ cbuffers s5 = cbuffers s4 /\ cbfences s5 = cbfences s4
                  /\ imageIndex s5 = imageIndex s4 /\ pc s5 = pc s4
                  /\ pipe s5 = (if changedSize ch then swapchainExtent w' else pipe s4)
                  /\ log s5 = log s4 ++ (if changedSize ch
                                         then [EvCreatePipeline (swapchainExtent w')] else [])).
    { destruct (changedSize ch).
      - rewrite assign_pipe_run in H5. destruct (succeeded _); [| discriminate].
        injection H5 as <-. cbn. rewrite F1, W1. repeat split.
      - subst s5. rewrite app_nil_r, F1, W1. repeat split. }
    destruct W5' as (V1 & V2 & V3 & V4 & V5 & V6 & V7 & V8 & V9 & V10 & V11).
    cbn. unfold window_framebuffers, recreation_events. cbn.
    rewrite ?V1, ?V2, ?V3, ?V4, ?V5, ?V6, ?V7, ?V8, ?V9, ?V10, ?V11.
    rewrite ?F1, ?F2, ?F3, ?F4, ?F5, ?F6, ?F7, ?F8, ?F9, ?F10, ?F11, ?F12.
    rewrite ?W1, ?W3, ?W4, ?W5, ?W6, ?W7, ?W8, ?W9, ?W10, ?W11.
    rewrite <- ?app_assoc. repeat split.
  - apply mbind_ok in H as (s2 & [] & H2 & H). apply when_ok in H2.
    apply mbind_ok in H as (s3 & [] & H3 & H). apply when_ok in H3.
    apply mbind_ok in H as (s4 & [] & [= <-] & H).
    apply mbind_ok in H as (s5 & [] & H5 & [= <-]).
    apply create_swapchain_framebuffers_ok in H5 as [_ ->].
    pose proof (add_framebuffers_fields Exercise4
                  (swapViews (window (emit (upd_framebuffers s3 []) EvClearFramebuffers))) 0
                  (emit (upd_framebuffers s3 []) EvClearFramebuffers)) as F.
    cbn zeta in F. set (s5 := add_framebuffers _ _ _ _) in *.
    destruct F as (F1 & F2 & F3 & F4 & F5 & F6 & F7 & F8 & F9 & F10 & F11 & F12).
    assert (W2 : window s2 = w' /\ pipe s2 = pipe s /\ alphaPipeline s2 = alphaPipeline s
                 /\ depthBuffer s2 = depthBuffer s /\ cbuffers s2 = cbuffers s
                 /\ cbfences s2 = cbfences s /\ imageIndex s2 = imageIndex s /\ pc s2 = pc s
                 /\ renderPass s2 = (if changedFormat ch then swapchainFormat w' else renderPass s)
                 /\ log s2 = (log s ++ [EvRecreateSwapchain])
                             ++ (if changedFormat ch then [EvCreateRenderPass (swapchainFormat w')]
                                 else [])).
    { destruct (changedFormat ch).
      - rewrite assign_renderPass_run in H2. destruct (succeeded _); [| discriminate].
        injection H2 as <-. cbn. repeat split.
      - subst s2. cbn. rewrite app_nil_r. repeat split. }
    destruct W2 as (W1 & W3 & W4 & W5 & W6 & W7 & W8 & W9 & W10 & W11).
    assert (W3' : window s3 = w' /\ renderPass s3 = renderPass s2
                  /\ cbuffers s3 = cbuffers s2 /\ cbfences s3 = cbfences s2
                  /\ imageIndex s3 = imageIndex s2 /\ pc s3 = pc s2
                  /\ pipe s3 = (if changedSize ch then swapchainExtent w' else pipe s2)
                  /\ alphaPipeline s3 =
                     (if changedSize ch then Some (swapchainExtent w') else alphaPipeline s2)
                  /\ depthBuffer s3 =
                     (if changedSize ch
                      then Some {| depth_view := snd (depth_buffer_res d);
                                   depth_extent := swapchainExtent w' |}
                      else depthBuffer s2)
                  /\ log s3 = log s2 ++ (if changedSize ch
                                         then [EvCreatePipeline (swapchainExtent w');
                                               EvCreateAlphaPipeline (swapchainExtent w');
                                               EvCreateDepthBuffer (swapchainExtent w')]
                                         else [])).
    { destruct (changedSize ch).
      - apply mbind_ok in H3 as (t1 & [] & T1 & H3).
        apply mbind_ok in H3 as (t2 & [] & T2 & T3).
        rewrite assign_pipe_run in T1. destruct (succeeded _); [| discriminate].
        injection T1 as <-.
        rewrite assign_alphaPipeline_run in T2. destruct (succeeded _); [| discriminate].
        injection T2 as <-.
        rewrite assign_depthBuffer_run in T3. destruct (succeeded _); [| discriminate].
        injection T3 as <-. cbn. rewrite W1. rewrite <- !app_assoc. repeat split.
      - subst s3. rewrite app_nil_r, W1. repeat split. }
    destruct W3' as (V1 & V2 & V3 & V4 & V5 & V6 & V7 & V8 & V9 & V10).
    cbn in F1, F2, F3, F4, F5, F6, F7, F8, F9, F10, F11, F12.
    cbn. unfold window_framebuffers, recreation_events. cbn.
    rewrite ?F1, ?F2, ?F3, ?F4, ?F5, ?F6, ?F7, ?F8, ?F9, ?F10, ?F11, ?F12.
    rewrite ?V1, ?V2, ?V3, ?V4, ?V5, ?V6, ?V7, ?V8, ?V9, ?V10.
    rewrite ?W1, ?W3, ?W4, ?W5, ?W6, ?W7, ?W8, ?W9, ?W10, ?W11.
    rewrite <- ?app_assoc. repeat split.
Qed.

(** *** Relations that the code in [M] maintains, whatever its outcome *)
Section Frames.

Variable R : State -> State -> Prop.
Hypothesis R_refl : forall s, R s s.
Hypothesis R_trans : forall a b c, R a b -> R b c -> R a c.
Hypothesis R_emit : forall s ev, R s (emit s ev).
Hypothesis R_window : forall s w, R s (upd_window s w).
Hypothesis R_renderPass : forall s f, R s (upd_renderPass s f).
Hypothesis R_pipe : forall s e, R s (upd_pipe s e).
Hypothesis R_alphaPipeline : forall s e, R s (upd_alphaPipeline s e).
Hypothesis R_depthBuffer : forall s db, R s (upd_depthBuffer s db).
Hypothesis R_framebuffers : forall s l, R s (upd_framebuffers s l).
Hypothesis R_recreateSwapchain : forall s b, R s (upd_recreateSwapchain s b).
Hypothesis R_cbuffers : forall s cb, R s (upd_pool s (cbuffers s ++ [cb]) (cbfences s)).
Hypothesis R_cbfences :
  forall s, R s (upd_pool s (cbuffers s) (cbfences s ++ [{| signaled := true; pending := 0 |}])).

Lemma frames_bind {A B} (m : M A) (k : A -> M B) :
  (forall s, R s (fst (m s))) -> (forall a s, R s (fst (k a s))) ->
  forall s, R s (fst (mbind m k s)).
Proof.
  intros Hm Hk s. unfold mbind. specialize (Hm s).
  destruct (m s) as [s1 [a | e | x]]; cbn in *; [| assumption | assumption].
  eapply R_trans; [exact Hm | apply Hk].
Qed.

Lemma frames_when (b : bool) (m : M unit) :
  (forall s, R s (fst (m s))) -> forall s, R s (fst (when b m s)).
Proof. intros Hm s. destruct b; cbn; [apply Hm | apply R_refl]. Qed.

Lemma frames_lift {A} (o : outcome A) : forall s, R s (fst (lift o s)).
Proof. intros s. apply R_refl. Qed.

Lemma frames_assign_renderPass (d : Driver) : forall s, R s (fst (assign_renderPass d s)).
Proof.
  intros s. rewrite assign_renderPass_run. destruct (succeeded _); cbn; [| apply R_refl].
  eapply R_trans; [apply R_emit | apply R_renderPass].
Qed.

Lemma frames_assign_pipe (d : Driver) : forall s, R s (fst (assign_pipe d s)).
Proof.
  intros s. rewrite assign_pipe_run. destruct (succeeded _); cbn; [| apply R_refl].
  eapply R_trans; [apply R_emit | apply R_pipe].
Qed.

Lemma frames_assign_alphaPipeline (d : Driver) :
  forall s, R s (fst (assign_alphaPipeline d s)).
Proof.
  intros s. rewrite assign_alphaPipeline_run. destruct (succeeded _); cbn; [| apply R_refl].
  eapply R_trans; [apply R_emit | apply R_alphaPipeline].
Qed.

Lemma frames_assign_depthBuffer (d : Driver) : forall s, R s (fst (assign_depthBuffer d s)).
Proof.
  intros s. rewrite assign_depthBuffer_run. destruct (succeeded _); cbn; [| apply R_refl].
  eapply R_trans; [apply R_emit | apply R_depthBuffer].
Qed.

Lemma frames_create_framebuffers_loop (ex : Exercise) (d : Driver) (views : list Handle) :
  forall i s, R s (fst (create_framebuffers_loop ex d i views s)).
Proof.
  induction views as [|view rest IH]; intros i s; cbn [create_framebuffers_loop].
  - apply R_refl.
  - apply frames_bind; [apply frames_lift |]. intros _.
    apply frames_bind; [| intros _; apply IH].
    intros s0. cbn. eapply R_trans; [apply R_framebuffers | apply R_emit].
Qed.

Lemma frames_create_swapchain_framebuffers (ex : Exercise) (d : Driver) :
  forall s, R s (fst (create_swapchain_framebuffers ex d s)).
Proof.
  unfold create_swapchain_framebuffers.
  apply frames_bind; [intros s; apply R_refl |]. intros s0.
  apply frames_bind; [apply frames_lift |]. intros _.
  apply frames_bind; [apply frames_create_framebuffers_loop |]. intros _.
  apply frames_bind; [intros s; apply R_refl |]. intros s1. apply frames_lift.
Qed.

Lemma frames_rebuild (ex : Exercise) (d : Driver) (ch : SwapChanges) :
  forall s, R s (fst (rebuild ex d ch s)).
Proof.
  destruct ex; unfold rebuild.
  - apply frames_bind; [apply frames_when, frames_assign_renderPass |]. intros _.
    apply frames_bind.
    { intros s. cbn. eapply R_trans; [apply R_framebuffers | apply R_emit]. }
    intros _. apply frames_bind; [apply frames_create_swapchain_framebuffers |]. intros _.
    apply frames_bind; [apply frames_when, frames_assign_pipe |]. intros _.
    intros s. cbn. apply R_recreateSwapchain.
  - apply frames_bind; [apply frames_when, frames_assign_renderPass |]. intros _.
    apply frames_bind.
    { apply frames_when. apply frames_bind; [apply frames_assign_pipe |]. intros _.
      apply frames_bind; [apply frames_assign_alphaPipeline |]. intros _.
      apply frames_assign_depthBuffer. }
    intros _. apply frames_bind.
    { intros s. cbn. eapply R_trans; [apply R_framebuffers | apply R_emit]. }
    intros _. apply frames_bind; [apply frames_create_swapchain_framebuffers |]. intros _.
    intros s. cbn. apply R_recreateSwapchain.
Qed.

Lemma frames_call_recreate_swapchain (d : Driver) :
  forall s, R s (fst (call_recreate_swapchain d s)).
Proof.
  intros s. unfold call_recreate_swapchain.
  destruct (recreate_swapchain (platform d) (window s)) as [w r]. cbn.
  eapply R_trans; [apply R_window | apply R_emit].
Qed.

Lemma frames_recreation (ex : Exercise) (d : Driver) :
  forall s, R s (fst (recreation ex d s)).
Proof.
  unfold recreation. apply frames_bind; [apply frames_call_recreate_swapchain |].
  intros ch. apply frames_rebuild.
Qed.

Lemma frames_alloc_pool (d : Driver) (n : nat) :
  forall i s, R s (fst (alloc_pool d i n s)).
Proof.
  induction n as [|n IH]; intros i s; cbn [alloc_pool].
  - apply R_refl.
  - apply frames_bind; [apply frames_lift |]. intros _.
    apply frames_bind; [intros s0; cbn; apply R_cbuffers |]. intros _.
    apply frames_bind; [apply frames_lift |]. intros _.
    apply frames_bind; [intros s0; cbn; apply R_cbfences |]. intros _. apply IH.
Qed.

Lemma frames_setup (ex : Exercise) (d : Driver) (g p : Z) (q : list Z) :
  forall s, R s (fst (setup ex d g p q s)).
Proof.
  unfold setup. apply frames_bind.
  { intros s. unfold call_make_vulkan_window.
    destruct (make_vulkan_window (platform d) g p q) as [w r]. cbn. apply R_window. }
  intros _. apply frames_bind; [apply frames_assign_renderPass |]. intros _.
  apply frames_bind; [apply frames_assign_pipe |]. intros _.
  apply frames_bind.
  { destruct ex; [intros s; apply R_refl |].
    apply frames_bind; [apply frames_assign_alphaPipeline |]. intros _.
    apply frames_assign_depthBuffer. }
  intros _. apply frames_bind; [apply frames_create_swapchain_framebuffers |]. intros _.
  apply frames_bind; [intros s; apply R_refl |]. intros s0. apply frames_alloc_pool.
Qed.

End Frames.

Lemma same_pool_refl (s : State) : same_pool s s.
Proof. repeat split. exists []. rewrite app_nil_r. reflexivity. Qed.

Lemma same_pool_trans (a b c : State) : same_pool a b -> same_pool b c -> same_pool a c.
Proof.
  intros (A1 & A2 & A3 & A4 & e1 & A5) (B1 & B2 & B3 & B4 & e2 & B5).
  repeat split; try congruence. exists (e1 ++ e2). rewrite B5, A5, app_assoc. reflexivity.
Qed.

Lemma same_pool_emit (s : State) (ev : Event) : same_pool s (emit s ev).
Proof. repeat split. exists [ev]. reflexivity. Qed.

Ltac same_pool_closure :=
  first [ exact same_pool_refl | exact same_pool_trans | exact same_pool_emit
        | intros; unfold same_pool; cbn; repeat split; exists []; rewrite app_nil_r;
          reflexivity ].

(** The recreation branch never touches the pool of command buffers and
    fences, and its first call is [recreate_swapchain]. *)
Lemma recreation_same_pool (ex : Exercise) (d : Driver) (s : State) :
  same_pool s (fst (recreation ex d s)).
Proof. apply frames_recreation; same_pool_closure. Qed.

Lemma recreation_log (ex : Exercise) (d : Driver) (s : State) :
  exists evs, log (fst (recreation ex d s)) = log s ++ EvRecreateSwapchain :: evs.
Proof.
  unfold recreation, mbind, call_recreate_swapchain.
  destruct (recreate_swapchain (platform d) (window s)) as [w [ch | e | x]]; cbn;
    try (exists []; reflexivity).
  assert (F : same_pool (emit (upd_window s w) EvRecreateSwapchain)
                (fst (rebuild ex d ch (emit (upd_window s w) EvRecreateSwapchain))))
    by (apply frames_rebuild; same_pool_closure).
  destruct F as (_ & _ & _ & _ & evs & H).
  exists evs. rewrite H. cbn. rewrite <- app_assoc. reflexivity.
Qed.

(** *** Steps and runs *)

Lemma conclude_goto (r : State * outcome unit) (next : Pc) :
  conclude r next =
  goto (fst r) match snd r with
               | Ok _ => next
               | Throw _ => PcExit1
               | Abort _ => PcAborted
               end.
Proof. destruct r as [s [[] | e | x]]; reflexivity. Qed.

Lemma run_cons (ex : Exercise) (a : Action) (acts : list Action) (s : State) :
  run ex (a :: acts) s = run ex acts (step ex a s).
Proof. reflexivity. Qed.

Lemma run_snoc (ex : Exercise) (acts : list Action) (a : Action) (s : State) :
  run ex (acts ++ [a]) s = step ex a (run ex acts s).
Proof. unfold run. rewrite fold_left_app. reflexivity. Qed.

Lemma run_invariant (ex : Exercise) (I : State -> Prop) :
  (forall a s, I s -> I (step ex a s)) ->
  forall acts s, I s -> I (run ex acts s).
Proof.
  intros H acts. induction acts as [|a acts IH]; intros s Hs; [exact Hs |].
  rewrite run_cons. apply IH, H, Hs.
Qed.

(** The three operations on a fence change that fence and nothing else. *)
Lemma reset_fence_fields (i : nat) (s : State) :
  let s' := reset_fence i s in
  window s' = window s /\ framebuffers s' = framebuffers s /\ cbuffers s' = cbuffers s
  /\ recreateSwapchain s' = recreateSwapchain s /\ imageIndex s' = imageIndex s
  /\ pc s' = pc s /\ log s' = log s /\ length (cbfences s') = length (cbfences s).
Proof.
  unfold reset_fence. destruct (cbfences s !! i); cbn; rewrite ?length_insert; repeat split.
Qed.

Lemma queue_submit_fields (i : nat) (s : State) :
  let s' := queue_submit i s in
  window s' = window s /\ framebuffers s' = framebuffers s /\ cbuffers s' = cbuffers s
  /\ recreateSwapchain s' = recreateSwapchain s /\ imageIndex s' = imageIndex s
  /\ pc s' = pc s /\ log s' = log s /\ length (cbfences s') = length (cbfences s).
Proof.
  unfold queue_submit. destruct (cbfences s !! i); cbn; rewrite ?length_insert; repeat split.
Qed.

Lemma gpu_complete_fields (i : nat) (s : State) :
  let s' := gpu_complete i s in
  window s' = window s /\ framebuffers s' = framebuffers s /\ cbuffers s' = cbuffers s
  /\ recreateSwapchain s' = recreateSwapchain s /\ imageIndex s' = imageIndex s
  /\ pc s' = pc s /\ log s' = log s /\ length (cbfences s') = length (cbfences s).
Proof.
  unfold gpu_complete. destruct (cbfences s !! i) as [[sg [|n]] |]; cbn;
    rewrite ?length_insert; repeat split.
Qed.

Ltac case_if :=
  match goal with
  | |- context [if ?b then _ else _] => destruct b
  end.

Ltac log_grows :=
  first [ exists []; rewrite app_nil_r; reflexivity
        | eexists; reflexivity
        | eexists; rewrite <- app_assoc; reflexivity ].

(** A step leaves the size of the pool alone and only adds to the log; it
    changes the window and the framebuffers only in the recreation branch. *)
Lemma step_frame (ex : Exercise) (a : Action) (s : State) :
  let s' := step ex a s in
  length (cbfences s') = length (cbfences s)
  /\ length (cbuffers s') = length (cbuffers s)
  /\ (exists evs, log s' = log s ++ evs)
  /\ (pc s <> PcRecreate -> window s' = window s /\ framebuffers s' = framebuffers s).
Proof.
  destruct a as [r | i]; cbn [step].
  - unfold host_step. destruct (pc s) eqn:Hpc;
      try (repeat match goal with
                  | |- context [if ?b then _ else _] => destruct b
                  end; cbn; repeat split; log_grows).
    + rewrite conclude_goto. cbn.
      destruct (recreation_same_pool ex (driver r) s) as (H1 & H2 & _ & _ & H5).
      rewrite H1, H2. repeat split; [exact H5 | congruence | congruence].
    + destruct (negb (succeeded (status r))); [cbn; repeat split; log_grows |].
      pose proof (reset_fence_fields (imageIndex s) s) as F. cbn zeta in F.
      destruct F as (F1 & F2 & F3 & F4 & F5 & F6 & F7 & F8).
      destruct (_ && _); cbn; rewrite ?F1, ?F2, ?F3, ?F7, ?F8; repeat split; log_grows.
    + destruct (negb (succeeded (status r))); [cbn; repeat split; log_grows |].
      pose proof (queue_submit_fields (imageIndex s) s) as F. cbn zeta in F.
      destruct F as (F1 & F2 & F3 & F4 & F5 & F6 & F7 & F8).
      cbn; rewrite ?F1, ?F2, ?F3, ?F7, ?F8; repeat split; log_grows.
  - pose proof (gpu_complete_fields i s) as F. cbn zeta in F.
    destruct F as (F1 & F2 & F3 & F4 & F5 & F6 & F7 & F8).
    rewrite F1, F2, F3, F7, F8. repeat split. log_grows.
Qed.

(** *** The start of [main] *)

Lemma alloc_pool_ok (d : Driver) (n : nat) :
  forall (i : nat) (s s' : State),
    alloc_pool d i n s = (s', Ok tt) ->
    window s' = window s /\ framebuffers s' = framebuffers s
    /\ length (cbuffers s') = (length (cbuffers s) + n)%nat
    /\ length (cbfences s') = (length (cbfences s) + n)%nat.
Proof.
  induction n as [|n IH]; intros i s s' H; cbn [alloc_pool] in H.
  - injection H as <-. rewrite !Nat.add_0_r. repeat split.
  - apply mbind_ok in H as (s1 & [] & H1 & H).
    unfold lift in H1. injection H1 as <- _.
    apply mbind_ok in H as (s2 & [] & [= <-] & H).
    apply mbind_ok in H as (s3 & [] & H3 & H).
    unfold lift in H3. injection H3 as <- _.
    apply mbind_ok in H as (s4 & [] & [= <-] & H).
    apply IH in H as (H1 & H2 & H3 & H4). cbn in H1, H2, H3, H4.
    rewrite length_app in H3, H4. cbn in H3, H4.
    repeat split; [exact H1 | exact H2 | lia | lia].
Qed.

Ltac same_window_closure :=
  first [ intros; unfold same_window; repeat split; reflexivity
        | intros a b c (A1 & A2 & A3) (B1 & B2 & B3); unfold same_window;
          repeat split; congruence ].

(** When [main] reaches its loop, the window has a view per image, and
    there is a framebuffer, a command buffer and a fence per image. *)
Lemma setup_ok (ex : Exercise) (d : Driver) (g p : Z) (q : list Z) (s : State) :
  setup ex d g p q blank = (s, Ok tt) ->
  length (swapViews (window s)) = length (swapImages (window s))
  /\ length (framebuffers s) = length (swapImages (window s))
  /\ length (cbuffers s) = length (swapImages (window s))
  /\ length (cbfences s) = length (swapImages (window s)).
Proof.
  unfold setup. intros H.
  apply mbind_ok in H as (s1 & [] & H1 & H).
  unfold call_make_vulkan_window in H1.
  destruct (make_vulkan_window (platform d) g p q) as [w r] eqn:Hw.
  injection H1 as <- ->.
  assert (Hlen : length (swapViews w) = length (swapImages w)).
  { unfold make_vulkan_window in Hw.
    destruct (create_swapchain (platform d) q VK_NULL_HANDLE) as [[[h f] e] | err | x];
      try discriminate.
    apply WindowSpec.fetch_images_and_views_ok in Hw. apply Hw. }
  apply mbind_ok in H as (s2 & [] & H2 & H).
  apply mbind_ok in H as (s3 & [] & H3 & H).
  apply mbind_ok in H as (s4 & [] & H4 & H).
  apply mbind_ok in H as (s5 & [] & H5 & H).
  apply mbind_ok in H as (s6 & s6' & [= <- <-] & H).
  assert (F2 : same_window (upd_window blank w) s2).
  { change s2 with (fst (s2, Ok tt)). rewrite <- H2.
    apply frames_assign_renderPass; same_window_closure. }
  assert (F3 : same_window s2 s3).
  { change s3 with (fst (s3, Ok tt)). rewrite <- H3.
    apply frames_assign_pipe; same_window_closure. }
  assert (F4 : same_window s3 s4).
  { change s4 with (fst (s4, Ok tt)). rewrite <- H4. destruct ex.
    - repeat split.
    - apply frames_bind; try same_window_closure.
      + apply frames_assign_alphaPipeline; same_window_closure.
      + intros _. apply frames_assign_depthBuffer; same_window_closure. }
  apply create_swapchain_framebuffers_ok in H5 as [Hfb ->].
  pose proof (add_framebuffers_fields ex (swapViews (window s4)) 0 s4) as F. cbn zeta in F.
  set (s5 := add_framebuffers ex 0 (swapViews (window s4)) s4) in *.
  destruct F as (G1 & _ & _ & _ & _ & G6 & G7 & _ & _ & _ & G11 & _).
  apply alloc_pool_ok in H as (A1 & A2 & A3 & A4).
  destruct F2 as (W2 & B2 & C2), F3 as (W3 & B3 & C3), F4 as (W4 & B4 & C4).
  assert (Hw4 : window s4 = w) by (rewrite W4, W3, W2; reflexivity).
  assert (Hfb5 : length (framebuffers s5) = length (swapImages w)).
  { rewrite G11, Hfb, Hw4. cbn. rewrite length_map. exact Hlen. }
  rewrite A1, A2, A3, A4, G1, G6, G7, Hw4, B4, B3, B2, C4, C3, C2, Hfb5. cbn.
  repeat split. exact Hlen.
Qed.

Lemma startup_loop_head (ex : Exercise) (d : Driver) (g p : Z) (q : list Z) :
  pc (startup ex d g p q) = PcLoopHead ->
  exists s, setup ex d g p q blank = (s, Ok tt) /\ startup ex d g p q = goto s PcLoopHead.
Proof.
  unfold startup. destruct (setup ex d g p q blank) as [s [[] | e | x]]; cbn;
    try discriminate.
  intros _. exists s. split; reflexivity.
Qed.

Lemma keeps_fresh_closure_refl (s : State) : keeps_fresh s s.
Proof. unfold keeps_fresh. auto. Qed.

Lemma keeps_fresh_closure_trans (a b c : State) :
  keeps_fresh a b -> keeps_fresh b c -> keeps_fresh a c.
Proof. unfold keeps_fresh. auto. Qed.

(** The fences of the pool are created signaled, with nothing in flight. *)
Lemma startup_fresh (ex : Exercise) (d : Driver) (g p : Z) (q : list Z) :
  Forall fresh (cbfences (startup ex d g p q)).
Proof.
  unfold startup. rewrite conclude_goto. cbn.
  assert (F : keeps_fresh blank (fst (setup ex d g p q blank))).
  { apply frames_setup;
      first [ exact keeps_fresh_closure_refl | exact keeps_fresh_closure_trans
            | intros; unfold keeps_fresh; cbn; intros H; try exact H ].
    apply Forall_app. split; [exact H |]. constructor; [split; reflexivity | constructor]. }
  apply F. constructor.
Qed.

Lemma startup_pc (ex : Exercise) (d : Driver) (g p : Z) (q : list Z) :
  pc (startup ex d g p q) = PcLoopHead \/ pc (startup ex d g p q) = PcExit1
  \/ pc (startup ex d g p q) = PcAborted.
Proof.
  unfold startup. destruct (setup ex d g p q blank) as [s [[] | e | x]]; cbn; auto.
Qed.

(** *** The swapchain state and the pool along a run *)

Lemma step_terminal (ex : Exercise) (a : Action) (s : State) :
  pc s = PcExit0 \/ pc s = PcExit1 \/ pc s = PcAborted -> pc (step ex a s) = pc s.
Proof.
  intros H. destruct a as [r | i]; cbn [step].
  - unfold host_step. destruct H as [H | [H | H]]; rewrite H; exact H.
  - apply gpu_complete_fields.
Qed.

Lemma step_views_images (ex : Exercise) (a : Action) (s : State) :
  (pc s <> PcExit1 -> pc s <> PcAborted ->
   length (swapViews (window s)) = length (swapImages (window s))
   /\ length (framebuffers s) = length (swapImages (window s))) ->
  pc (step ex a s) <> PcExit1 -> pc (step ex a s) <> PcAborted ->
  length (swapViews (window (step ex a s))) = length (swapImages (window (step ex a s)))
  /\ length (framebuffers (step ex a s)) = length (swapImages (window (step ex a s))).
Proof.
  intros I N1 N2.
  assert (T1 : pc s <> PcExit1).
  { intros E. apply N1. rewrite step_terminal; auto. }
  assert (T2 : pc s <> PcAborted).
  { intros E. apply N2. rewrite step_terminal; auto. }
  destruct (step_frame ex a s) as (_ & _ & _ & F).
  destruct a as [r | i].
  - destruct (pc s) eqn:Hpc;
      try (destruct F as [F1 F2]; [discriminate |]; rewrite F1, F2; apply I; assumption).
    cbn [step] in *. unfold host_step in *. rewrite Hpc in *.
    destruct (recreation ex (driver r) s) as [s1 [[] | e | x]] eqn:Hr; cbn in N1, N2;
      try congruence.
    apply recreation_ok in Hr as (w' & ch & Hw & H1 & _ & _ & _ & _ & H6 & _).
    apply WindowSpec.recreate_swapchain_ok in Hw as (Hlen & _). cbn.
    rewrite H6. unfold window_framebuffers. rewrite length_map, H1. split; [exact Hlen |].
    exact Hlen.
  - cbn [step]. destruct (gpu_complete_fields i s) as (F1 & F2 & _).
    rewrite F1, F2. apply I; assumption.
Qed.

(** C1. The failing input: exercise 3 is started on a surface with two
    images, an acquire reports an out-of-date swapchain, and the recreation
    that follows returns a swapchain of three images.  The window then has
    three images and three views, and the pool still has the two command
    buffers and the two fences it was filled with before the loop: the slot
    count is not the new image count.  When the third image is acquired,
    [assert( std::size_t(imageIndex) < cbfences.size() )] fails and the
    program stops there. *)
Lemma recreation_grows_swapchain_not_pool :
  let s0 := start Exercise3 2 in
  let s := run Exercise3 grow_run s0 in
  pc s0 = PcLoopHead
  /\ length (swapImages (window s0)) = 2%nat /\ length (cbfences s0) = 2%nat
  /\ pc s = PcLoopHead
  /\ EvRecreateSwapchain ∈ events_since (length (log s0)) s
  /\ length (swapImages (window s)) = 3%nat /\ length (swapViews (window s)) = 3%nat
  /\ length (cbfences s) = 2%nat /\ length (cbuffers s) = 2%nat
  /\ length (cbfences s) <> length (swapImages (window s))
  /\ pc (run Exercise3 [Host fine; Host (answer false VK_SUCCESS 2 (surface720 8 3))] s)
     = PcAborted.
Proof.
  cbv zeta. repeat split; try reflexivity.
  - vm_compute. do 4 right. left.
  - vm_compute. discriminate.
Qed.

(** The views and the pool along every run.  After every successful
    [recreate_swapchain] the window has as many views as images, and the loop
    has rebuilt one framebuffer per image.  The vectors of command buffers
    and fences are filled once before the loop, one entry per image of the
    first swapchain, and no step of the loop changes their length. *)
Theorem recreation_keeps_views_and_pool :
  (forall p w w' ch,
     recreate_swapchain p w = (w', Ok ch) ->
     length (swapViews w') = length (swapImages w'))
  /\ (forall ex d g pr q acts,
        let s0 := startup ex d g pr q in
        let s := run ex acts s0 in
        pc s0 = PcLoopHead ->
        length (cbfences s0) = length (swapImages (window s0))
        /\ length (cbfences s) = length (swapImages (window s0))
        /\ length (cbuffers s) = length (swapImages (window s0))
        /\ (pc s <> PcExit1 -> pc s <> PcAborted ->
            length (swapViews (window s)) = length (swapImages (window s))
            /\ length (framebuffers s) = length (swapImages (window s)))).
Proof.
  split.
  - intros p w w' ch H. apply WindowSpec.recreate_swapchain_ok in H. apply H.
  - intros ex d g pr q acts s0 s H0. subst s s0.
    destruct (startup_loop_head ex d g pr q H0) as (s1 & Hs & Hst).
    apply setup_ok in Hs as (L1 & L2 & L3 & L4).
    set (n := length (swapImages (window (startup ex d g pr q)))).
    assert (I0 : length (cbfences (startup ex d g pr q)) = n
                 /\ length (cbuffers (startup ex d g pr q)) = n
                 /\ (pc (startup ex d g pr q) <> PcExit1 ->
                     pc (startup ex d g pr q) <> PcAborted ->
                     length (swapViews (window (startup ex d g pr q)))
                     = length (swapImages (window (startup ex d g pr q)))
                     /\ length (framebuffers (startup ex d g pr q))
                        = length (swapImages (window (startup ex d g pr q))))).
    { subst n. rewrite Hst. cbn. auto. }
    split; [apply I0 |].
    revert I0. generalize (startup ex d g pr q). intros s I0.
    apply (run_invariant ex (fun t =>
      length (cbfences t) = n /\ length (cbuffers t) = n
      /\ (pc t <> PcExit1 -> pc t <> PcAborted ->
          length (swapViews (window t)) = length (swapImages (window t))
          /\ length (framebuffers t) = length (swapImages (window t))))); [| exact I0].
    clear. intros a t (I1 & I2 & I3).
    destruct (step_frame ex a t) as (F1 & F2 & _).
    split; [congruence |]. split; [congruence |]. apply step_views_images, I3.
Qed.

Lemma recreation_keeps_views_and_pool_witness :
  length (cbfences (run Exercise3 grow_run (start Exercise3 2))) = 2%nat.
Proof.
  exact (proj1 (proj2 (proj2 recreation_keeps_views_and_pool Exercise3
           (driver_ok (surface720 7 2)) 0 0 [0] grow_run eq_refl))).
Defined.

(** *** The protocol of the fences *)

(** A step that changes no fence, away from the part of the loop between
    the reset of a fence and the submission. *)
Lemma fence_protocol_quiet (s s' : State) :
  fence_protocol s -> cbfences s' = cbfences s ->
  pc s <> PcRecord -> pc s <> PcSubmit -> pc s <> PcExit1 -> pc s <> PcAborted ->
  pc s' <> PcResetFence -> pc s' <> PcRecord -> pc s' <> PcSubmit ->
  fence_protocol s'.
Proof.
  intros (F1 & F2 & F3) Hc N1 N2 N3 N4 M1 M2 M3. unfold fence_protocol. rewrite Hc.
  split; [| split].
  - intros i f Hi. destruct (F1 i f Hi) as (A & B & C). split; [exact A |].
    split; [exact B |]. intros Hs Hp. destruct (C Hs Hp) as (_ & [E | [E | [E | E]]]);
      congruence.
  - intros E. congruence.
  - intros [E | E]; congruence.
Qed.

(** A step that changes no fence and keeps the acquired index. *)
Lemma fence_protocol_same (s s' : State) :
  fence_protocol s -> cbfences s' = cbfences s -> imageIndex s' = imageIndex s ->
  (pc s = PcRecord \/ pc s = PcSubmit \/ pc s = PcExit1 \/ pc s = PcAborted ->
   pc s' = PcRecord \/ pc s' = PcSubmit \/ pc s' = PcExit1 \/ pc s' = PcAborted) ->
  (pc s' = PcResetFence -> fence_signaled s (imageIndex s) = true) ->
  (pc s' = PcRecord \/ pc s' = PcSubmit -> pc s = PcRecord \/ pc s = PcSubmit) ->
  fence_protocol s'.
Proof.
  intros (F1 & F2 & F3) Hc Hi Hset Hreset Hrec. unfold fence_protocol, fence_signaled.
  rewrite Hc, Hi. split; [| split].
  - intros i f Hf. destruct (F1 i f Hf) as (A & B & C). split; [exact A |].
    split; [exact B |]. intros Hs Hp. destruct (C Hs Hp) as (C1 & C2). auto.
  - exact Hreset.
  - intros E. apply F3, Hrec, E.
Qed.

Lemma fence_signaled_lookup (s : State) (i : nat) :
  fence_signaled s i = true -> exists f, cbfences s !! i = Some f /\ signaled f = true.
Proof.
  unfold fence_signaled. destruct (cbfences s !! i) as [f |]; [eauto | discriminate].
Qed.

Lemma step_fence_protocol (ex : Exercise) (a : Action) (s : State) :
  fence_protocol s -> fence_protocol (step ex a s).
Proof.
  intros H. destruct a as [r | j]; cbn [step].
  - unfold host_step. destruct (pc s) eqn:Hpc; try exact H.
    + (* loop head *)
      destruct (should_close r); [apply (fence_protocol_quiet s); cbn; congruence |].
      cbn. destruct (recreateSwapchain s);
        apply (fence_protocol_quiet s); cbn; congruence.
    + (* wait idle *)
      destruct (_ && _); [exact H |]. apply (fence_protocol_quiet s); cbn; congruence.
    + (* recreation *)
      rewrite conclude_goto.
      destruct (recreation_same_pool ex (driver r) s) as (_ & Hc & _).
      apply (fence_protocol_quiet s); cbn; try congruence;
        destruct (snd (recreation ex (driver r) s)); discriminate.
    + (* acquire *)
      cbn. destruct (stale (status r)); [apply (fence_protocol_quiet s); cbn; congruence |].
      destruct (negb (succeeded (status r)));
        [apply (fence_protocol_quiet s); cbn; congruence |].
      case_if; apply (fence_protocol_quiet s); cbn; congruence.
    + (* wait for the fence *)
      destruct (negb (succeeded (status r)));
        [apply (fence_protocol_quiet s); cbn; congruence |].
      destruct (fence_signaled s (imageIndex s)) eqn:Hsig; [| exact H].
      apply (fence_protocol_same s); cbn; try congruence.
      * intros [E | [E | [E | E]]]; congruence.
      * intros [E | E]; discriminate.
    + (* reset of the fence *)
      destruct (negb (succeeded (status r)));
        [apply (fence_protocol_quiet s); cbn; congruence |].
      destruct H as (F1 & F2 & F3).
      destruct (fence_signaled_lookup s (imageIndex s) (F2 Hpc)) as (f & Hf & Hs).
      destruct (F1 _ _ Hf) as (_ & Hp & _). specialize (Hp Hs).
      assert (Hlt : (imageIndex s < length (cbfences s))%nat)
        by (eapply lookup_lt_Some; exact Hf).
      unfold reset_fence. rewrite Hf, Hp. cbn.
      assert (G : forall next, next = PcRecord \/ next = PcAborted ->
                  fence_protocol
                    (goto (emit (upd_cbfences s
                                   (<[imageIndex s := {| signaled := false; pending := 0 |}]>
                                      (cbfences s)))
                                (EvResetFence (imageIndex s))) next)).
      { intros next Hnext. unfold fence_protocol. cbn. split; [| split].
        - intros i g Hg. destruct (decide (i = imageIndex s)) as [-> | Hne].
          + rewrite list_lookup_insert_eq in Hg by exact Hlt. injection Hg as <-. cbn.
            split; [lia |]. split; [discriminate |]. intros _ _. split; [reflexivity |].
            destruct Hnext as [-> | ->]; auto.
          + rewrite list_lookup_insert_ne in Hg by congruence.
            destruct (F1 i g Hg) as (A & B & C). split; [exact A |]. split; [exact B |].
            intros Hs' Hp'. destruct (C Hs' Hp') as (_ & [E | [E | [E | E]]]); congruence.
        - intros E. destruct Hnext; congruence.
        - intros _. eexists. split; [apply list_lookup_insert_eq; exact Hlt |].
          split; reflexivity. }
      case_if; apply G; auto.
    + (* record *)
      destruct (negb (succeeded (status r))).
      * apply (fence_protocol_same s); cbn; try congruence; [auto |].
        intros [E | E]; discriminate.
      * apply (fence_protocol_same s); cbn; try congruence; auto.
    + (* submit *)
      destruct (negb (succeeded (status r))).
      * apply (fence_protocol_same s); cbn; try congruence; [auto |].
        intros [E | E]; discriminate.
      * destruct H as (F1 & F2 & F3).
        destruct F3 as (f & Hf & Hs & Hp); [auto |].
        assert (Hlt : (imageIndex s < length (cbfences s))%nat)
          by (eapply lookup_lt_Some; exact Hf).
        unfold queue_submit. rewrite Hf, Hs, Hp. unfold fence_protocol. cbn.
        split; [| split].
        -- intros i g Hg. destruct (decide (i = imageIndex s)) as [-> | Hne].
           ++ rewrite list_lookup_insert_eq in Hg by exact Hlt. injection Hg as <-. cbn.
              split; [lia |]. split; [discriminate |]. intros _ E. discriminate.
           ++ rewrite list_lookup_insert_ne in Hg by congruence.
              destruct (F1 i g Hg) as (A & B & C). split; [exact A |]. split; [exact B |].
              intros Hs' Hp'. destruct (C Hs' Hp') as (E & _). congruence.
        -- discriminate.
        -- intros [E | E]; discriminate.
    + (* present *)
      cbn. destruct (stale (status r)); [apply (fence_protocol_quiet s); cbn; congruence |].
      destruct (negb (succeeded (status r)));
        apply (fence_protocol_quiet s); cbn; congruence.
    + (* shutdown *)
      destruct (_ && _); [exact H |]. apply (fence_protocol_quiet s); cbn; congruence.
  - (* the GPU finishes a submission *)
    unfold gpu_complete. destruct (cbfences s !! j) as [[sg [|n]] |] eqn:Hj; try exact H.
    destruct H as (F1 & F2 & F3).
    assert (Hlt : (j < length (cbfences s))%nat) by (eapply lookup_lt_Some; exact Hj).
    destruct (F1 _ _ Hj) as (Hn & _). cbn in Hn. assert (n = O) by lia. subst n.
    unfold fence_protocol, fence_signaled. cbn. split; [| split].
    + intros i g Hg. destruct (decide (i = j)) as [-> | Hne].
      * rewrite list_lookup_insert_eq in Hg by exact Hlt. injection Hg as <-. cbn.
        split; [lia |]. split; [reflexivity |]. discriminate.
      * rewrite list_lookup_insert_ne in Hg by congruence. apply F1, Hg.
    + intros E. destruct (decide (imageIndex s = j)) as [-> | Hne].
      * rewrite list_lookup_insert_eq by exact Hlt. reflexivity.
      * rewrite list_lookup_insert_ne by congruence. apply F2, E.
    + intros E. destruct (F3 E) as (f & Hf & Hs & Hp).
      destruct (decide (imageIndex s = j)) as [Heq | Hne].
      * rewrite Heq, Hj in Hf. injection Hf as <-. discriminate.
      * exists f. rewrite list_lookup_insert_ne by congruence. auto.
Qed.

(** C7. In every state that the loop of [main] reaches, with the GPU
    finishing submissions whenever it does: a frame slot has at most one
    submission in flight, and none while its fence is signaled; the fence of
    a slot is reset only after the wait on it has returned, and the command
    buffer of the slot is recorded and submitted only with that fence reset
    and nothing of the slot in flight; at most one fence is unsignaled
    without a submission in flight, the fence of the image that is acquired
    and on its way to the submission. *)
Theorem fence_protocol_holds (ex : Exercise) (d : Driver) (g p : Z) (q : list Z)
    (acts : list Action) :
  fence_protocol (run ex acts (startup ex d g p q)).
Proof.
  apply run_invariant; [apply step_fence_protocol |].
  pose proof (startup_fresh ex d g p q) as Hf.
  pose proof (startup_pc ex d g p q) as Hpc.
  rewrite Forall_forall in Hf.
  unfold fence_protocol. split; [| split].
  - intros i f Hi. assert (Hin : f ∈ cbfences (startup ex d g p q))
      by (apply list_elem_of_lookup; eauto).
    destruct (Hf f Hin) as [Hs Hp]. rewrite Hs, Hp.
    split; [lia |]. split; [reflexivity |]. discriminate.
  - intros E. destruct Hpc as [E' | [E' | E']]; congruence.
  - intros [E | E]; destruct Hpc as [E' | [E' | E']]; congruence.
Qed.

(** *** The iterations of the loop *)

Lemma stale_cases (res : VkResult) :
  stale res = true <-> res = VK_SUBOPTIMAL_KHR \/ res = VK_ERROR_OUT_OF_DATE_KHR.
Proof. unfold stale. rewrite orb_true_iff, !Z.eqb_eq. tauto. Qed.

Lemma stale_not_succeeded (res : VkResult) : stale res = true -> succeeded res = false.
Proof.
  rewrite stale_cases. unfold succeeded. intros [-> | ->]; reflexivity.
Qed.

Lemma succeeded_cases (res : VkResult) : succeeded res = true <-> res = VK_SUCCESS.
Proof. unfold succeeded. apply Z.eqb_eq. Qed.

Lemma elem_of_drop_app {A} (x : A) (n : nat) (l k : list A) :
  x ∈ drop n l -> x ∈ drop n (l ++ k).
Proof.
  intros H. destruct (Nat.le_gt_cases n (length l)) as [Hle | Hgt].
  - rewrite drop_app_le by exact Hle. apply elem_of_app. left. exact H.
  - rewrite drop_ge in H by lia. inversion H.
Qed.

(** Once the flag is set at the head of the loop, the program does not come
    to the acquire again before it has called [recreate_swapchain]. *)
Lemma recreation_precedes_acquire (ex : Exercise) (s : State) :
  recreateSwapchain s = true -> pc s = PcLoopHead ->
  forall acts,
    pc (run ex acts s) = PcAcquire ->
    EvRecreateSwapchain ∈ events_since (length (log s)) (run ex acts s).
Proof.
  intros Hflag Hpc acts Hacq. unfold events_since.
  set (n := length (log s)).
  assert (K : (n <= length (log (run ex acts s)))%nat
              /\ ((recreateSwapchain (run ex acts s) = true
                   /\ (pc (run ex acts s) = PcLoopHead \/ pc (run ex acts s) = PcWaitIdle
                       \/ pc (run ex acts s) = PcRecreate))
                  \/ EvRecreateSwapchain ∈ drop n (log (run ex acts s))
                  \/ (pc (run ex acts s) = PcShutdown \/ pc (run ex acts s) = PcExit0
                      \/ pc (run ex acts s) = PcExit1 \/ pc (run ex acts s) = PcAborted))).
  { apply (run_invariant ex (fun t =>
      (n <= length (log t))%nat
      /\ ((recreateSwapchain t = true
           /\ (pc t = PcLoopHead \/ pc t = PcWaitIdle \/ pc t = PcRecreate))
          \/ EvRecreateSwapchain ∈ drop n (log t)
          \/ (pc t = PcShutdown \/ pc t = PcExit0 \/ pc t = PcExit1 \/ pc t = PcAborted)))).
    - clear. intros a t (Hn & K).
      destruct (step_frame ex a t) as (_ & _ & (evs & Hlog) & _).
      split; [rewrite Hlog, length_app; lia |].
      destruct K as [(Hf & Hp) | [Hin | Hp]].
      + destruct a as [r | j]; cbn [step].
        * unfold host_step. destruct Hp as [Hp | [Hp | Hp]]; rewrite Hp.
          -- destruct (should_close r); [right; right; cbn; auto |].
             cbn. rewrite Hf. left. cbn. auto.
          -- case_if; [left; auto |]. left. cbn. auto.
          -- right. left. rewrite conclude_goto. cbn.
             destruct (recreation_log ex (driver r) t) as (evs' & ->).
             rewrite drop_app_le by exact Hn. apply elem_of_app. right. left.
        * destruct (gpu_complete_fields j t) as (_ & _ & _ & G4 & _ & G6 & _).
          left. rewrite G4, G6. auto.
      + right. left. rewrite Hlog. apply elem_of_drop_app, Hin.
      + right. right. destruct Hp as [Hp | Hp].
        * destruct a as [r | j]; cbn [step].
          -- unfold host_step. rewrite Hp. case_if; cbn; auto.
          -- destruct (gpu_complete_fields j t) as (_ & _ & _ & _ & _ & G6 & _).
             rewrite G6. auto.
        * rewrite step_terminal by exact Hp. auto.
    - split; [subst n; lia |]. left. auto. }
  destruct K as (_ & [(_ & [E | [E | E]]) | [K | [E | [E | [E | E]]]]]);
    [congruence | congruence | congruence | exact K | congruence ..].
Qed.

Import PropsExtra.

(** *** The calls of the recreation branch *)

Lemma quiet_log_refl (s : State) : quiet_log s s.
Proof. exists []. rewrite app_nil_r. split; [reflexivity | constructor]. Qed.

Lemma quiet_log_trans (a b c : State) : quiet_log a b -> quiet_log b c -> quiet_log a c.
Proof.
  intros (e1 & A1 & A2) (e2 & B1 & B2). exists (e1 ++ e2).
  rewrite B1, A1, app_assoc. split; [reflexivity | apply Forall_app_2; assumption].
Qed.

Lemma quiet_log_emit (s s' : State) (ev : Event) :
  is_frame_event ev = false -> log s' = log s ++ [ev] -> quiet_log s s'.
Proof. intros H E. exists [ev]. split; [exact E | repeat constructor; exact H]. Qed.

Lemma quiet_log_same (s s' : State) : log s' = log s -> quiet_log s s'.
Proof. intros E. exists []. rewrite app_nil_r. split; [exact E | constructor]. Qed.

Lemma quiet_bind {A B} (m : M A) (k : A -> M B) :
  (forall s, quiet_log s (fst (m s))) -> (forall a s, quiet_log s (fst (k a s))) ->
  forall s, quiet_log s (fst (mbind m k s)).
Proof. apply frames_bind. exact quiet_log_trans. Qed.

Lemma quiet_when (b : bool) (m : M unit) :
  (forall s, quiet_log s (fst (m s))) -> forall s, quiet_log s (fst (when b m s)).
Proof. apply frames_when. exact quiet_log_refl. Qed.

Lemma quiet_assign_renderPass (d : Driver) (s : State) :
  quiet_log s (fst (assign_renderPass d s)).
Proof.
  rewrite assign_renderPass_run. destruct (succeeded _); [| apply quiet_log_refl].
  eapply quiet_log_emit; [| reflexivity]. reflexivity.
Qed.

Lemma quiet_assign_pipe (d : Driver) (s : State) : quiet_log s (fst (assign_pipe d s)).
Proof.
  rewrite assign_pipe_run. destruct (succeeded _); [| apply quiet_log_refl].
  eapply quiet_log_emit; [| reflexivity]. reflexivity.
Qed.

Lemma quiet_assign_alphaPipeline (d : Driver) (s : State) :
  quiet_log s (fst (assign_alphaPipeline d s)).
Proof.
  rewrite assign_alphaPipeline_run. destruct (succeeded _); [| apply quiet_log_refl].
  eapply quiet_log_emit; [| reflexivity]. reflexivity.
Qed.

Lemma quiet_assign_depthBuffer (d : Driver) (s : State) :
  quiet_log s (fst (assign_depthBuffer d s)).
Proof.
  rewrite assign_depthBuffer_run. destruct (succeeded _); [| apply quiet_log_refl].
  eapply quiet_log_emit; [| reflexivity]. reflexivity.
Qed.

Lemma quiet_clear_framebuffers (s : State) : quiet_log s (fst (clear_framebuffers s)).
Proof. eapply quiet_log_emit; [| reflexivity]. reflexivity. Qed.

Lemma quiet_create_framebuffers_loop (ex : Exercise) (d : Driver) (views : list Handle) :
  forall i s, quiet_log s (fst (create_framebuffers_loop ex d i views s)).
Proof.
  induction views as [|view rest IH]; intros i s; cbn [create_framebuffers_loop].
  - apply quiet_log_refl.
  - apply quiet_bind; [intros s0; apply quiet_log_refl |]. intros _.
    apply quiet_bind; [| intros _; apply IH].
    intros s0. eapply quiet_log_emit; [| reflexivity]. reflexivity.
Qed.

Lemma quiet_create_swapchain_framebuffers (ex : Exercise) (d : Driver) :
  forall s, quiet_log s (fst (create_swapchain_framebuffers ex d s)).
Proof.
  unfold create_swapchain_framebuffers.
  apply quiet_bind; [intros s; apply quiet_log_refl |]. intros s0.
  apply quiet_bind; [intros s; apply quiet_log_refl |]. intros _.
  apply quiet_bind; [apply quiet_create_framebuffers_loop |]. intros _.
  apply quiet_bind; [intros s; apply quiet_log_refl |]. intros s1 s. apply quiet_log_refl.
Qed.

(** Whatever its outcome, the recreation branch makes no call of a frame:
    no acquire, wait, reset, recording, submission or present. *)
Lemma quiet_recreation (ex : Exercise) (d : Driver) :
  forall s, quiet_log s (fst (recreation ex d s)).
Proof.
  unfold recreation. apply quiet_bind.
  { intros s. unfold call_recreate_swapchain.
    destruct (recreate_swapchain (platform d) (window s)) as [w r].
    eapply quiet_log_emit; [| reflexivity]. reflexivity. }
  intros ch. destruct ex; unfold rebuild.
  - apply quiet_bind; [apply quiet_when; intros s; apply quiet_assign_renderPass |].
    intros _. apply quiet_bind; [exact quiet_clear_framebuffers |].
    intros _. apply quiet_bind; [apply quiet_create_swapchain_framebuffers |].
    intros _. apply quiet_bind; [apply quiet_when; intros s; apply quiet_assign_pipe |].
    intros _ s. apply quiet_log_same. reflexivity.
  - apply quiet_bind; [apply quiet_when; intros s; apply quiet_assign_renderPass |].
    intros _. apply quiet_bind.
    { apply quiet_when. apply quiet_bind; [intros s; apply quiet_assign_pipe |].
      intros _. apply quiet_bind; [intros s; apply quiet_assign_alphaPipeline |].
      intros _ s. apply quiet_assign_depthBuffer. }
    intros _. apply quiet_bind; [exact quiet_clear_framebuffers |].
    intros _. apply quiet_bind; [apply quiet_create_swapchain_framebuffers |].
    intros _ s. apply quiet_log_same. reflexivity.
Qed.

(** The window after the recreation branch, whatever its outcome, is the
    one that [recreate_swapchain] leaves: the rebuilds do not touch it. *)
Lemma recreation_window (ex : Exercise) (d : Driver) (s : State) :
  window (fst (recreation ex d s)) = fst (recreate_swapchain (platform d) (window s)).
Proof.
  unfold recreation, mbind, call_recreate_swapchain.
  destruct (recreate_swapchain (platform d) (window s)) as [w [ch | e | x]];
    cbn [fst]; try reflexivity.
  change w with (window (emit (upd_window s w) EvRecreateSwapchain)) at 2.
  apply (frames_rebuild (fun a b => window b = window a));
    first [ reflexivity | intros a b c H1 H2; congruence ].
Qed.

(** The recreation branch goes on to the head of the loop only when
    [recreate_swapchain] and the rebuilds have returned. *)
Lemma recreation_returns (ex : Exercise) (d : Driver) (s : State) :
  pc (conclude (recreation ex d s) PcLoopHead) = PcLoopHead ->
  exists s', recreation ex d s = (s', Ok tt)
             /\ conclude (recreation ex d s) PcLoopHead = goto s' PcLoopHead.
Proof.
  destruct (recreation ex d s) as [s' [[] | e | x]]; cbn; try discriminate.
  intros _. exists s'. split; reflexivity.
Qed.

(** C4. When the acquire returns [VK_SUBOPTIMAL_KHR] or
    [VK_ERROR_OUT_OF_DATE_KHR], the loop sets [recreateSwapchain] and goes
    back to its head: the iteration has logged the acquire and nothing else,
    no record, no submit, no present, and the program has not ended.  In the
    next iteration the program polls the events and goes to the recreation
    branch: it waits for the device to be idle and, once that wait has
    returned, calls [recreate_swapchain] on the window, which is then the one
    that call leaves; the calls since the acquire are the poll, the wait and
    [recreate_swapchain] followed by the rebuilds, and no acquire.  When the
    branch returns, the flag is cleared and the following iteration is at the
    acquire again.  The program is never at the acquire again before it has
    called [recreate_swapchain].  Any other status than these two and
    [VK_SUCCESS] ends the loop with the exception that [main] reports. *)
Theorem stale_acquire_skips_frame (ex : Exercise) (r : Response) (s : State) :
  pc s = PcAcquire ->
  let s' := step ex (Host r) s in
  (status r = VK_SUBOPTIMAL_KHR \/ status r = VK_ERROR_OUT_OF_DATE_KHR ->
   pc s' = PcLoopHead /\ recreateSwapchain s' = true
   /\ log s' = log s ++ [EvAcquire (status r) (acquired r)]
   /\ cbfences s' = cbfences s /\ window s' = window s
   /\ (forall r', should_close r' = false -> pc (step ex (Host r') s') = PcWaitIdle)
   /\ (forall acts,
         pc (run ex acts s') = PcAcquire ->
         EvRecreateSwapchain ∈ events_since (length (log s')) (run ex acts s'))
   /\ (forall r2 r3 r4,
         should_close r2 = false ->
         let s2 := step ex (Host r2) s' in
         let s3 := step ex (Host r3) s2 in
         let s4 := step ex (Host r4) s3 in
         log s2 = log s' ++ [EvPollEvents]
         /\ (device_idle s2 = false -> status r3 = VK_SUCCESS -> s3 = s2)
         /\ (device_idle s2 = true \/ status r3 <> VK_SUCCESS ->
             pc s3 = PcRecreate
             /\ window s4 = fst (recreate_swapchain (platform (driver r4)) (window s))
             /\ (exists evs,
                   log s4 = log s' ++ [EvPollEvents; EvDeviceWaitIdle; EvRecreateSwapchain]
                                   ++ evs
                   /\ Forall (fun ev => is_frame_event ev = false) evs)
             /\ (pc s4 = PcLoopHead \/ pc s4 = PcExit1 \/ pc s4 = PcAborted)
             /\ (pc s4 = PcLoopHead ->
                 (exists ch, snd (recreate_swapchain (platform (driver r4)) (window s))
                             = Ok ch)
                 /\ recreateSwapchain s4 = false
                 /\ forall r5, should_close r5 = false ->
                      pc (step ex (Host r5) s4) = PcAcquire))))
  /\ (status r <> VK_SUCCESS -> status r <> VK_SUBOPTIMAL_KHR ->
      status r <> VK_ERROR_OUT_OF_DATE_KHR -> pc s' = PcExit1)
  /\ (status r = VK_SUCCESS -> pc s' = PcWaitFence \/ pc s' = PcAborted).
Proof.
  intros Hpc s'. split; [| split].
  - intros Hst. apply stale_cases in Hst.
    set (s1 := goto (upd_recreateSwapchain
                       (emit (upd_imageIndex s (acquired r))
                          (EvAcquire (status r) (acquired r))) true) PcLoopHead).
    assert (E1 : s' = s1).
    { subst s' s1. cbn [step]. unfold host_step. rewrite Hpc. cbn zeta. rewrite Hst.
      reflexivity. }
    clearbody s'. subst s'.
    split; [reflexivity |]. split; [reflexivity |]. split; [reflexivity |].
    split; [reflexivity |]. split; [reflexivity |]. split.
    { intros r' Hr'. cbn [step]. unfold host_step. cbn. rewrite Hr'. reflexivity. }
    split.
    { intros acts. apply recreation_precedes_acquire; reflexivity. }
    intros r2 r3 r4 Hr2. cbv zeta. cbn [step].
    assert (E2 : host_step ex r2 s1 = goto (emit s1 EvPollEvents) PcWaitIdle).
    { unfold host_step. cbn. rewrite Hr2. reflexivity. }
    rewrite E2. set (s2 := goto (emit s1 EvPollEvents) PcWaitIdle).
    split; [reflexivity |]. split.
    { intros Hidle Hs3. unfold host_step. cbn [pc s2 goto].
      rewrite Hidle, Hs3. reflexivity. }
    intros Hret.
    assert (E3 : host_step ex r3 s2 = goto (emit s2 EvDeviceWaitIdle) PcRecreate).
    { unfold host_step. cbn [pc s2 goto].
      destruct Hret as [Hidle | Hfail].
      - rewrite Hidle. reflexivity.
      - replace (succeeded (status r3)) with false
          by (symmetry; apply Z.eqb_neq; exact Hfail).
        rewrite andb_false_r. reflexivity. }
    rewrite E3. set (s3 := goto (emit s2 EvDeviceWaitIdle) PcRecreate).
    split; [reflexivity |].
    assert (E4 : host_step ex r4 s3 = conclude (recreation ex (driver r4) s3) PcLoopHead)
      by reflexivity.
    rewrite E4.
    split; [rewrite conclude_goto; cbn [window goto]; rewrite recreation_window;
            reflexivity |].
    split.
    { rewrite conclude_goto. cbn [log goto].
      destruct (recreation_log ex (driver r4) s3) as (evs & Hl).
      destruct (quiet_recreation ex (driver r4) s3) as (evs' & Hl' & Hq).
      exists evs. split; [rewrite Hl; cbn; rewrite <- !app_assoc; reflexivity |].
      rewrite Hl in Hl'. apply app_inv_head in Hl'. subst evs'.
      apply Forall_inv_tail in Hq. exact Hq. }
    split.
    { rewrite conclude_goto. cbn [pc goto].
      destruct (snd (recreation ex (driver r4) s3)); auto. }
    intros Hhead. apply recreation_returns in Hhead as (s4 & Hrec & Hgoto).
    rewrite Hgoto.
    apply recreation_ok in Hrec as (w' & ch & Hw & _ & _ & _ & _ & _ & _ & Hflag & _).
    split; [exists ch; change (window s3) with (window s) in Hw; rewrite Hw; reflexivity |].
    split; [exact Hflag |].
    intros r5 Hr5. cbn [step]. unfold host_step. cbn. rewrite Hr5, Hflag. reflexivity.
  - intros N1 N2 N3. subst s'. cbn [step]. unfold host_step. rewrite Hpc. cbn zeta.
    destruct (stale (status r)) eqn:E1; [apply stale_cases in E1; tauto |].
    destruct (succeeded (status r)) eqn:E2; [apply succeeded_cases in E2; tauto |].
    reflexivity.
  - intros E. subst s'. cbn [step]. unfold host_step. rewrite Hpc. cbn zeta.
    rewrite E. cbn. case_if; cbn; auto.
Qed.

Lemma stale_acquire_skips_frame_witness :
  let s := run Exercise3 [Host fine] (start Exercise3 2) in
  let s' := step Exercise3 (Host (answer false VK_ERROR_OUT_OF_DATE_KHR 0 (surface720 8 2))) s in
  let s4 := run Exercise3 [Host fine; Host fine; Host fine] s' in
  pc s' = PcLoopHead /\ recreateSwapchain s' = true
  /\ swapchain (window s) = 7 /\ swapchain (window s4) = 8
  /\ pc s4 = PcLoopHead /\ recreateSwapchain s4 = false.
Proof.
  cbv zeta.
  destruct (stale_acquire_skips_frame Exercise3
              (answer false VK_ERROR_OUT_OF_DATE_KHR 0 (surface720 8 2))
              (run Exercise3 [Host fine] (start Exercise3 2)) eq_refl) as (H & _).
  destruct (H (or_intror eq_refl)) as (H1 & H2 & _ & _ & _ & _ & _ & H8).
  destruct (H8 fine fine fine eq_refl) as (_ & _ & H9).
  destruct (H9 (or_introl eq_refl)) as (_ & Hw & _ & _ & H10).
  destruct (H10 eq_refl) as (_ & Hflag & _).
  split; [exact H1 |]. split; [exact H2 |]. split; [reflexivity |].
  split; [exact (eq_trans (f_equal swapchain Hw) eq_refl) |].
  split; [reflexivity | exact Hflag].
Defined.

(** C5. When the present that follows a successful submit returns
    [VK_SUBOPTIMAL_KHR] or [VK_ERROR_OUT_OF_DATE_KHR], the loop only sets
    [recreateSwapchain] and goes back to its head: the fences are as the
    submit left them, so the submission of the frame is still in flight and
    the GPU finishing it signals the fence of the slot; the program is not at
    the acquire again before it has called [recreate_swapchain].  Any other
    status than these two and [VK_SUCCESS] ends the loop with the exception
    that [main] reports. *)
Theorem stale_present_keeps_submission (ex : Exercise) (r_submit r : Response) (s : State)
    (f : Fence) :
  pc s = PcSubmit -> cbfences s !! imageIndex s = Some f -> status r_submit = VK_SUCCESS ->
  let i := imageIndex s in
  let s1 := step ex (Host r_submit) s in
  let s2 := step ex (Host r) s1 in
  pc s1 = PcPresent
  /\ cbfences s1 !! i = Some {| signaled := signaled f; pending := S (pending f) |}
  /\ (status r = VK_SUBOPTIMAL_KHR \/ status r = VK_ERROR_OUT_OF_DATE_KHR ->
      pc s2 = PcLoopHead /\ recreateSwapchain s2 = true
      /\ cbfences s2 = cbfences s1
      /\ log s2 = log s ++ [EvSubmit i; EvPresent i (status r)]
      /\ cbfences (step ex (GpuComplete i) s2) !! i
         = Some {| signaled := true; pending := pending f |}
      /\ (forall acts,
            pc (run ex acts s2) = PcAcquire ->
            EvRecreateSwapchain ∈ events_since (length (log s2)) (run ex acts s2)))
  /\ (status r <> VK_SUCCESS -> status r <> VK_SUBOPTIMAL_KHR ->
      status r <> VK_ERROR_OUT_OF_DATE_KHR -> pc s2 = PcExit1)
  /\ (status r = VK_SUCCESS ->
      pc s2 = PcLoopHead /\ recreateSwapchain s2 = recreateSwapchain s
      /\ cbfences s2 = cbfences s1).
Proof.
  intros Hpc Hf Hok i s1 s2.
  assert (Hlt : (imageIndex s < length (cbfences s))%nat) by (eapply lookup_lt_Some; exact Hf).
  assert (E1 : s1 = goto (emit (upd_cbfences s
                                  (<[i := {| signaled := signaled f; pending := S (pending f) |}]>
                                     (cbfences s)))
                               (EvSubmit i)) PcPresent).
  { subst s1 i. cbn [step]. unfold host_step. rewrite Hpc, Hok. cbn.
    unfold queue_submit. rewrite Hf. reflexivity. }
  assert (L1 : cbfences s1 !! i = Some {| signaled := signaled f; pending := S (pending f) |}).
  { rewrite E1. cbn. apply list_lookup_insert_eq. exact Hlt. }
  split; [rewrite E1; reflexivity |]. split; [exact L1 |].
  assert (E2 : s2 = host_step ex r s1) by reflexivity.
  assert (P1 : pc s1 = PcPresent) by (rewrite E1; reflexivity).
  assert (I1 : imageIndex s1 = i) by (rewrite E1; reflexivity).
  assert (G1 : log s1 = log s ++ [EvSubmit i]) by (rewrite E1; reflexivity).
  assert (R1 : recreateSwapchain s1 = recreateSwapchain s) by (rewrite E1; reflexivity).
  clearbody s2 s1. unfold host_step in E2. rewrite P1, I1 in E2. cbn zeta in E2.
  split; [| split].
  - intros Hst. apply stale_cases in Hst. rewrite Hst in E2.
    split; [subst s2; reflexivity |]. split; [subst s2; reflexivity |].
    split; [subst s2; reflexivity |].
    split; [subst s2; cbn; rewrite G1, <- app_assoc; reflexivity |].
    split.
    + subst s2. cbn [step]. unfold gpu_complete. cbn. rewrite L1. cbn.
      apply list_lookup_insert_eq. eapply lookup_lt_Some. exact L1.
    + intros acts. apply recreation_precedes_acquire; subst s2; reflexivity.
  - intros N1 N2 N3.
    destruct (stale (status r)) eqn:S1; [apply stale_cases in S1; tauto |].
    destruct (succeeded (status r)) eqn:S2; [apply succeeded_cases in S2; tauto |].
    subst s2. reflexivity.
  - intros E. rewrite E in E2. cbn in E2. subst s2. cbn. auto.
Qed.

Lemma stale_present_keeps_submission_witness :
  let s := run Exercise3 to_submit (start Exercise3 2) in
  let s2 := run Exercise3 [Host fine; Host (answer false VK_SUBOPTIMAL_KHR 0 (surface720 8 2))] s in
  pc s2 = PcLoopHead /\ recreateSwapchain s2 = true
  /\ cbfences (step Exercise3 (GpuComplete 0) s2) !! 0%nat
     = Some {| signaled := true; pending := 0 |}.
Proof.
  cbv zeta.
  destruct (stale_present_keeps_submission Exercise3 fine
              (answer false VK_SUBOPTIMAL_KHR 0 (surface720 8 2))
              (run Exercise3 to_submit (start Exercise3 2))
              {| signaled := false; pending := 0 |} eq_refl eq_refl eq_refl)
    as (_ & _ & H & _).
  destruct (H (or_introl eq_refl)) as (H1 & H2 & _ & _ & H5 & _).
  split; [exact H1 |]. split; [exact H2 | exact H5].
Defined.

Lemma extent_eqb_eq (a b : VkExtent2D) : extent_eqb a b = true <-> a = b.
Proof.
  unfold extent_eqb. rewrite andb_true_iff, !Z.eqb_eq. destruct a, b; cbn.
  split; [intros [-> ->]; reflexivity | intros [= -> ->]; auto].
Qed.

Lemma framebuffer_events_not_frame (e : VkExtent2D) (first n : nat) :
  Forall (fun ev => is_frame_event ev = false) (framebuffer_events e first n).
Proof.
  unfold framebuffer_events. apply Forall_forall. intros ev Hev.
  apply list_elem_of_fmap in Hev as (i & -> & _). reflexivity.
Qed.

Lemma recreation_events_not_frame (ex : Exercise) (cf cs : bool) (f : VkFormat)
    (e : VkExtent2D) (n : nat) :
  Forall (fun ev => is_frame_event ev = false) (recreation_events ex cf cs f e n).
Proof.
  assert (One : forall ev, is_frame_event ev = false ->
                Forall (fun ev => is_frame_event ev = false) [ev])
    by (intros ev H; constructor; [exact H | constructor]).
  assert (Opt : forall (b : bool) l,
                Forall (fun ev => is_frame_event ev = false) l ->
                Forall (fun ev => is_frame_event ev = false) (if b then l else []))
    by (intros [] l H; [exact H | constructor]).
  destruct ex; unfold recreation_events.
  - apply Forall_app_2; [apply One; reflexivity |].
    apply Forall_app_2; [apply Opt, One; reflexivity |].
    apply Forall_app_2; [apply One; reflexivity |].
    apply Forall_app_2; [apply framebuffer_events_not_frame |].
    apply Opt, One. reflexivity.
  - apply Forall_app_2; [apply One; reflexivity |].
    apply Forall_app_2; [apply Opt, One; reflexivity |].
    apply Forall_app_2; [apply Opt; repeat constructor |].
    apply Forall_app_2; [apply One; reflexivity |].
    apply framebuffer_events_not_frame.
Qed.

(** C6, as stated: in exercise 4, a recreation that leaves the size of the
    swapchain as it was builds the framebuffers again and no depth buffer. *)
Lemma recreation_same_size_keeps_depth_buffer :
  let s := run Exercise4 same_run (start Exercise4 2) in
  let s' := step Exercise4 (Host fine) s in
  pc s = PcRecreate /\ recreateSwapchain s = true
  /\ pc s' = PcLoopHead /\ recreateSwapchain s' = false
  /\ events_since (length (log s)) s'
     = [EvRecreateSwapchain; EvClearFramebuffers;
        EvCreateFramebuffer 0 (extent 1280 720); EvCreateFramebuffer 1 (extent 1280 720)]
  /\ depthBuffer s = Some {| depth_view := 300; depth_extent := extent 1280 720 |}
  /\ depthBuffer s' = depthBuffer s.
Proof.
  cbv zeta.
  repeat match goal with
         | |- _ /\ _ => split
         end; vm_compute; reflexivity.
Qed.

(** C6, amended.  In an iteration with recreation pending the loop polls
    the events and waits for the device to be idle (it does not look at the
    status of that wait), then calls [recreate_swapchain].  When nothing
    throws, it builds the render pass again if and only if the format
    changed, the pipelines and, in exercise 4, the depth buffer if and only if
    the size changed, and always the framebuffers, one per view and of the
    new extent; it clears the pending flag and goes back to the head of the
    loop without an acquire, record, submit or present.  When something
    throws, the loop ends. *)
Theorem recreation_iteration (ex : Exercise) (r : Response) (s : State) :
  let s' := step ex (Host r) s in
  (pc s = PcLoopHead -> recreateSwapchain s = true -> should_close r = false ->
   pc s' = PcWaitIdle /\ recreateSwapchain s' = true /\ log s' = log s ++ [EvPollEvents])
  /\ (pc s = PcWaitIdle ->
      (s' = s /\ device_idle s = false /\ status r = VK_SUCCESS)
      \/ (pc s' = PcRecreate /\ log s' = log s ++ [EvDeviceWaitIdle]
          /\ recreateSwapchain s' = recreateSwapchain s /\ window s' = window s
          /\ cbfences s' = cbfences s
          /\ (status r = VK_SUCCESS -> device_idle s' = true)))
  /\ (pc s = PcRecreate ->
      pc s' = PcLoopHead \/ pc s' = PcExit1 \/ pc s' = PcAborted)
  /\ (pc s = PcRecreate -> pc s' = PcLoopHead ->
      let f' := swapchainFormat (window s') in
      let e' := swapchainExtent (window s') in
      let cf := negb (swapchainFormat (window s) =? f') in
      let cs := negb (extent_eqb (swapchainExtent (window s)) e') in
      (exists ch, recreate_swapchain (platform (driver r)) (window s) = (window s', Ok ch))
      /\ renderPass s' = (if cf then f' else renderPass s)
      /\ pipe s' = (if cs then e' else pipe s)
      /\ (ex = Exercise4 ->
          alphaPipeline s' = (if cs then Some e' else alphaPipeline s)
          /\ depth_extent <$> depthBuffer s'
             = (if cs then Some e' else depth_extent <$> depthBuffer s))
      /\ framebuffers s' = window_framebuffers ex s'
      /\ recreateSwapchain s' = false
      /\ cbfences s' = cbfences s /\ cbuffers s' = cbuffers s
      /\ log s' = log s ++ recreation_events ex cf cs f' e' (length (swapViews (window s')))
      /\ Forall (fun ev => is_frame_event ev = false) (events_since (length (log s)) s')
      /\ (renderPass s = swapchainFormat (window s) -> renderPass s' = f')
      /\ (pipe s = swapchainExtent (window s) -> pipe s' = e')
      /\ (depth_extent <$> depthBuffer s = Some (swapchainExtent (window s)) ->
          ex = Exercise4 -> depth_extent <$> depthBuffer s' = Some e')).
Proof.
  cbn zeta. cbn [step]. unfold host_step. split; [| split; [| split]].
  - intros Hpc Hf Hc. rewrite Hpc, Hc. cbn. rewrite Hf. cbn. auto.
  - intros Hpc. rewrite Hpc. destruct (device_idle s) eqn:Hi; cbn [negb andb].
    + right. cbn. repeat split. intros _. exact Hi.
    + destruct (succeeded (status r)) eqn:Hs.
      * left. apply succeeded_cases in Hs. auto.
      * right. cbn. repeat split. intros E. apply succeeded_cases in E. congruence.
  - intros Hpc. rewrite Hpc, conclude_goto. cbn.
    destruct (snd (recreation ex (driver r) s)); auto.
  - intros Hpc. rewrite Hpc.
    destruct (recreation ex (driver r) s) as [s1 [[] | err | x]] eqn:Hr; cbn [conclude];
      try (cbn; discriminate).
    intros _.
    apply recreation_ok in Hr
      as (w' & ch & Hw & H1 & H2 & H3 & H4 & H5 & H6 & H7 & H8 & H9 & H10 & H11 & H12).
    pose proof (WindowSpec.recreate_swapchain_ok _ _ _ _ Hw) as (_ & Hcf & Hcs & _).
    unfold events_since.
    cbn [window renderPass pipe alphaPipeline depthBuffer framebuffers recreateSwapchain
         cbfences cbuffers log goto].
    change (window_framebuffers ex (goto s1 PcLoopHead)) with (window_framebuffers ex s1).
    rewrite H1, H2, H3, H4, H5, H7, H8, H9, H12, <- Hcf, <- Hcs.
    rewrite drop_app_length.
    split; [exists ch; exact Hw |]. split; [reflexivity |]. split; [reflexivity |].
    split; [intros ->; split; [reflexivity |]; destruct (changedSize ch); reflexivity |].
    split; [exact H6 |]. split; [reflexivity |].
    split; [reflexivity |]. split; [reflexivity |]. split; [reflexivity |].
    split; [apply recreation_events_not_frame |].
    split; [| split].
    + intros E. destruct (changedFormat ch); [reflexivity |].
      rewrite E. symmetry in Hcf. apply negb_false_iff, Z.eqb_eq in Hcf. exact Hcf.
    + intros E. destruct (changedSize ch); [reflexivity |].
      rewrite E. symmetry in Hcs. apply negb_false_iff, extent_eqb_eq in Hcs. exact Hcs.
    + intros E ->. destruct (changedSize ch); [reflexivity |].
      rewrite E. symmetry in Hcs. apply negb_false_iff, extent_eqb_eq in Hcs. rewrite Hcs.
      reflexivity.
Qed.

Lemma recreation_iteration_witness :
  let s := run Exercise3 [Host fine; Host (answer false VK_ERROR_OUT_OF_DATE_KHR 0 (surface720 8 2));
                          Host fine; Host fine] (start Exercise3 2) in
  let s' := step Exercise3 (Host (answer false VK_SUCCESS 0 surfaceA)) s in
  pc s = PcRecreate /\ pc s' = PcLoopHead /\ recreateSwapchain s' = false
  /\ pipe s' = extent 800 600.
Proof.
  cbv zeta.
  destruct (recreation_iteration Exercise3 (answer false VK_SUCCESS 0 surfaceA)
              (run Exercise3 [Host fine;
                              Host (answer false VK_ERROR_OUT_OF_DATE_KHR 0 (surface720 8 2));
                              Host fine; Host fine] (start Exercise3 2)))
    as (_ & _ & _ & H).
  destruct (H eq_refl eq_refl) as (_ & _ & _ & _ & _ & Hflag & _ & _ & _ & _ & _ & Hpipe & _).
  split; [reflexivity |]. split; [reflexivity |]. split; [exact Hflag |].
  exact (Hpipe eq_refl).
Defined.

End LoopSpec.

(** ** More about [create_swapchain] and [recreate_swapchain] *)
Module WindowExtra.

Import Window Scenario ScenarioExtra Props.

Lemma select_format_loop_split (formats : list VkSurfaceFormatKHR) (d : VkSurfaceFormatKHR) :
  (exists g, g ∈ formats /\ preferred g) ->
  exists l1 l2,
    formats = l1 ++ select_format_loop formats d :: l2
    /\ Forall (fun g => ~ preferred g) l1.
Proof.
  induction formats as [|c rest IH]; intros (g & Hin & Hg); [inversion Hin |].
  cbn [select_format_loop].
  destruct (is_rgba_srgb c) eqn:Ha; [exists [], rest; split; [reflexivity | constructor] |].
  destruct (is_bgra_srgb c) eqn:Hb; [exists [], rest; split; [reflexivity | constructor] |].
  assert (Hc : ~ preferred c).
  { rewrite WindowSpec.preferred_tests. intros [E | E]; congruence. }
  apply elem_of_cons in Hin as [-> | Hin]; [contradiction |].
  destruct IH as (l1 & l2 & E & F); [eauto |].
  exists (c :: l1), l2. split; [cbn; f_equal; exact E | constructor; assumption].
Qed.

(** X1. The format that [create_swapchain] returns is that of the first
    preferred format in the order of the surface's list: no format before it
    is preferred; when the list has no preferred format, it is that of the
    head of the list. *)
Theorem create_swapchain_first_preferred (p : Platform) (q : list Z) (old h : Handle)
    (fmt : VkFormat) (e : VkExtent2D) :
  create_swapchain p q old = Ok (h, fmt, e) ->
  exists l1 f l2,
    surface_formats p = l1 ++ f :: l2
    /\ fmt = format f
    /\ Forall (fun g => ~ preferred g) l1
    /\ (preferred f \/ (l1 = [] /\ Forall (fun g => ~ preferred g) l2)).
Proof.
  intros H. apply WindowSpec.create_swapchain_inv in H as (first & rest & Hf & -> & _).
  rewrite Hf. destruct (WindowSpec.classic_preferred (first :: rest)) as [Hex | Hno].
  - destruct (select_format_loop_split (first :: rest) first Hex) as (l1 & l2 & E & F).
    exists l1, (select_format_loop (first :: rest) first), l2.
    split; [exact E |]. split; [reflexivity |]. split; [exact F |].
    left. apply WindowSpec.select_format_loop_found, Hex.
  - rewrite WindowSpec.select_format_loop_default by exact Hno.
    exists [], first, rest. split; [reflexivity |]. split; [reflexivity |].
    split; [constructor |]. right. split; [reflexivity |].
    apply Forall_forall. intros g Hg. apply Hno. right. exact Hg.
Qed.

Lemma create_swapchain_first_preferred_witness :
  exists l1 f l2,
    surface_formats surface_mixed = l1 ++ f :: l2
    /\ VK_FORMAT_B8G8R8A8_SRGB = format f
    /\ Forall (fun g => ~ preferred g) l1
    /\ (preferred f \/ (l1 = [] /\ Forall (fun g => ~ preferred g) l2)).
Proof.
  exact (create_swapchain_first_preferred surface_mixed [] 0 7 VK_FORMAT_B8G8R8A8_SRGB
           (extent 1280 720) eq_refl).
Defined.

Lemma swapchain_info_inv (p : Platform) (q : list Z) (old : Handle)
    (info : VkSwapchainCreateInfoKHR) :
  swapchain_info p q old = Ok info ->
  queries_succeed p /\ surface_formats p <> []
  /\ ci_presentMode info = select_present_mode (surface_present_modes p)
  /\ ci_oldSwapchain info = old
  /\ ci_imageSharingMode info
     = (if negb (Nat.leb (length q) 1) then VK_SHARING_MODE_CONCURRENT
        else VK_SHARING_MODE_EXCLUSIVE)
  /\ ci_queueFamilyIndices info = (if negb (Nat.leb (length q) 1) then q else []).
Proof.
  unfold swapchain_info, get_surface_formats, get_present_modes, check, queries_succeed.
  destruct (formats_count_res p =? VK_SUCCESS) eqn:E1; [| discriminate].
  destruct (formats_fill_res p =? VK_SUCCESS) eqn:E2; [| discriminate].
  destruct (modes_count_res p =? VK_SUCCESS) eqn:E3; [| discriminate].
  destruct (modes_fill_res p =? VK_SUCCESS) eqn:E4; [| discriminate].
  cbn [bind]. destruct (surface_formats p) as [|first rest]; [discriminate |].
  cbn [select_format bind].
  destruct (capabilities_res p =? VK_SUCCESS) eqn:E5; [| discriminate].
  cbn [bind]. intros [= <-]. cbn.
  apply Z.eqb_eq in E1, E2, E3, E4, E5. repeat split; try assumption. discriminate.
Qed.

(** X2. [create_swapchain] asks for [VK_PRESENT_MODE_FIFO_RELAXED_KHR] when the
    surface lists that mode, and for [VK_PRESENT_MODE_FIFO_KHR] otherwise,
    whatever else the surface lists. *)
Theorem create_swapchain_present_mode (p : Platform) (q : list Z) (old : Handle)
    (info : VkSwapchainCreateInfoKHR) :
  swapchain_info p q old = Ok info ->
  (VK_PRESENT_MODE_FIFO_RELAXED_KHR ∈ surface_present_modes p ->
   ci_presentMode info = VK_PRESENT_MODE_FIFO_RELAXED_KHR)
  /\ (VK_PRESENT_MODE_FIFO_RELAXED_KHR ∉ surface_present_modes p ->
      ci_presentMode info = VK_PRESENT_MODE_FIFO_KHR).
Proof.
  intros H. apply swapchain_info_inv in H as (_ & _ & -> & _).
  unfold select_present_mode, modes_count.
  destruct (existsb _ _) eqn:E.
  - split; [reflexivity |]. intros Hn. exfalso. apply Hn.
    apply existsb_exists in E as (m & Hm & Heq). apply Z.eqb_eq in Heq. subst m.
    apply list_elem_of_In. exact Hm.
  - split; [| reflexivity]. intros Hin. exfalso.
    rewrite <- not_true_iff_false in E. apply E. apply existsb_exists.
    exists VK_PRESENT_MODE_FIFO_RELAXED_KHR. split; [apply list_elem_of_In, Hin |].
    apply Z.eqb_refl.
Qed.

Lemma create_swapchain_present_mode_witness :
  exists info,
    swapchain_info surfaceA [] 0 = Ok info
    /\ ci_presentMode info = VK_PRESENT_MODE_FIFO_KHR.
Proof.
  eexists. split; [reflexivity |].
  apply (create_swapchain_present_mode surfaceA [] 0 _ eq_refl).
  intros H. vm_compute in H. apply list_elem_of_In in H. destruct H as [H | []].
  discriminate.
Defined.

(** X3. A successful recreation got its chain from the driver with a create
    info that names the chain of the window as its predecessor, and that
    shares the images between the graphics and the present queue family
    exactly when the two differ. *)
Theorem recreate_swapchain_predecessor (p : Platform) (w w' : VulkanWindow) (ch : SwapChanges) :
  recreate_swapchain p w = (w', Ok ch) ->
  exists info,
    swapchain_info p (queue_families w) (swapchain w) = Ok info
    /\ vkCreateSwapchainKHR p info = (VK_SUCCESS, swapchain w')
    /\ ci_oldSwapchain info = swapchain w
    /\ (presentFamilyIndex w = graphicsFamilyIndex w ->
        ci_imageSharingMode info = VK_SHARING_MODE_EXCLUSIVE
        /\ ci_queueFamilyIndices info = [])
    /\ (presentFamilyIndex w <> graphicsFamilyIndex w ->
        ci_imageSharingMode info = VK_SHARING_MODE_CONCURRENT
        /\ ci_queueFamilyIndices info = [graphicsFamilyIndex w; presentFamilyIndex w]).
Proof.
  intros H. apply WindowSpec.recreate_swapchain_ok in H as (_ & _ & _ & _ & _ & H).
  unfold create_swapchain in H.
  destruct (swapchain_info p (queue_families w) (swapchain w)) as [info | err | x] eqn:Hi;
    try discriminate.
  cbn [bind] in H. destruct (vkCreateSwapchainKHR p info) as [res h] eqn:Hv.
  unfold check in H. destruct (res =? VK_SUCCESS) eqn:Hres; [| discriminate].
  cbn [bind] in H. injection H as <- _ _. apply Z.eqb_eq in Hres. subst res.
  exists info. split; [reflexivity |]. split; [exact Hv |].
  apply swapchain_info_inv in Hi as (_ & _ & _ & Hold & Hmode & Hidx).
  split; [exact Hold |]. rewrite Hmode, Hidx. unfold queue_families. split.
  - intros E. rewrite E, Z.eqb_refl. cbn. auto.
  - intros E. apply Z.eqb_neq in E. rewrite E. cbn. auto.
Qed.

Lemma recreate_swapchain_predecessor_witness :
  exists info,
    swapchain_info surfaceA (queue_families window2) (swapchain window2) = Ok info
    /\ ci_oldSwapchain info = 7.
Proof.
  destruct (recreate_swapchain_predecessor surfaceA window2
              (fst (recreate_swapchain surfaceA window2))
              {| changedSize := true; changedFormat := false |} eq_refl)
    as (info & H1 & _ & H3 & _).
  exists info. split; [exact H1 | exact H3].
Defined.

(** X4. [create_swapchain] returns exactly when the driver answers the five
    queries with [VK_SUCCESS], lists at least one format and creates the
    swapchain; it stops at its assert exactly when the formats and the modes
    were enumerated and no format was listed; in every other case it
    throws. *)
Theorem create_swapchain_outcomes (p : Platform) (q : list Z) (old : Handle) :
  ((exists r, create_swapchain p q old = Ok r) <->
   queries_succeed p /\ surface_formats p <> []
   /\ exists info, swapchain_info p q old = Ok info
                   /\ fst (vkCreateSwapchainKHR p info) = VK_SUCCESS)
  /\ ((exists x, create_swapchain p q old = Abort x) <->
      formats_count_res p = VK_SUCCESS /\ formats_fill_res p = VK_SUCCESS
      /\ modes_count_res p = VK_SUCCESS /\ modes_fill_res p = VK_SUCCESS
      /\ surface_formats p = []).
Proof.
  split; split.
  - intros (r & H). unfold create_swapchain in H.
    destruct (swapchain_info p q old) as [info | err | x] eqn:Hi; try discriminate.
    cbn [bind] in H. destruct (vkCreateSwapchainKHR p info) as [res h] eqn:Hv.
    unfold check in H. destruct (res =? VK_SUCCESS) eqn:Hres; [| discriminate].
    apply Z.eqb_eq in Hres. pose proof (swapchain_info_inv _ _ _ _ Hi) as (Hq & Hne & _).
    split; [exact Hq |]. split; [exact Hne |]. exists info. rewrite Hv. auto.
  - intros (Hq & Hne & info & Hi & Hres). unfold create_swapchain. rewrite Hi. cbn [bind].
    destruct (vkCreateSwapchainKHR p info) as [res h]. cbn in Hres. subst res.
    cbn. eauto.
  - intros (x & H). unfold create_swapchain, swapchain_info, get_surface_formats,
      get_present_modes, check in H.
    destruct (formats_count_res p =? VK_SUCCESS) eqn:E1; [| discriminate].
    destruct (formats_fill_res p =? VK_SUCCESS) eqn:E2; [| discriminate].
    destruct (modes_count_res p =? VK_SUCCESS) eqn:E3; [| discriminate].
    destruct (modes_fill_res p =? VK_SUCCESS) eqn:E4; [| discriminate].
    apply Z.eqb_eq in E1, E2, E3, E4. repeat split; try assumption.
    cbn [bind] in H. destruct (surface_formats p) as [|first rest]; [reflexivity |].
    exfalso. cbn [select_format bind] in H.
    destruct (capabilities_res p =? VK_SUCCESS); [| discriminate].
    cbn [bind] in H. destruct (vkCreateSwapchainKHR p _) as [res h].
    destruct (res =? VK_SUCCESS); discriminate.
  - intros (E1 & E2 & E3 & E4 & Hf).
    unfold create_swapchain, swapchain_info, get_surface_formats, get_present_modes.
    rewrite E1, E2, E3, E4, Hf. cbn. eauto.
Qed.

(** X5. What a recreation returns depends on the surface alone: when two
    recreations in a row succeed and the surface reports the same formats,
    capabilities and drawable size to both, the second one reports no change
    of format and no change of size. *)
Theorem recreate_swapchain_twice (p1 p2 : Platform) (w w1 w2 : VulkanWindow)
    (ch1 ch2 : SwapChanges) :
  recreate_swapchain p1 w = (w1, Ok ch1) ->
  recreate_swapchain p2 w1 = (w2, Ok ch2) ->
  surface_formats p2 = surface_formats p1 ->
  surface_capabilities p2 = surface_capabilities p1 ->
  framebuffer_size p2 = framebuffer_size p1 ->
  changedFormat ch2 = false /\ changedSize ch2 = false
  /\ swapchainFormat w2 = swapchainFormat w1 /\ swapchainExtent w2 = swapchainExtent w1.
Proof.
  intros H1 H2 Ef Ec Es.
  apply WindowSpec.recreate_swapchain_ok in H1 as (_ & _ & _ & _ & _ & C1).
  apply WindowSpec.recreate_swapchain_ok in H2 as (_ & F2 & S2 & _ & _ & C2).
  apply WindowSpec.create_swapchain_inv in C1 as (a1 & r1 & L1 & Fm1 & Ex1).
  apply WindowSpec.create_swapchain_inv in C2 as (a2 & r2 & L2 & Fm2 & Ex2).
  rewrite Ef, L1 in L2. injection L2 as <- <-. rewrite Ec, Es in Ex2.
  assert (Efmt : swapchainFormat w2 = swapchainFormat w1) by congruence.
  assert (Eext : swapchainExtent w2 = swapchainExtent w1) by congruence.
  rewrite F2, S2, Efmt, Eext, Z.eqb_refl. unfold extent_eqb. rewrite !Z.eqb_refl.
  repeat split.
Qed.

Lemma recreate_swapchain_twice_witness :
  changedFormat (Build_SwapChanges false false) = false
  /\ changedSize (Build_SwapChanges false false) = false
  /\ swapchainFormat (fst (recreate_swapchain surfaceA (fst (recreate_swapchain surfaceA window2))))
     = swapchainFormat (fst (recreate_swapchain surfaceA window2))
  /\ swapchainExtent (fst (recreate_swapchain surfaceA (fst (recreate_swapchain surfaceA window2))))
     = swapchainExtent (fst (recreate_swapchain surfaceA window2)).
Proof.
  exact (recreate_swapchain_twice surfaceA surfaceA window2
           (fst (recreate_swapchain surfaceA window2))
           (fst (recreate_swapchain surfaceA (fst (recreate_swapchain surfaceA window2))))
           (Build_SwapChanges true false) (Build_SwapChanges false false)
           eq_refl eq_refl eq_refl eq_refl eq_refl).
Defined.

(** X6. [recreate_swapchain] reports a changed format exactly when the format
    of the window differs from the one before the call, and a changed size
    exactly when the width or the height does. *)
Theorem recreate_swapchain_changes (p : Platform) (w w' : VulkanWindow) (ch : SwapChanges) :
  recreate_swapchain p w = (w', Ok ch) ->
  (changedFormat ch = true <-> swapchainFormat w' <> swapchainFormat w)
  /\ (changedSize ch = true <->
      width (swapchainExtent w') <> width (swapchainExtent w)
      \/ height (swapchainExtent w') <> height (swapchainExtent w)).
Proof.
  intros H. apply WindowSpec.recreate_swapchain_ok in H as (_ & -> & -> & _).
  unfold extent_eqb. rewrite !negb_true_iff, andb_false_iff, !Z.eqb_neq.
  split; [split; congruence |]. split; (intros [E | E]; [left | right]; congruence).
Qed.

Lemma recreate_swapchain_changes_witness :
  width (swapchainExtent (fst (recreate_swapchain surfaceA window2)))
  <> width (swapchainExtent window2)
  \/ height (swapchainExtent (fst (recreate_swapchain surfaceA window2)))
     <> height (swapchainExtent window2).
Proof.
  exact (proj1 (proj2 (recreate_swapchain_changes surfaceA window2
                         (fst (recreate_swapchain surfaceA window2))
                         (Build_SwapChanges true false) eq_refl)) eq_refl).
Defined.

Lemma create_views_loop_throw (p : Platform) (f : VkFormat) (images : list Handle) :
  forall (i : nat) (views views' : list Handle) (err : Error),
    create_views_loop p f i images views = (views', Throw err) ->
    (length views <= length views' < length views + length images)%nat
    /\ exists res, err = MkError "vkCreateImageView" res /\ res <> VK_SUCCESS.
Proof.
  induction images as [|image rest IH]; intros i views views' err H; cbn in H;
    [discriminate |].
  destruct (vkCreateImageView p i image f) as [res v]. unfold check in H.
  destruct (res =? VK_SUCCESS) eqn:E.
  - apply IH in H as (Hl & Hr). rewrite length_app in Hl. cbn in *. split; [lia | exact Hr].
  - injection H as <- <-. apply Z.eqb_neq in E. cbn. split; [lia | eauto].
Qed.

Lemma fetch_images_and_views_throw (p : Platform) (w w' : VulkanWindow) (err : Error) :
  fetch_images_and_views p w = (w', Throw err) -> swapViews w = [] ->
  swapchain w' = swapchain w /\ swapchainFormat w' = swapchainFormat w
  /\ swapchainExtent w' = swapchainExtent w
  /\ (length (swapViews w') < length (swapImages w'))%nat
  /\ exists res, err = MkError "vkCreateImageView" res /\ res <> VK_SUCCESS.
Proof.
  unfold fetch_images_and_views, get_swapchain_images, assert at 1. intros H Hv.
  destruct (Nat.eqb 0 (length (swapImages w))); cbn [bind] in H; [| discriminate].
  assert (G : forall images,
    (let '(views, r) :=
       create_swapchain_image_views p (swapchainFormat (set_images w images))
         (swapImages (set_images w images)) (swapViews (set_images w images)) in
     (set_views (set_images w images) views, r)) = (w', Throw err) ->
    swapchain w' = swapchain w /\ swapchainFormat w' = swapchainFormat w
    /\ swapchainExtent w' = swapchainExtent w
    /\ (length (swapViews w') < length (swapImages w'))%nat
    /\ exists res, err = MkError "vkCreateImageView" res /\ res <> VK_SUCCESS).
  { intros images. unfold create_swapchain_image_views. cbn [swapViews set_images].
    rewrite Hv. cbn [length Nat.eqb assert].
    destruct (create_views_loop p _ 0 _ []) as [views r] eqn:Hl.
    destruct r as [[] | err' | x]; cbn [bind].
    - unfold assert. destruct (Nat.eqb _ _); intros [= _ ?]; discriminate.
    - intros [= <- <-]. apply create_views_loop_throw in Hl as (Hlen & Hr).
      cbn in *. split; [reflexivity |]. split; [reflexivity |]. split; [reflexivity |].
      split; [lia | exact Hr].
    - intros E. congruence. }
  destruct (negb (images_count_res p =? VK_SUCCESS)); exact (G _ H).
Qed.

(** X7. A recreation is not undone when it fails after the driver has created
    the new chain: when [create_swapchain] has returned and
    [recreate_swapchain] throws, the error is that of a failed
    [vkCreateImageView], and the window holds the handle, format and extent
    of the new chain with fewer views than images. *)
Theorem recreate_failure_after_creation (p : Platform) (w w' : VulkanWindow) (err : Error)
    (h : Handle) (f : VkFormat) (e : VkExtent2D) :
  create_swapchain p (queue_families w) (swapchain w) = Ok (h, f, e) ->
  recreate_swapchain p w = (w', Throw err) ->
  swapchain w' = h /\ swapchainFormat w' = f /\ swapchainExtent w' = e
  /\ (length (swapViews w') < length (swapImages w'))%nat
  /\ exists res, err = MkError "vkCreateImageView" res /\ res <> VK_SUCCESS.
Proof.
  intros Hc H. unfold recreate_swapchain in H.
  change (queue_families (set_images (set_views w []) [])) with (queue_families w) in H.
  cbn [swapchain set_views set_images] in H. rewrite Hc in H.
  destruct (fetch_images_and_views p _) as [w1 [[] | err' | x]] eqn:Hf; try discriminate.
  injection H as <- <-.
  apply fetch_images_and_views_throw in Hf; [| reflexivity]. cbn in Hf. exact Hf.
Qed.

Lemma recreate_failure_after_creation_witness :
  let p := views_failing (surface720 8 2) 1 in
  swapchain (fst (recreate_swapchain p window2)) = 8
  /\ swapViews (fst (recreate_swapchain p window2)) = [200]
  /\ swapImages (fst (recreate_swapchain p window2)) = [100; 101].
Proof.
  cbv zeta.
  destruct (recreate_failure_after_creation (views_failing (surface720 8 2) 1) window2
              (fst (recreate_swapchain (views_failing (surface720 8 2) 1) window2))
              (MkError "vkCreateImageView" VK_ERROR_DEVICE_LOST)
              8 VK_FORMAT_B8G8R8A8_SRGB (extent 1280 720) eq_refl eq_refl) as (H & _).
  split; [exact H |]. split; reflexivity.
Defined.

(** X8. [get_swapchain_images] only reports a failed enumeration: when the
    driver creates the chain and then fails to count its images,
    [recreate_swapchain] returns all the same, with a window that has the new
    chain, no image and no view. *)
Theorem recreate_without_images (p : Platform) (w : VulkanWindow)
    (h : Handle) (f : VkFormat) (e : VkExtent2D) :
  create_swapchain p (queue_families w) (swapchain w) = Ok (h, f, e) ->
  images_count_res p <> VK_SUCCESS ->
  exists ch,
    snd (recreate_swapchain p w) = Ok ch
    /\ swapchain (fst (recreate_swapchain p w)) = h
    /\ swapImages (fst (recreate_swapchain p w)) = []
    /\ swapViews (fst (recreate_swapchain p w)) = [].
Proof.
  intros Hc Hn. unfold recreate_swapchain.
  change (queue_families (set_images (set_views w []) [])) with (queue_families w).
  cbn [swapchain set_views set_images]. rewrite Hc.
  unfold fetch_images_and_views, get_swapchain_images.
  cbn [swapImages set_swapchain set_images set_views length Nat.eqb assert bind].
  apply Z.eqb_neq in Hn. rewrite Hn. cbn. eauto.
Qed.

Lemma recreate_without_images_witness :
  swapImages (fst (recreate_swapchain (uncounted (surface720 8 2)) window2)) = []
  /\ swapViews (fst (recreate_swapchain (uncounted (surface720 8 2)) window2)) = [].
Proof.
  destruct (recreate_without_images (uncounted (surface720 8 2)) window2
              8 VK_FORMAT_B8G8R8A8_SRGB (extent 1280 720) eq_refl)
    as (ch & _ & _ & H1 & H2).
  - discriminate.
  - split; [exact H1 | exact H2].
Defined.

End WindowExtra.

(** ** More about the main loop *)
Module LoopExtra.

Import Window Loop Scenario Props PropsExtra LoopSpec.
Local Open Scope loop_scope.

(** *** The resources built from the swapchain *)

Lemma same_resources_refl (s : State) : same_resources s s.
Proof. repeat split. Qed.

Lemma same_resources_trans (a b c : State) :
  same_resources a b -> same_resources b c -> same_resources a c.
Proof.
  intros (A1 & A2 & A3 & A4 & A5 & A6) (B1 & B2 & B3 & B4 & B5 & B6).
  repeat split; congruence.
Qed.

Lemma in_sync_same (ex : Exercise) (s s' : State) :
  same_resources s s' -> in_sync ex s -> in_sync ex s'.
Proof.
  intros (A1 & A2 & A3 & A4 & A5 & A6) (B1 & B2 & B3 & B4). unfold in_sync.
  assert (W : window_framebuffers ex s' = window_framebuffers ex s).
  { unfold window_framebuffers, attachments. rewrite A1, A5. reflexivity. }
  rewrite W, A1, A2, A3, A4, A5, A6. auto.
Qed.

(** A step of the program outside the recreation branch, and a step of the
    GPU, leave the window and what was built from it alone. *)
Lemma host_step_resources (ex : Exercise) (r : Response) (s : State) :
  pc s <> PcRecreate -> same_resources s (host_step ex r s).
Proof.
  intros Hpc. unfold host_step. destruct (pc s) eqn:E; try congruence;
    try (repeat case_if; cbn; repeat split; fail).
  - case_if; [repeat split |]. unfold reset_fence.
    destruct (cbfences s !! imageIndex s); case_if; repeat split.
  - case_if; [repeat split |]. unfold queue_submit.
    destruct (cbfences s !! imageIndex s); repeat split.
Qed.

Lemma gpu_complete_resources (i : nat) (s : State) : same_resources s (gpu_complete i s).
Proof.
  unfold gpu_complete. destruct (cbfences s !! i) as [[sg [|n]] |]; repeat split.
Qed.

Lemma setup_in_sync (ex : Exercise) (d : Driver) (g p : Z) (q : list Z) (s : State) :
  setup ex d g p q blank = (s, Ok tt) -> in_sync ex s.
Proof.
  unfold setup. intros H.
  apply mbind_ok in H as (s1 & [] & H1 & H).
  apply mbind_ok in H as (s2 & [] & H2 & H).
  apply mbind_ok in H as (s3 & [] & H3 & H).
  apply mbind_ok in H as (s4 & [] & H4 & H).
  apply mbind_ok in H as (s5 & [] & H5 & H).
  apply mbind_ok in H as (s6 & s6' & [= <- <-] & H).
  rewrite assign_renderPass_run in H2. destruct (succeeded _); [| discriminate].
  injection H2 as <-.
  rewrite assign_pipe_run in H3. destruct (succeeded _); [| discriminate].
  injection H3 as <-.
  apply create_swapchain_framebuffers_ok in H5 as [Hfb ->].
  pose proof (add_framebuffers_fields ex (swapViews (window s4)) 0 s4) as F. cbn zeta in F.
  set (s5 := add_framebuffers ex 0 (swapViews (window s4)) s4) in *.
  destruct F as (G1 & G2 & G3 & G4 & G5 & _ & _ & _ & _ & _ & G11 & _).
  assert (R : same_resources s5 s).
  { change s with (fst (s, @Ok unit tt)). rewrite <- H.
    apply frames_alloc_pool;
      first [ exact same_resources_refl | exact same_resources_trans
            | intros; repeat split ]. }
  apply (in_sync_same ex s5 s R). unfold in_sync, window_framebuffers.
  rewrite G1, G2, G3, G4, G5, G11, Hfb. cbn [app].
  destruct ex.
  - injection H4 as <-. cbn. split; [reflexivity |]. split; [reflexivity |].
    split; [reflexivity | intros E; discriminate].
  - apply mbind_ok in H4 as (t1 & [] & T1 & T2).
    rewrite assign_alphaPipeline_run in T1. destruct (succeeded _); [| discriminate].
    injection T1 as <-.
    rewrite assign_depthBuffer_run in T2. destruct (succeeded _); [| discriminate].
    injection T2 as <-. cbn. split; [reflexivity |]. split; [reflexivity |].
    split; [| intros _; split; reflexivity].
    rewrite G5. reflexivity.
Qed.

Lemma recreation_in_sync (ex : Exercise) (d : Driver) (s s' : State) :
  recreation ex d s = (s', Ok tt) -> in_sync ex s -> in_sync ex s'.
Proof.
  intros H (B1 & B2 & B3 & B4).
  apply recreation_ok in H as (w' & ch & Hw & H1 & H2 & H3 & H4 & H5 & H6 & _).
  apply WindowSpec.recreate_swapchain_ok in Hw as (_ & Hcf & Hcs & _).
  unfold in_sync. rewrite H1, H2, H3, H4, H5, Hcf, Hcs. split; [| split; [| split]].
  - destruct (_ =? _) eqn:E; cbn; [| reflexivity].
    apply Z.eqb_eq in E. congruence.
  - destruct (extent_eqb _ _) eqn:E; cbn; [| reflexivity].
    apply extent_eqb_eq in E. congruence.
  - rewrite H6. unfold window_framebuffers. rewrite H1. reflexivity.
  - intros ->. destruct (B4 eq_refl) as [C1 C2].
    destruct (extent_eqb _ _) eqn:E; cbn; [| split; reflexivity].
    apply extent_eqb_eq in E. rewrite <- E. split; assumption.
Qed.

Lemma step_in_sync (ex : Exercise) (a : Action) (s : State) :
  (pc s <> PcExit1 -> pc s <> PcAborted -> in_sync ex s) ->
  pc (step ex a s) <> PcExit1 -> pc (step ex a s) <> PcAborted -> in_sync ex (step ex a s).
Proof.
  intros I N1 N2.
  assert (T1 : pc s <> PcExit1).
  { intros E. apply N1. rewrite step_terminal; auto. }
  assert (T2 : pc s <> PcAborted).
  { intros E. apply N2. rewrite step_terminal; auto. }
  specialize (I T1 T2). destruct a as [r | i]; cbn [step] in *.
  - assert (E : pc s = PcRecreate \/ pc s <> PcRecreate)
      by (destruct (pc s); auto; right; discriminate).
    destruct E as [E | E].
    + unfold host_step in *. rewrite E in *.
      destruct (recreation ex (driver r) s) as [s1 [[] | e | x]] eqn:Hr; cbn in N1, N2;
        try congruence.
      apply recreation_in_sync in Hr; [| exact I].
      apply (in_sync_same ex s1); [repeat split | exact Hr].
    + apply (in_sync_same ex s); [apply host_step_resources, E | exact I].
  - apply (in_sync_same ex s); [apply gpu_complete_resources | exact I].
Qed.

(** X9. At each of the program points of [main] between two calls of its
    loop, that is at the head of the loop, before the [vkDeviceWaitIdle] and
    before the [recreate_swapchain] of the recreation branch, before each
    call of a frame (acquire, wait on the fence, its reset, recording,
    submission, present), before the [vkDeviceWaitIdle] that follows the loop
    and at [return 0]: the render pass has the format of the swapchain, the
    pipelines (and the depth buffer of exercise 4) its extent, and the
    framebuffers are one per swapchain view, of that extent.  (Inside the
    recreation branch, between the return of [recreate_swapchain] and the end
    of the rebuilds, the objects are those of the previous swapchain until
    they are rebuilt: the branch is one step here, and nothing is said about
    the points inside it.) *)
Theorem resources_follow_swapchain (ex : Exercise) (d : Driver) (g p : Z) (q : list Z)
    (acts : list Action) :
  let s := run ex acts (startup ex d g p q) in
  pc s <> PcExit1 -> pc s <> PcAborted -> in_sync ex s.
Proof.
  cbn zeta.
  apply (run_invariant ex (fun s => pc s <> PcExit1 -> pc s <> PcAborted -> in_sync ex s)).
  - intros a s. apply step_in_sync.
  - intros N1 N2. destruct (startup_pc ex d g p q) as [E | [E | E]]; try congruence.
    apply startup_loop_head in E as (s & Hs & ->).
    apply (in_sync_same ex s); [repeat split |]. eapply setup_in_sync, Hs.
Qed.

Lemma resources_follow_swapchain_witness :
  in_sync Exercise4 (run Exercise4 grow_run (start Exercise4 2)).
Proof.
  apply (resources_follow_swapchain Exercise4 (driver_ok (surface720 7 2)) 0 0 [0] grow_run);
    vm_compute; discriminate.
Defined.

(** *** The calls of a frame *)

Lemma presents_follow_app (l evs : list Event) :
  Forall (fun ev => forall i res, ev <> EvPresent i res) evs ->
  presents_follow_frames l -> presents_follow_frames (l ++ evs).
Proof.
  intros Hn Hl l1 l2 i res E. rewrite Forall_forall in Hn.
  apply app_eq_inv in E as [(k & E1 & E2) | (k & E1 & E2)].
  - destruct k as [|x k]; cbn in E2.
    + assert (Hin : EvPresent i res ∈ evs) by (rewrite <- E2; left).
      exact (False_ind _ (Hn _ Hin i res eq_refl)).
    + injection E2 as <- E2. apply (Hl l1 k i res E1).
  - assert (Hin : EvPresent i res ∈ evs)
      by (rewrite E2; apply elem_of_app; right; left).
    exact (False_ind _ (Hn _ Hin i res eq_refl)).
Qed.

Lemma presents_follow_quiet (s s' : State) :
  quiet_log s s' -> presents_follow_frames (log s) -> presents_follow_frames (log s').
Proof.
  intros (evs & E & Hq) H. rewrite E. apply presents_follow_app; [| exact H].
  eapply Forall_impl; [exact Hq |]. cbn. intros ev Hev i res ->. discriminate.
Qed.

Lemma presents_follow_snoc (l : list Event) (ev : Event) :
  (forall i res, ev <> EvPresent i res) ->
  presents_follow_frames l -> presents_follow_frames (l ++ [ev]).
Proof. intros H. apply presents_follow_app. repeat constructor. exact H. Qed.

Lemma presents_follow_present (l : list Event) (i : nat) (res : VkResult) :
  presents_follow_frames (l ++ frame_events i) ->
  presents_follow_frames ((l ++ frame_events i) ++ [EvPresent i res]).
Proof.
  intros Hl l1 l2 j res' E.
  apply app_eq_inv in E as [(k & E1 & E2) | (k & E1 & E2)].
  - destruct k as [|x k]; cbn in E2.
    + injection E2 as -> -> ->. rewrite app_nil_r in E1. exists l. symmetry. exact E1.
    + injection E2 as <- E2. apply (Hl l1 k j res' E1).
  - destruct k as [|x k]; cbn in E2.
    + injection E2 as <- <- _. rewrite app_nil_r in E1. exists l. exact E1.
    + injection E2 as _ E2. destruct k; discriminate.
Qed.

Lemma frame_in_progress_same (s s' : State) :
  pc s' = pc s -> imageIndex s' = imageIndex s -> log s' = log s ->
  frame_in_progress s -> frame_in_progress s'.
Proof. unfold frame_in_progress. intros -> -> ->. auto. Qed.

Ltac follows Hp :=
  cbn; first [ exact Hp
             | apply presents_follow_snoc; [intros ? ?; discriminate | exact Hp] ].

Lemma step_frame_order (ex : Exercise) (a : Action) (s : State) :
  frame_in_progress s /\ presents_follow_frames (log s) ->
  frame_in_progress (step ex a s) /\ presents_follow_frames (log (step ex a s)).
Proof.
  intros [Hf Hp]. destruct a as [r | i]; cbn [step].
  - unfold host_step. unfold frame_in_progress in Hf. destruct (pc s) eqn:Hpc.
    + (* loop head *)
      destruct (should_close r); [split; [exact I | exact Hp] |].
      cbn. destruct (recreateSwapchain s); (split; [exact I | follows Hp]).
    + (* wait idle *)
      case_if; [split; [unfold frame_in_progress; rewrite Hpc; exact I | exact Hp] |].
      split; [exact I | follows Hp].
    + (* recreation *)
      rewrite conclude_goto. split.
      * unfold frame_in_progress. cbn.
        destruct (snd (recreation ex (driver r) s)); exact I.
      * cbn. apply (presents_follow_quiet s); [apply quiet_recreation | exact Hp].
    + (* acquire *)
      cbn. destruct (stale (status r)); [split; [exact I | follows Hp] |].
      destruct (succeeded (status r)) eqn:Hs; cbn; [| split; [exact I | follows Hp]].
      apply succeeded_cases in Hs.
      case_if; (split; [| follows Hp]); [| exact I].
      unfold frame_in_progress. cbn. rewrite Hs. exists (log s). reflexivity.
    + (* wait for the fence *)
      destruct Hf as [l Hl].
      destruct (negb (succeeded (status r))); [split; [exact I | exact Hp] |].
      destruct (fence_signaled s (imageIndex s)).
      * split; [| follows Hp]. unfold frame_in_progress. cbn. exists l.
        rewrite Hl, <- app_assoc. reflexivity.
      * split; [| exact Hp]. unfold frame_in_progress. rewrite Hpc. exists l. exact Hl.
    + (* reset of the fence *)
      destruct Hf as [l Hl].
      destruct (negb (succeeded (status r))); [split; [exact I | exact Hp] |].
      destruct (reset_fence_fields (imageIndex s) s) as (_ & _ & _ & _ & F5 & _ & F7 & _).
      cbn. rewrite F5.
      case_if; (split; [| cbn; rewrite F7; follows Hp]); [| exact I].
      unfold frame_in_progress. cbn. rewrite F5, F7. exists l.
      rewrite Hl, <- app_assoc. reflexivity.
    + (* record *)
      destruct Hf as [l Hl].
      destruct (negb (succeeded (status r))); [split; [exact I | exact Hp] |].
      split; [| follows Hp]. unfold frame_in_progress. cbn. exists l.
      rewrite Hl, <- app_assoc. reflexivity.
    + (* submit *)
      destruct Hf as [l Hl].
      destruct (negb (succeeded (status r))); [split; [exact I | exact Hp] |].
      destruct (queue_submit_fields (imageIndex s) s) as (_ & _ & _ & _ & F5 & _ & F7 & _).
      split; [| cbn; rewrite F7; follows Hp].
      unfold frame_in_progress. cbn. rewrite F5, F7. exists l.
      rewrite Hl, <- app_assoc. reflexivity.
    + (* present *)
      destruct Hf as [l Hl]. cbn.
      assert (G : presents_follow_frames (log s ++ [EvPresent (imageIndex s) (status r)])).
      { rewrite Hl. apply presents_follow_present. rewrite <- Hl. exact Hp. }
      destruct (stale (status r)); [split; [exact I | exact G] |].
      destruct (negb (succeeded (status r))); (split; [exact I | exact G]).
    + (* shutdown *)
      case_if; [split; [unfold frame_in_progress; rewrite Hpc; exact I | exact Hp] |].
      split; [exact I | follows Hp].
    + split; [unfold frame_in_progress; rewrite Hpc; exact I | exact Hp].
    + split; [unfold frame_in_progress; rewrite Hpc; exact I | exact Hp].
    + split; [unfold frame_in_progress; rewrite Hpc; exact I | exact Hp].
  - destruct (gpu_complete_fields i s) as (_ & _ & _ & _ & F5 & F6 & F7 & _).
    split; [| rewrite F7; exact Hp].
    apply (frame_in_progress_same s); assumption.
Qed.

Lemma startup_quiet (ex : Exercise) (d : Driver) (g p : Z) (q : list Z) :
  Forall (fun ev => is_frame_event ev = false) (log (startup ex d g p q)).
Proof.
  unfold startup. rewrite conclude_goto. cbn.
  assert (Q : quiet_log blank (fst (setup ex d g p q blank))).
  { unfold setup. apply quiet_bind.
    { intros s. unfold call_make_vulkan_window.
      destruct (make_vulkan_window (platform d) g p q) as [w r]. apply quiet_log_same.
      reflexivity. }
    intros _. apply quiet_bind; [intros s; apply quiet_assign_renderPass |].
    intros _. apply quiet_bind; [intros s; apply quiet_assign_pipe |].
    intros _. apply quiet_bind.
    { destruct ex; [intros s; apply quiet_log_refl |].
      apply quiet_bind; [intros s; apply quiet_assign_alphaPipeline |].
      intros _ s. apply quiet_assign_depthBuffer. }
    intros _. apply quiet_bind; [apply quiet_create_swapchain_framebuffers |].
    intros _. apply quiet_bind; [intros s; apply quiet_log_refl |].
    intros s0. apply frames_alloc_pool;
      first [ exact quiet_log_refl | exact quiet_log_trans
            | intros; apply quiet_log_same; reflexivity ]. }
  destruct Q as (evs & E & Hq). cbn in E. rewrite E. exact Hq.
Qed.

(** X10. In every run of [main], every [vkQueuePresentKHR] comes
    right after the acquire of that image (which returned [VK_SUCCESS]), the
    wait on the fence of that index, its reset, the recording and the
    submission of the command buffer of that index, with no other call in
    between. *)
Theorem present_follows_frame (ex : Exercise) (d : Driver) (g p : Z) (q : list Z)
    (acts : list Action) :
  presents_follow_frames (log (run ex acts (startup ex d g p q))).
Proof.
  apply (run_invariant ex
           (fun s => frame_in_progress s /\ presents_follow_frames (log s))).
  - intros a s. apply step_frame_order.
  - split.
    + unfold frame_in_progress.
      destruct (startup_pc ex d g p q) as [E | [E | E]]; rewrite E; exact I.
    + pose proof (startup_quiet ex d g p q) as Hq. rewrite Forall_forall in Hq.
      intros l1 l2 i res E.
      assert (Hin : EvPresent i res ∈ log (startup ex d g p q))
        by (rewrite E; apply elem_of_app; right; left).
      apply Hq in Hin. discriminate.
Qed.

(** *** The acquired index and the wait on its fence *)

Lemma in_range_same (s s' : State) :
  pc s' = pc s -> imageIndex s' = imageIndex s ->
  length (cbfences s') = length (cbfences s) ->
  length (cbuffers s') = length (cbuffers s) ->
  length (framebuffers s') = length (framebuffers s) ->
  in_range s -> in_range s'.
Proof. unfold in_range. intros -> -> -> -> ->. auto. Qed.

Lemma in_range_outside (s : State) :
  pc s <> PcWaitFence -> pc s <> PcResetFence -> pc s <> PcRecord -> pc s <> PcSubmit ->
  pc s <> PcPresent -> in_range s.
Proof.
  intros N1 N2 N3 N4 N5. split.
  - intros [E | E]; congruence.
  - intros [E | [E | E]]; congruence.
Qed.

Ltac outside := apply in_range_outside; cbn; congruence.

Lemma step_in_range (ex : Exercise) (a : Action) (s : State) :
  in_range s -> in_range (step ex a s).
Proof.
  intros H. pose proof H as [H1 H2]. destruct a as [r | i]; cbn [step].
  - unfold host_step. destruct (pc s) eqn:Hpc; try exact H.
    + destruct (should_close r); [outside |]. cbn. destruct (recreateSwapchain s); outside.
    + case_if; [exact H | outside].
    + rewrite conclude_goto. apply in_range_outside; cbn;
        destruct (snd (recreation ex (driver r) s)); discriminate.
    + cbn -[Nat.ltb]. destruct (stale (status r)); [outside |].
      destruct (negb (succeeded (status r))); [outside |].
      destruct (Nat.ltb_spec (acquired r) (length (cbfences s))) as [Hlt | Hge]; [| outside].
      split; cbn; [intros _; exact Hlt |]. intros [E | [E | E]]; discriminate.
    + destruct (negb (succeeded (status r))); [outside |].
      destruct (fence_signaled s (imageIndex s)); [| exact H].
      split; cbn; [intros _; apply H1; auto |]. intros [E | [E | E]]; discriminate.
    + destruct (negb (succeeded (status r))); [outside |].
      destruct (reset_fence_fields (imageIndex s) s) as (_ & F2 & F3 & _ & F5 & _ & _ & F8).
      cbn -[Nat.ltb]. rewrite F2, F3, F5.
      destruct (Nat.ltb_spec (imageIndex s) (length (cbuffers s))) as [Hb | Hb];
        [| cbn; outside].
      destruct (Nat.ltb_spec (imageIndex s) (length (framebuffers s))) as [Hf | Hf];
        [| cbn; outside].
      cbn. split; cbn; [intros [E | E]; discriminate |]. intros _.
      rewrite F2, F3, F5, F8. split; [apply H1; auto |]. split; assumption.
    + destruct (negb (succeeded (status r))); [outside |].
      split; cbn; [intros [E | E]; discriminate |]. intros _. apply H2. auto.
    + destruct (negb (succeeded (status r))); [outside |].
      destruct (queue_submit_fields (imageIndex s) s) as (_ & F2 & F3 & _ & F5 & _ & _ & F8).
      split; cbn; [intros [E | E]; discriminate |]. intros _.
      rewrite F2, F3, F5, F8. apply H2. auto.
    + cbn. destruct (stale (status r)); [outside |].
      destruct (negb (succeeded (status r))); outside.
    + case_if; [exact H | outside].
  - destruct (gpu_complete_fields i s) as (_ & F2 & F3 & _ & F5 & F6 & _ & F8).
    apply (in_range_same s); try assumption; congruence.
Qed.

Lemma startup_in_range (ex : Exercise) (d : Driver) (g p : Z) (q : list Z) :
  in_range (startup ex d g p q).
Proof.
  apply in_range_outside;
    destruct (startup_pc ex d g p q) as [E | [E | E]]; congruence.
Qed.

(** X12. In every run of [main], the index that [vkAcquireNextImageKHR]
    returned is within the vector of fences when the loop waits on its fence
    and resets it, and within the vectors of fences, command buffers and
    framebuffers when it records, submits and presents: the asserts of the
    loop stop the program before any access out of range. *)
Theorem acquired_index_in_range (ex : Exercise) (d : Driver) (g p : Z) (q : list Z)
    (acts : list Action) :
  in_range (run ex acts (startup ex d g p q)).
Proof.
  apply run_invariant; [apply step_in_range | apply startup_in_range].
Qed.

Lemma startup_fence_protocol (ex : Exercise) (d : Driver) (g p : Z) (q : list Z) :
  fence_protocol (startup ex d g p q).
Proof.
  pose proof (startup_fresh ex d g p q) as Hf.
  pose proof (startup_pc ex d g p q) as Hpc.
  rewrite Forall_forall in Hf.
  unfold fence_protocol. split; [| split].
  - intros i f Hi. assert (Hin : f ∈ cbfences (startup ex d g p q))
      by (apply list_elem_of_lookup; eauto).
    destruct (Hf f Hin) as [Hs Hp]. rewrite Hs, Hp.
    split; [lia |]. split; [reflexivity |]. discriminate.
  - intros E. destruct Hpc as [E' | [E' | E']]; congruence.
  - intros [E | E]; destruct Hpc as [E' | [E' | E']]; congruence.
Qed.

(** X13. When the loop of [main] is at its [vkWaitForFences], the fence
    it waits on is signaled, or a submission that will signal it is in
    flight: the wait returns at once, or as soon as the GPU has finished the
    work submitted with the command buffer of that index.  The loop never
    waits on a fence that nothing will signal. *)
Theorem fence_wait_returns (ex : Exercise) (d : Driver) (g p : Z) (q : list Z)
    (acts : list Action) (r : Response) :
  let s := run ex acts (startup ex d g p q) in
  pc s = PcWaitFence -> status r = VK_SUCCESS ->
  pc (step ex (Host r) s) = PcResetFence
  \/ (step ex (Host r) s = s
      /\ pc (run ex [GpuComplete (imageIndex s); Host r] s) = PcResetFence).
Proof.
  cbn zeta. intros Hpc Hr.
  assert (P : fence_protocol (run ex acts (startup ex d g p q)))
    by (apply run_invariant; [apply step_fence_protocol | apply startup_fence_protocol]).
  assert (Q : in_range (run ex acts (startup ex d g p q)))
    by (apply run_invariant; [apply step_in_range | apply startup_in_range]).
  set (s := run ex acts (startup ex d g p q)) in *.
  destruct P as (P1 & _ & _). destruct Q as (Q1 & _).
  specialize (Q1 (or_introl Hpc)). apply lookup_lt_is_Some_2 in Q1 as [f Hf].
  destruct (P1 _ _ Hf) as (A & B & C).
  cbn [run fold_left step]. unfold host_step at 1 2. rewrite Hpc, Hr. cbn [succeeded negb].
  change (VK_SUCCESS =? VK_SUCCESS) with true. cbn [negb].
  unfold fence_signaled at 1 2. rewrite Hf.
  destruct (signaled f) eqn:Hs; [left; reflexivity |]. right. split; [reflexivity |].
  destruct (pending f) as [|n] eqn:Hp.
  { destruct (C eq_refl eq_refl) as (_ & [E | [E | [E | E]]]); congruence. }
  assert (n = O) by lia. subst n.
  unfold host_step, gpu_complete. rewrite Hf, Hp. cbn. rewrite Hpc, Hr. cbn.
  unfold fence_signaled. cbn.
  rewrite list_lookup_insert_eq by (eapply lookup_lt_Some; exact Hf). reflexivity.
Qed.

Lemma fence_wait_returns_witness :
  let s := run Exercise3 (to_submit ++ [Host fine; Host fine; Host fine; Host fine])
             (start Exercise3 2) in
  pc (step Exercise3 (Host fine) s) = PcResetFence
  \/ (step Exercise3 (Host fine) s = s
      /\ pc (run Exercise3 [GpuComplete (imageIndex s); Host fine] s) = PcResetFence).
Proof.
  apply (fence_wait_returns Exercise3 (driver_ok (surface720 7 2)) 0 0 [0]
           (to_submit ++ [Host fine; Host fine; Host fine; Host fine]) fine);
    reflexivity.
Defined.

End LoopExtra.

(** ** Device selection: [find_queue_family], [score_device] and
    [select_device] *)
Module DeviceSpec.

Import Device ToolProps ScenarioExtra.

Lemma support_test_spec (res : VkResult) (supported : Z) :
  support_test res supported = true <-> res = VK_SUCCESS \/ supported = VK_FALSE.
Proof.
  unfold support_test, VK_SUCCESS, VK_FALSE.
  destruct (Z.eqb_spec res 0) as [-> | Hr], (Z.eqb_spec supported 0) as [-> | Hs]; cbn;
    split; auto; try discriminate. intros [E | E]; congruence.
Qed.

(** The test of the loop on the family of index [i]. *)
Lemma accepted_test (dev : PhysicalDevice) (aQueueFlags : Z) (aSurface : Handle) (i : nat)
    (queueFlags : Z) :
  queueFamilies dev !! i = Some queueFlags ->
  (family_accepted dev aQueueFlags aSurface i <->
   (aQueueFlags =? Z.land aQueueFlags queueFlags) = true
   /\ ((aSurface =? VK_NULL_HANDLE) = true
       \/ support_test (fst (surface_support dev i)) (snd (surface_support dev i)) = true)).
Proof.
  intros Hq. unfold family_accepted. rewrite Z.eqb_eq, Z.eqb_eq, support_test_spec. split.
  - intros (qf & E & H1 & H2). rewrite Hq in E. injection E as <-. split; [congruence |].
    exact H2.
  - intros [H1 H2]. exists queueFlags. split; [exact Hq |]. split; [congruence | exact H2].
Qed.

Lemma find_queue_family_loop_spec (dev : PhysicalDevice) (aQueueFlags : Z)
    (aSurface : Handle) (families : list Z) :
  forall i, drop i (queueFamilies dev) = families ->
    match find_queue_family_loop dev aQueueFlags aSurface i families with
    | Some k =>
        (i <= k)%nat /\ family_accepted dev aQueueFlags aSurface k
        /\ forall j, (i <= j < k)%nat -> ~ family_accepted dev aQueueFlags aSurface j
    | None => forall j, (i <= j)%nat -> ~ family_accepted dev aQueueFlags aSurface j
    end.
Proof.
  induction families as [|qf rest IH]; intros i Hd; cbn [find_queue_family_loop].
  - intros j Hj (q & Hq & _).
    assert (Hlen : (length (queueFamilies dev) <= i)%nat).
    { apply (f_equal length) in Hd. rewrite length_drop in Hd. cbn in Hd. lia. }
    apply lookup_lt_Some in Hq. lia.
  - assert (Hi : queueFamilies dev !! i = Some qf).
    { rewrite <- (Nat.add_0_r i), <- lookup_drop, Hd. reflexivity. }
    assert (Hd' : drop (S i) (queueFamilies dev) = rest).
    { rewrite (drop_S _ _ _ Hi) in Hd. congruence. }
    pose proof (accepted_test dev aQueueFlags aSurface i qf Hi) as T.
    specialize (IH (S i) Hd').
    assert (Next : ~ family_accepted dev aQueueFlags aSurface i ->
              match find_queue_family_loop dev aQueueFlags aSurface (S i) rest with
              | Some k =>
                  (i <= k)%nat /\ family_accepted dev aQueueFlags aSurface k
                  /\ forall j, (i <= j < k)%nat ->
                       ~ family_accepted dev aQueueFlags aSurface j
              | None =>
                  forall j, (i <= j)%nat -> ~ family_accepted dev aQueueFlags aSurface j
              end).
    { intros Hn. destruct (find_queue_family_loop dev aQueueFlags aSurface (S i) rest) as [k |].
      - destruct IH as (A & B & C). split; [lia |]. split; [exact B |].
        intros j Hj. destruct (decide (j = i)) as [-> | Hne]; [exact Hn | apply C; lia].
      - intros j Hj. destruct (decide (j = i)) as [-> | Hne]; [exact Hn | apply IH; lia]. }
    assert (Here : family_accepted dev aQueueFlags aSurface i ->
              (i <= i)%nat /\ family_accepted dev aQueueFlags aSurface i
              /\ forall j, (i <= j < i)%nat -> ~ family_accepted dev aQueueFlags aSurface j).
    { intros H. split; [lia |]. split; [exact H |]. intros j Hj. lia. }
    destruct (aQueueFlags =? Z.land aQueueFlags qf) eqn:Hf.
    + destruct (aSurface =? VK_NULL_HANDLE) eqn:Hs.
      * apply Here, T. auto.
      * destruct (surface_support dev i) as [res supported] eqn:Hsup. cbn [fst snd] in T.
        destruct (support_test res supported) eqn:Ht.
        -- apply Here, T. auto.
        -- apply Next. rewrite T. intros [_ [E | E]]; discriminate.
    + apply Next. rewrite T. intros [E _]. discriminate.
Qed.

(** X14. [find_queue_family] returns the least index of a queue family
    that has all the flags asked for and, when a surface is given, for which
    the support query returned [VK_SUCCESS] or reported no support; it
    returns nothing exactly when there is no such family. *)
Theorem find_queue_family_least (dev : PhysicalDevice) (aQueueFlags : Z)
    (aSurface : Handle) :
  match find_queue_family dev aQueueFlags aSurface with
  | Some k =>
      family_accepted dev aQueueFlags aSurface k
      /\ forall j, (j < k)%nat -> ~ family_accepted dev aQueueFlags aSurface j
  | None => forall j, ~ family_accepted dev aQueueFlags aSurface j
  end.
Proof.
  unfold find_queue_family.
  pose proof (find_queue_family_loop_spec dev aQueueFlags aSurface (queueFamilies dev) 0
                eq_refl) as H.
  destruct (find_queue_family_loop dev aQueueFlags aSurface 0 (queueFamilies dev)) as [k |].
  - destruct H as (_ & A & B). split; [exact A |]. intros j Hj. apply B. lia.
  - intros j. apply H. lia.
Qed.

Lemma find_queue_family_is_Some (dev : PhysicalDevice) (aQueueFlags : Z)
    (aSurface : Handle) :
  is_Some (find_queue_family dev aQueueFlags aSurface)
  <-> exists i, family_accepted dev aQueueFlags aSurface i.
Proof.
  unfold find_queue_family.
  pose proof (find_queue_family_loop_spec dev aQueueFlags aSurface (queueFamilies dev) 0
                eq_refl) as H.
  destruct (find_queue_family_loop dev aQueueFlags aSurface 0 (queueFamilies dev)) as [k |].
  - destruct H as (_ & A & _). split; [intros _; exists k; exact A | intros _; eauto].
  - split; [intros [x E]; discriminate |]. intros [i Hi]. exfalso. apply (H i); [lia | exact Hi].
Qed.

Lemma extensions_count_In (extensions : list string) (name : string) :
  extensions_count extensions name = true <-> In name extensions.
Proof.
  unfold extensions_count. rewrite existsb_exists. split.
  - intros (x & Hin & E). apply String.eqb_eq in E. subst x. exact Hin.
  - intros Hin. exists name. split; [exact Hin | apply String.eqb_refl].
Qed.

(** [score_device] discards exactly the devices that are not eligible, and
    scores the others by their type. *)
Lemma score_device_cases (dev : PhysicalDevice) (aSurface : Handle) :
  (~ eligible dev aSurface /\ score_device dev aSurface = -1)
  \/ (eligible dev aSurface
      /\ ((deviceType dev = VK_PHYSICAL_DEVICE_TYPE_DISCRETE_GPU
           /\ score_device dev aSurface = 500)
          \/ (deviceType dev = VK_PHYSICAL_DEVICE_TYPE_INTEGRATED_GPU
              /\ score_device dev aSurface = 100)
          \/ (deviceType dev <> VK_PHYSICAL_DEVICE_TYPE_DISCRETE_GPU
              /\ deviceType dev <> VK_PHYSICAL_DEVICE_TYPE_INTEGRATED_GPU
              /\ score_device dev aSurface = 0))).
Proof.
  unfold score_device, eligible. cbv zeta.
  set (major := VK_API_VERSION_MAJOR (apiVersion dev)).
  set (minor := VK_API_VERSION_MINOR (apiVersion dev)).
  destruct ((major <? 1) || ((major =? 1) && (minor <? 2))) eqn:Hv.
  { left. split; [| reflexivity]. intros (V & _).
    apply orb_true_iff in Hv as [Hv | Hv]; [apply Z.ltb_lt in Hv; lia |].
    apply andb_true_iff in Hv as [H1 H2]. apply Z.eqb_eq in H1. apply Z.ltb_lt in H2. lia. }
  apply orb_false_iff in Hv as [H1 H2]. apply Z.ltb_ge in H1.
  assert (V : 1 < major \/ (major = 1 /\ 2 <= minor)).
  { apply andb_false_iff in H2 as [H2 | H2];
      [apply Z.eqb_neq in H2; lia | apply Z.ltb_ge in H2; lia]. }
  destruct (extensions_count (device_extensions dev) VK_KHR_SWAPCHAIN_EXTENSION_NAME) eqn:He;
    cbn [negb].
  2:{ left. split; [| reflexivity]. intros (_ & E & _). apply extensions_count_In in E.
      congruence. }
  apply extensions_count_In in He.
  destruct (bool_decide (is_Some (find_queue_family dev 0 aSurface))) eqn:Hp; cbn [negb].
  2:{ left. split; [| reflexivity]. intros (_ & _ & P & _).
      apply find_queue_family_is_Some in P. apply bool_decide_eq_false in Hp. auto. }
  apply bool_decide_eq_true, find_queue_family_is_Some in Hp.
  destruct (bool_decide (is_Some (find_queue_family dev VK_QUEUE_GRAPHICS_BIT VK_NULL_HANDLE)))
    eqn:Hg; cbn [negb].
  2:{ left. split; [| reflexivity]. intros (_ & _ & _ & G).
      apply find_queue_family_is_Some in G. apply bool_decide_eq_false in Hg. auto. }
  apply bool_decide_eq_true, find_queue_family_is_Some in Hg.
  right. split; [repeat split; assumption |].
  destruct (Z.eqb_spec VK_PHYSICAL_DEVICE_TYPE_DISCRETE_GPU (deviceType dev)) as [E | E];
    [left; split; [congruence | reflexivity] |].
  destruct (Z.eqb_spec VK_PHYSICAL_DEVICE_TYPE_INTEGRATED_GPU (deviceType dev)) as [E' | E'];
    [right; left; split; [congruence | reflexivity] |].
  right. right. split; [congruence |]. split; [congruence | reflexivity].
Qed.

(** X15. [score_device] returns -1 exactly for the devices that lack
    Vulkan 1.2, the swapchain extension, a queue family accepted for the
    surface or a graphics family; every other device gets 500 when it is a
    discrete GPU, 100 when it is an integrated GPU, and 0 otherwise. *)
Theorem score_device_eligible (dev : PhysicalDevice) (aSurface : Handle) :
  (score_device dev aSurface = -1 <-> ~ eligible dev aSurface)
  /\ (eligible dev aSurface ->
      (deviceType dev = VK_PHYSICAL_DEVICE_TYPE_DISCRETE_GPU ->
       score_device dev aSurface = 500)
      /\ (deviceType dev = VK_PHYSICAL_DEVICE_TYPE_INTEGRATED_GPU ->
          score_device dev aSurface = 100)
      /\ (deviceType dev <> VK_PHYSICAL_DEVICE_TYPE_DISCRETE_GPU ->
          deviceType dev <> VK_PHYSICAL_DEVICE_TYPE_INTEGRATED_GPU ->
          score_device dev aSurface = 0)).
Proof.
  unfold VK_PHYSICAL_DEVICE_TYPE_DISCRETE_GPU, VK_PHYSICAL_DEVICE_TYPE_INTEGRATED_GPU.
  destruct (score_device_cases dev aSurface)
    as [[N E] | [El [[T E] | [[T E] | (T1 & T2 & E)]]]];
    unfold VK_PHYSICAL_DEVICE_TYPE_DISCRETE_GPU, VK_PHYSICAL_DEVICE_TYPE_INTEGRATED_GPU in *;
    rewrite E; (split; [split; [try discriminate; auto | intros H; try reflexivity; tauto] |]);
    intros H; try tauto; (split; [| split]); intros; try reflexivity; try lia; congruence.
Qed.

Lemma score_device_eligible_witness :
  score_device (gpu 13 version13 VK_PHYSICAL_DEVICE_TYPE_DISCRETE_GPU (VK_SUCCESS, VK_TRUE)) 5
  = 500.
Proof.
  apply (score_device_eligible
           (gpu 13 version13 VK_PHYSICAL_DEVICE_TYPE_DISCRETE_GPU (VK_SUCCESS, VK_TRUE)) 5);
    [| reflexivity].
  split; [right; split; [reflexivity | vm_compute; discriminate] |].
  split; [right; left; reflexivity |].
  split; exists 0%nat, 7; (split; [reflexivity |]); (split; [reflexivity |]); auto.
Defined.

(** X16. A device none of whose queue families can present to the
    surface is not discarded: when the support query returns [VK_SUCCESS]
    and reports [VK_FALSE] for every family, the search for a present family
    still returns family 0, and a device that has Vulkan 1.2, the swapchain
    extension and a graphics family gets a score of 0 or more. *)
Theorem present_support_not_required (dev : PhysicalDevice) (aSurface : Handle) :
  (1 < VK_API_VERSION_MAJOR (apiVersion dev)
   \/ (VK_API_VERSION_MAJOR (apiVersion dev) = 1
       /\ 2 <= VK_API_VERSION_MINOR (apiVersion dev))) ->
  In VK_KHR_SWAPCHAIN_EXTENSION_NAME (device_extensions dev) ->
  (exists i, family_accepted dev VK_QUEUE_GRAPHICS_BIT VK_NULL_HANDLE i) ->
  (forall i, surface_support dev i = (VK_SUCCESS, VK_FALSE)) ->
  find_queue_family dev 0 aSurface = Some 0%nat /\ 0 <= score_device dev aSurface.
Proof.
  intros V E G S.
  assert (A0 : family_accepted dev 0 aSurface 0).
  { destruct G as (i & qf & Hi & _).
    destruct (queueFamilies dev) as [|q0 rest] eqn:Hq; [discriminate |].
    exists q0. rewrite Hq. split; [reflexivity |]. split; [reflexivity |].
    right. left. rewrite S. reflexivity. }
  split.
  - unfold find_queue_family.
    pose proof (find_queue_family_loop_spec dev 0 aSurface (queueFamilies dev) 0 eq_refl) as H.
    destruct (find_queue_family_loop dev 0 aSurface 0 (queueFamilies dev)) as [k |].
    + destruct H as (_ & _ & B). destruct k as [|k]; [reflexivity |].
      exfalso. apply (B 0%nat); [lia | exact A0].
    + exfalso. apply (H 0%nat); [lia | exact A0].
  - destruct (score_device_cases dev aSurface)
      as [[N _] | [_ [[_ Sc] | [[_ Sc] | (_ & _ & Sc)]]]]; try (rewrite Sc; lia).
    exfalso. apply N. split; [exact V |]. split; [exact E |]. split; [eauto | exact G].
Qed.

Lemma present_support_not_required_witness :
  find_queue_family
    (gpu 13 version13 VK_PHYSICAL_DEVICE_TYPE_DISCRETE_GPU (VK_SUCCESS, VK_FALSE)) 0 5
  = Some 0%nat
  /\ 0 <= score_device
            (gpu 13 version13 VK_PHYSICAL_DEVICE_TYPE_DISCRETE_GPU (VK_SUCCESS, VK_FALSE)) 5.
Proof.
  apply (present_support_not_required
           (gpu 13 version13 VK_PHYSICAL_DEVICE_TYPE_DISCRETE_GPU (VK_SUCCESS, VK_FALSE)) 5).
  - right. split; [reflexivity | vm_compute; discriminate].
  - right. left. reflexivity.
  - exists 0%nat, 7. split; [reflexivity |]. split; [reflexivity |]. left. reflexivity.
  - intros i. reflexivity.
Defined.

Lemma score_device_lower (dev : PhysicalDevice) (aSurface : Handle) :
  -1 <= score_device dev aSurface
  /\ (score_device dev aSurface <= -1 -> ~ eligible dev aSurface)
  /\ (-1 < score_device dev aSurface -> eligible dev aSurface).
Proof.
  destruct (score_device_cases dev aSurface)
    as [[N Sc] | [El [[_ Sc] | [[_ Sc] | (_ & _ & Sc)]]]]; rewrite Sc;
    (split; [lia |]); (split; [intros H; try lia; exact N | intros H; try lia; try exact El]).
Qed.

Lemma select_device_loop_spec (aSurface : Handle) (devices : list PhysicalDevice) :
  forall bestScore bestDevice,
    let r := select_device_loop devices aSurface bestScore bestDevice in
    (r = (bestScore, bestDevice)
     /\ forall x, In x devices -> score_device x aSurface <= bestScore)
    \/ (exists pre d post,
          devices = pre ++ d :: post
          /\ r = (score_device d aSurface, dev_handle d)
          /\ bestScore < score_device d aSurface
          /\ (forall x, In x pre -> score_device x aSurface < score_device d aSurface)
          /\ (forall x, In x post -> score_device x aSurface <= score_device d aSurface)).
Proof.
  induction devices as [|d0 rest IH]; intros bs bd; cbn [select_device_loop]; cbv zeta.
  - left. split; [reflexivity |]. intros x [].
  - destruct (Z.ltb_spec bs (score_device d0 aSurface)) as [Hlt | Hge].
    + destruct (IH (score_device d0 aSurface) (dev_handle d0))
        as [[E A] | (pre & d & post & E & R & B & P & Q)].
      * right. exists [], d0, rest. split; [reflexivity |]. split; [exact E |].
        split; [exact Hlt |]. split; [intros x [] | exact A].
      * right. exists (d0 :: pre), d, post. split; [rewrite E; reflexivity |].
        split; [exact R |]. split; [lia |]. split; [| exact Q].
        intros x [<- | Hx]; [exact B | apply P, Hx].
    + destruct (IH bs bd) as [[E A] | (pre & d & post & E & R & B & P & Q)].
      * left. split; [exact E |]. intros x [<- | Hx]; [exact Hge | apply A, Hx].
      * right. exists (d0 :: pre), d, post. split; [rewrite E; reflexivity |].
        split; [exact R |]. split; [exact B |]. split; [| exact Q].
        intros x [<- | Hx]; [lia | apply P, Hx].
Qed.

(** X17. When the devices can be enumerated, [select_device] returns
    without an exception: the null handle when no device is eligible;
    otherwise the handle of an eligible device whose score no other device
    exceeds, and the first of the list with that score. *)
Theorem select_device_best (e : Enumeration) (aSurface : Handle) :
  devices_count_res e = VK_SUCCESS -> devices_fill_res e = VK_SUCCESS ->
  (select_device e aSurface = Ok VK_NULL_HANDLE
   /\ forall x, In x (devices e) -> ~ eligible x aSurface)
  \/ (exists pre d post,
        devices e = pre ++ d :: post
        /\ select_device e aSurface = Ok (dev_handle d)
        /\ eligible d aSurface
        /\ (forall x, In x pre -> score_device x aSurface < score_device d aSurface)
        /\ (forall x, In x post -> score_device x aSurface <= score_device d aSurface)).
Proof.
  intros H1 H2. unfold select_device. rewrite H1, H2. cbn [check bind].
  change (VK_SUCCESS =? VK_SUCCESS) with true. cbn [bind].
  destruct (select_device_loop_spec aSurface (devices e) (-1) VK_NULL_HANDLE)
    as [[E A] | (pre & d & post & E & R & B & P & Q)].
  - left. rewrite E. split; [reflexivity |]. intros x Hx.
    apply (score_device_lower x aSurface), A, Hx.
  - right. exists pre, d, post. rewrite R. split; [exact E |]. split; [reflexivity |].
    split; [apply (score_device_lower d aSurface), B |]. split; assumption.
Qed.

Lemma select_device_best_witness :
  (select_device machine 5 = Ok VK_NULL_HANDLE
   /\ forall x, In x (devices machine) -> ~ eligible x 5)
  \/ (exists pre d post,
        devices machine = pre ++ d :: post
        /\ select_device machine 5 = Ok (dev_handle d)
        /\ eligible d 5
        /\ (forall x, In x pre -> score_device x 5 < score_device d 5)
        /\ (forall x, In x post -> score_device x 5 <= score_device d 5)).
Proof. exact (select_device_best machine 5 eq_refl eq_refl). Defined.

(** X18. The queue families that [make_vulkan_window] settles on.  When a
    family has the graphics bit and is accepted for the surface, the least
    such family is the graphics and the present family, and the device is
    created with that family alone.  Otherwise, when the assert holds, the
    device is created with the least graphics family and the least family
    accepted for the surface, in this order; [graphicsFamilyIndex] is then
    the second of them, a family that is not a graphics family of the
    device, and [presentFamilyIndex] keeps the value it had. *)
Theorem make_vulkan_window_queue_families (dev : PhysicalDevice) (aSurface : Handle)
    (presentFamilyIndex graphicsFamilyIndex : Z) (queueFamilyIndices : list Z) :
  select_queue_families dev aSurface = Ok (graphicsFamilyIndex, queueFamilyIndices) ->
  (exists k,
     family_accepted dev VK_QUEUE_GRAPHICS_BIT aSurface k
     /\ (forall j, (j < k)%nat -> ~ family_accepted dev VK_QUEUE_GRAPHICS_BIT aSurface j)
     /\ graphicsFamilyIndex = Z.of_nat k
     /\ queueFamilyIndices = [Z.of_nat k]
     /\ present_family graphicsFamilyIndex presentFamilyIndex queueFamilyIndices
        = Z.of_nat k)
  \/ ((forall j, ~ family_accepted dev VK_QUEUE_GRAPHICS_BIT aSurface j)
      /\ exists g p,
           family_accepted dev VK_QUEUE_GRAPHICS_BIT VK_NULL_HANDLE g
           /\ (forall j, (j < g)%nat ->
                 ~ family_accepted dev VK_QUEUE_GRAPHICS_BIT VK_NULL_HANDLE j)
           /\ family_accepted dev 0 aSurface p
           /\ (forall j, (j < p)%nat -> ~ family_accepted dev 0 aSurface j)
           /\ queueFamilyIndices = [Z.of_nat g; Z.of_nat p]
           /\ graphicsFamilyIndex = Z.of_nat p
           /\ ~ family_accepted dev VK_QUEUE_GRAPHICS_BIT VK_NULL_HANDLE p
           /\ present_family graphicsFamilyIndex presentFamilyIndex queueFamilyIndices
              = presentFamilyIndex).
Proof.
  unfold select_queue_families. cbv zeta.
  pose proof (find_queue_family_loop_spec dev VK_QUEUE_GRAPHICS_BIT aSurface
                (queueFamilies dev) 0 eq_refl) as H1.
  fold (find_queue_family dev VK_QUEUE_GRAPHICS_BIT aSurface) in H1.
  destruct (find_queue_family dev VK_QUEUE_GRAPHICS_BIT aSurface) as [k |].
  - intros [= <- <-]. left. exists k. destruct H1 as (_ & A & B).
    split; [exact A |]. split; [intros j Hj; apply B; lia |]. repeat split.
  - pose proof (find_queue_family_loop_spec dev VK_QUEUE_GRAPHICS_BIT VK_NULL_HANDLE
                  (queueFamilies dev) 0 eq_refl) as H2.
    fold (find_queue_family dev VK_QUEUE_GRAPHICS_BIT VK_NULL_HANDLE) in H2.
    pose proof (find_queue_family_loop_spec dev 0 aSurface (queueFamilies dev) 0 eq_refl)
      as H3.
    fold (find_queue_family dev 0 aSurface) in H3.
    destruct (find_queue_family dev VK_QUEUE_GRAPHICS_BIT VK_NULL_HANDLE) as [g |];
      [| discriminate].
    destruct (find_queue_family dev 0 aSurface) as [p |]; [| discriminate].
    intros [= <- <-]. right. destruct H2 as (_ & A2 & B2), H3 as (_ & A3 & B3).
    assert (N : forall j, ~ family_accepted dev VK_QUEUE_GRAPHICS_BIT aSurface j)
      by (intros j; apply H1; lia).
    split; [exact N |]. exists g, p.
    split; [exact A2 |]. split; [intros j Hj; apply B2; lia |].
    split; [exact A3 |]. split; [intros j Hj; apply B3; lia |].
    split; [reflexivity |]. split; [reflexivity |]. split; [| reflexivity].
    intros (qf & Hq & Hf & _). destruct A3 as (qf' & Hq' & _ & Hs).
    rewrite Hq in Hq'. injection Hq' as <-.
    apply (N p). exists qf. split; [exact Hq |]. split; [exact Hf | exact Hs].
Qed.

Lemma make_vulkan_window_queue_families_witness :
  select_queue_families split_gpu 5 = Ok (1, [0; 1])
  /\ present_family 1 77 [0; 1] = 77
  /\ ~ family_accepted split_gpu VK_QUEUE_GRAPHICS_BIT VK_NULL_HANDLE 1.
Proof.
  split; [reflexivity |].
  destruct (make_vulkan_window_queue_families split_gpu 5 77 1 [0; 1] eq_refl)
    as [(k & _ & _ & _ & E & _) | (_ & g & p & _ & _ & _ & _ & E & _ & N & P)].
  - discriminate.
  - injection E as Eg Ep. assert (p = 1%nat) by lia. subst p.
    split; [exact P | exact N].
Defined.

End DeviceSpec.

(** ** [find_memory_type] *)
Module MemorySpec.

Import Memory ToolProps.

Lemma land_bit (a : Z) (i : nat) :
  (i < 32)%nat -> (Z.land a (bit i) =? 0) = negb (Z.testbit a (Z.of_nat i)).
Proof.
  intros Hi. unfold bit, to_u32.
  assert (E : Z.shiftl 1 (Z.of_nat i) mod 4294967296 = 2 ^ Z.of_nat i).
  { rewrite Z.shiftl_1_l. apply Z.mod_small. split; [apply Z.pow_nonneg; lia |].
    change 4294967296 with (2 ^ 32). apply Z.pow_lt_mono_r; lia. }
  rewrite E. destruct (Z.testbit a (Z.of_nat i)) eqn:Hb; cbn [negb].
  - apply Z.eqb_neq. intros H. apply (f_equal (fun z => Z.testbit z (Z.of_nat i))) in H.
    rewrite Z.land_spec, Hb, Z.pow2_bits_true, Z.bits_0 in H by lia. discriminate.
  - apply Z.eqb_eq. apply Z.bits_inj'. intros n Hn.
    rewrite Z.land_spec, Z.bits_0, Z.pow2_bits_eqb by lia.
    destruct (Z.eqb_spec (Z.of_nat i) n) as [<- | Hne];
      [rewrite Hb; reflexivity | apply andb_false_r].
Qed.

Lemma suitable_test (memoryTypes : list Z) (aMemoryTypeBits aProps : Z) (i : nat)
    (propertyFlags : Z) :
  (i < 32)%nat -> memoryTypes !! i = Some propertyFlags ->
  (memory_type_suitable memoryTypes aMemoryTypeBits aProps i <->
   (aProps =? Z.land aProps propertyFlags) && negb (Z.land aMemoryTypeBits (bit i) =? 0)
   = true).
Proof.
  intros Hi Hq. unfold memory_type_suitable.
  rewrite andb_true_iff, Z.eqb_eq, land_bit, negb_involutive by exact Hi. split.
  - intros (f & E & H1 & H2). rewrite Hq in E. injection E as <-. split; congruence.
  - intros [H1 H2]. exists propertyFlags. split; [exact Hq |]. split; congruence.
Qed.

Lemma find_memory_type_loop_spec (all : list Z) (aMemoryTypeBits aProps : Z)
    (memoryTypes : list Z) :
  (length all <= 32)%nat ->
  forall i, drop i all = memoryTypes ->
    match find_memory_type_loop aMemoryTypeBits aProps i memoryTypes with
    | Some k =>
        (i <= k)%nat /\ memory_type_suitable all aMemoryTypeBits aProps k
        /\ forall j, (i <= j < k)%nat -> ~ memory_type_suitable all aMemoryTypeBits aProps j
    | None =>
        forall j, (i <= j)%nat -> ~ memory_type_suitable all aMemoryTypeBits aProps j
    end.
Proof.
  intros Hlen.
  induction memoryTypes as [|flags rest IH]; intros i Hd; cbn [find_memory_type_loop].
  - intros j Hj (q & Hq & _).
    assert (Hl : (length all <= i)%nat).
    { apply (f_equal length) in Hd. rewrite length_drop in Hd. cbn in Hd. lia. }
    apply lookup_lt_Some in Hq. lia.
  - assert (Hi : all !! i = Some flags).
    { rewrite <- (Nat.add_0_r i), <- lookup_drop, Hd. reflexivity. }
    assert (Hd' : drop (S i) all = rest).
    { rewrite (drop_S _ _ _ Hi) in Hd. congruence. }
    assert (Hi32 : (i < 32)%nat) by (apply lookup_lt_Some in Hi; lia).
    pose proof (suitable_test all aMemoryTypeBits aProps i flags Hi32 Hi) as T.
    specialize (IH (S i) Hd').
    destruct ((aProps =? Z.land aProps flags) && negb (Z.land aMemoryTypeBits (bit i) =? 0)).
    + split; [lia |]. split; [apply T; reflexivity |]. intros j Hj. lia.
    + assert (Hn : ~ memory_type_suitable all aMemoryTypeBits aProps i)
        by (rewrite T; discriminate).
      destruct (find_memory_type_loop aMemoryTypeBits aProps (S i) rest) as [k |].
      * destruct IH as (A & B & C). split; [lia |]. split; [exact B |].
        intros j Hj. destruct (decide (j = i)) as [-> | Hne]; [exact Hn | apply C; lia].
      * intros j Hj. destruct (decide (j = i)) as [-> | Hne]; [exact Hn | apply IH; lia].
Qed.

(** X19. For the at most 32 memory types of a device,
    [find_memory_type] returns the least index of a type that has all the
    required properties and whose bit is set in the allowed types; it throws,
    with the allowed types and the required properties, exactly when there is
    no such type. *)
Theorem find_memory_type_least (memoryTypes : list Z) (aMemoryTypeBits aProps : Z) :
  (length memoryTypes <= 32)%nat ->
  match find_memory_type memoryTypes aMemoryTypeBits aProps with
  | inl k =>
      memory_type_suitable memoryTypes aMemoryTypeBits aProps k
      /\ forall j, (j < k)%nat -> ~ memory_type_suitable memoryTypes aMemoryTypeBits aProps j
  | inr err =>
      err = MkNoMemoryType aMemoryTypeBits aProps
      /\ forall j, ~ memory_type_suitable memoryTypes aMemoryTypeBits aProps j
  end.
Proof.
  intros Hlen. unfold find_memory_type.
  pose proof (find_memory_type_loop_spec memoryTypes aMemoryTypeBits aProps memoryTypes Hlen
                0 eq_refl) as H.
  destruct (find_memory_type_loop aMemoryTypeBits aProps 0 memoryTypes) as [k |].
  - destruct H as (_ & A & B). split; [exact A |]. intros j Hj. apply B. lia.
  - split; [reflexivity |]. intros j. apply H. lia.
Qed.

(** Three memory types: device local (1), host visible and coherent (6),
    and host visible, coherent and cached (14); a buffer that allows the
    types 1 and 2 and needs host visible, coherent memory gets type 1. *)
Lemma find_memory_type_least_witness :
  memory_type_suitable [1; 6; 14] 6 6 1
  /\ forall j, (j < 1)%nat -> ~ memory_type_suitable [1; 6; 14] 6 6 j.
Proof.
  exact (find_memory_type_least [1; 6; 14] 6 6 ltac:(cbn; lia)).
Defined.

End MemorySpec.

(** ** Mip levels and the texture upload *)
Module ImageSpec.

Import Image ToolProps.

(** The masks of [countl_zero_] select the bits from [k] up to 31. *)
Lemma high_bits_zero (k x : Z) :
  0 <= k < 32 -> 0 <= x < 4294967296 ->
  (Z.land x (Z.shiftl (Z.ones (32 - k)) k) =? 0) = (x <? 2 ^ k).
Proof.
  intros Hk Hx.
  assert (Hm : forall n, 0 <= n ->
            Z.testbit (Z.shiftl (Z.ones (32 - k)) k) n = (k <=? n) && (n <? 32)).
  { intros n Hn. rewrite Z.shiftl_spec by lia.
    destruct (Z.leb_spec k n) as [Hkn | Hkn]; cbn [andb].
    - destruct (Z.ltb_spec n 32) as [H32 | H32].
      + apply Z.ones_spec_low. lia.
      + apply Z.ones_spec_high. lia.
    - apply Z.testbit_neg_r. lia. }
  destruct (Z.ltb_spec x (2 ^ k)) as [Hlt | Hge].
  - apply Z.eqb_eq, Z.bits_inj'. intros n Hn. rewrite Z.land_spec, Z.bits_0, Hm by lia.
    destruct (Z.leb_spec k n) as [Hkn | Hkn]; cbn [andb]; [| apply andb_false_r].
    destruct (Z.eq_dec x 0) as [-> | Hx0]; [rewrite Z.bits_0; reflexivity |].
    rewrite Z.bits_above_log2; [reflexivity | lia |].
    apply Z.log2_lt_pow2; [lia |]. apply Z.lt_le_trans with (2 ^ k); [exact Hlt |].
    apply Z.pow_le_mono_r; lia.
  - apply Z.eqb_neq. intros H.
    assert (Hpos : 0 < x) by (pose proof (Z.pow_pos_nonneg 2 k); lia).
    apply (f_equal (fun z => Z.testbit z (Z.log2 x))) in H.
    pose proof (Z.log2_nonneg x) as Hl0.
    rewrite Z.land_spec, Z.bits_0, Hm, Z.bit_log2 in H by lia. cbn [andb] in H.
    assert (Hl : k <= Z.log2 x) by (apply Z.log2_le_pow2; lia).
    assert (Hu : Z.log2 x < 32).
    { apply Z.log2_lt_pow2; [lia |]. change (2 ^ 32) with 4294967296. lia. }
    destruct (Z.leb_spec k (Z.log2 x)); [| lia]. destruct (Z.ltb_spec (Z.log2 x) 32); [| lia].
    discriminate.
Qed.

Lemma shl32_small (x n : Z) :
  0 <= n -> 0 <= x -> x * 2 ^ n < 4294967296 -> shl32 x n = x * 2 ^ n.
Proof.
  intros Hn Hx Hlt. unfold shl32, to_u32. rewrite Z.shiftl_mul_pow2 by lia.
  apply Z.mod_small. split; [| exact Hlt]. apply Z.mul_nonneg_nonneg; [lia |].
  apply Z.pow_nonneg. lia.
Qed.

(** The number of leading zeros of a non-zero 32-bit value [x]: [x] lies
    between [2 ^ (31 - r)] and [2 ^ (32 - r)]. *)
Lemma countl_zero_bounds (aX : Z) :
  0 < aX < 4294967296 ->
  0 <= countl_zero_ aX <= 31
  /\ 2 ^ (31 - countl_zero_ aX) <= aX < 2 ^ (32 - countl_zero_ aX).
Proof.
  intros Hx. unfold countl_zero_.
  destruct (Z.eqb_spec aX 0) as [E | _]; [lia |].
  change 4294901760 with (Z.shiftl (Z.ones (32 - 16)) 16).
  rewrite (high_bits_zero 16 aX) by lia. change (2 ^ 16) with 65536.
  destruct (Z.ltb_spec aX 65536) as [H1 | H1];
    [rewrite (shl32_small aX 16) by lia; change (2 ^ 16) with 65536 |];
  match goal with
  | |- context [Z.land ?y 4278190080 =? 0] =>
      change 4278190080 with (Z.shiftl (Z.ones (32 - 24)) 24);
      rewrite (high_bits_zero 24 y) by lia; change (2 ^ 24) with 16777216;
      destruct (Z.ltb_spec y 16777216) as [H2 | H2];
      [rewrite (shl32_small y 8) by lia; change (2 ^ 8) with 256 |]
  end;
  match goal with
  | |- context [Z.land ?y 4026531840 =? 0] =>
      change 4026531840 with (Z.shiftl (Z.ones (32 - 28)) 28);
      rewrite (high_bits_zero 28 y) by lia; change (2 ^ 28) with 268435456;
      destruct (Z.ltb_spec y 268435456) as [H3 | H3];
      [rewrite (shl32_small y 4) by lia; change (2 ^ 4) with 16 |]
  end;
  match goal with
  | |- context [Z.land ?y 3221225472 =? 0] =>
      change 3221225472 with (Z.shiftl (Z.ones (32 - 30)) 30);
      rewrite (high_bits_zero 30 y) by lia; change (2 ^ 30) with 1073741824;
      destruct (Z.ltb_spec y 1073741824) as [H4 | H4];
      [rewrite (shl32_small y 2) by lia; change (2 ^ 2) with 4 |]
  end;
  match goal with
  | |- context [Z.land ?y 2147483648 =? 0] =>
      change 2147483648 with (Z.shiftl (Z.ones (32 - 31)) 31);
      rewrite (high_bits_zero 31 y) by lia; change (2 ^ 31) with 2147483648;
      destruct (Z.ltb_spec y 2147483648) as [H5 | H5]
  end;
  cbn [Z.add Z.sub Z.opp Z.pos_sub Pos.add Pos.succ Pos.pred_double Z.succ_double
       Z.pred_double Z.double Pos.add_carry];
  (split; [lia |]);
  match goal with
  | |- 2 ^ ?a <= _ < 2 ^ ?b =>
      let va := eval cbv in (2 ^ a) in
      let vb := eval cbv in (2 ^ b) in
      change (2 ^ a) with va; change (2 ^ b) with vb
  end; lia.
Qed.

(** X20. [countl_zero_] counts the leading zeros of a 32-bit value: 32
    for zero, and [31 - log2 aX] otherwise. *)
Theorem countl_zero_log2 (aX : Z) :
  0 <= aX < 4294967296 ->
  countl_zero_ aX = if aX =? 0 then 32 else 31 - Z.log2 aX.
Proof.
  intros Hx. destruct (Z.eqb_spec aX 0) as [-> | Hne]; [reflexivity |].
  destruct (countl_zero_bounds aX) as (Hr & Hlo & Hhi); [lia |].
  assert (E : Z.log2 aX = 31 - countl_zero_ aX).
  { apply Z.log2_unique; [lia |].
    replace (Z.succ (31 - countl_zero_ aX)) with (32 - countl_zero_ aX) by lia.
    split; assumption. }
  lia.
Qed.

Lemma countl_zero_log2_witness : countl_zero_ 600 = 31 - Z.log2 600.
Proof. exact (countl_zero_log2 600 ltac:(lia)). Defined.

Lemma lor_bounds (a b : Z) :
  0 <= a < 4294967296 -> 0 <= b < 4294967296 -> 0 <= Z.lor a b < 4294967296.
Proof.
  intros Ha Hb. assert (H0 : 0 <= Z.lor a b) by (apply Z.lor_nonneg; lia).
  split; [exact H0 |]. destruct (Z.eq_dec (Z.lor a b) 0) as [-> | Hne]; [lia |].
  change 4294967296 with (2 ^ 32). apply Z.log2_lt_pow2; [lia |].
  rewrite Z.log2_lor by lia.
  assert (La : Z.log2 a < 32).
  { destruct (Z.eq_dec a 0) as [-> | Hn]; [cbn; lia |].
    apply Z.log2_lt_pow2; [lia |]. change (2 ^ 32) with 4294967296. lia. }
  assert (Lb : Z.log2 b < 32).
  { destruct (Z.eq_dec b 0) as [-> | Hn]; [cbn; lia |].
    apply Z.log2_lt_pow2; [lia |]. change (2 ^ 32) with 4294967296. lia. }
  lia.
Qed.

Lemma log2_max (a b : Z) : Z.max (Z.log2 a) (Z.log2 b) = Z.log2 (Z.max a b).
Proof.
  destruct (Z.le_ge_cases a b) as [H | H].
  - rewrite (Z.max_r a b) by exact H. apply Z.max_r, Z.log2_le_mono, H.
  - rewrite (Z.max_l a b) by exact H. apply Z.max_l, Z.log2_le_mono, H.
Qed.

Lemma mip_level_count (aWidth aHeight : Z) :
  0 <= aWidth < 4294967296 -> 0 <= aHeight < 4294967296 ->
  0 < aWidth \/ 0 < aHeight ->
  compute_mip_level_count aWidth aHeight = Z.log2 (Z.max aWidth aHeight) + 1.
Proof.
  intros Hw Hh Hpos. unfold compute_mip_level_count. cbv zeta.
  pose proof (lor_bounds aWidth aHeight Hw Hh) as Hb.
  assert (Hne : Z.lor aWidth aHeight <> 0) by (rewrite Z.lor_eq_0_iff; lia).
  destruct (countl_zero_bounds (Z.lor aWidth aHeight)) as (Hr & Hlo & Hhi); [lia |].
  assert (E : Z.log2 (Z.lor aWidth aHeight) = 31 - countl_zero_ (Z.lor aWidth aHeight)).
  { apply Z.log2_unique; [lia |].
    replace (Z.succ (31 - countl_zero_ (Z.lor aWidth aHeight)))
      with (32 - countl_zero_ (Z.lor aWidth aHeight)) by lia.
    split; assumption. }
  rewrite Z.log2_lor, log2_max in E by lia. lia.
Qed.

(** X21. For an image of at least one texel along an axis,
    [compute_mip_level_count] returns the length of the full mip chain:
    [log2 (max aWidth aHeight) + 1]. *)
Theorem compute_mip_level_count_log2 (aWidth aHeight : Z) :
  0 <= aWidth < 4294967296 -> 0 <= aHeight < 4294967296 ->
  0 < aWidth \/ 0 < aHeight ->
  compute_mip_level_count aWidth aHeight = Z.log2 (Z.max aWidth aHeight) + 1.
Proof. apply mip_level_count. Qed.

Lemma compute_mip_level_count_log2_witness :
  compute_mip_level_count 800 600 = Z.log2 (Z.max 800 600) + 1.
Proof.
  exact (compute_mip_level_count_log2 800 600 ltac:(lia) ltac:(lia) ltac:(lia)).
Defined.

(** *** The extents of the mip levels *)

Lemma shiftr_bounds (base : Z) (level : nat) :
  0 <= base -> 0 <= Z.shiftr base (Z.of_nat level) <= base.
Proof.
  intros Hb. rewrite Z.shiftr_div_pow2 by lia.
  assert (Hp : 0 < 2 ^ Z.of_nat level) by (apply Z.pow_pos_nonneg; lia).
  split; [apply Z.div_pos; lia |]. apply Z.div_le_upper_bound; [lia |]. nia.
Qed.

Lemma mip_extent_bounds (base : Z) (level : nat) :
  1 <= base -> 1 <= mip_extent base level <= base.
Proof.
  intros Hb. unfold mip_extent. pose proof (shiftr_bounds base level). lia.
Qed.

Lemma mip_extent_0 (base : Z) : 1 <= base -> mip_extent base 0 = base.
Proof. intros Hb. unfold mip_extent. rewrite Z.shiftr_0_r. lia. Qed.

Lemma halve_mip_extent (base : Z) (level : nat) :
  1 <= base -> halve (mip_extent base level) = mip_extent base (S level).
Proof.
  intros Hb. unfold halve, mip_extent.
  replace (Z.of_nat (S level)) with (Z.of_nat level + 1) by lia.
  rewrite <- Z.shiftr_shiftr by lia.
  pose proof (shiftr_bounds base level ltac:(lia)) as H.
  set (x := Z.shiftr base (Z.of_nat level)) in *.
  destruct (Z.le_gt_cases 1 x) as [H1 | H0].
  - rewrite (Z.max_r 1 x) by exact H1.
    assert (0 <= Z.shiftr x 1) by (apply Z.shiftr_nonneg; lia).
    destruct (Z.eqb_spec (Z.shiftr x 1) 0) as [E | E]; lia.
  - assert (x = 0) by lia. subst x. rewrite H1. reflexivity.
Qed.

Lemma to_i32_small (x : Z) : x < 2147483648 -> to_i32 x = x.
Proof. intros H. unfold to_i32. destruct (Z.ltb_spec x 2147483648); [reflexivity | lia]. Qed.

Lemma blit_loop_blits (baseWidth baseHeight : Z) (n : nat) :
  1 <= baseWidth < 2147483648 -> 1 <= baseHeight < 2147483648 ->
  forall level,
    List.filter is_blit
      (blit_loop n (S level) (mip_extent baseWidth level) (mip_extent baseHeight level))
    = map (blit_from baseWidth baseHeight) (seq level n).
Proof.
  intros Hw Hh. induction n as [|n IH]; intros level; [reflexivity |].
  cbn [blit_loop List.filter is_blit seq map].
  rewrite !halve_mip_extent by lia. rewrite IH. f_equal.
  unfold blit_from.
  pose proof (mip_extent_bounds baseWidth level ltac:(lia)).
  pose proof (mip_extent_bounds baseHeight level ltac:(lia)).
  pose proof (mip_extent_bounds baseWidth (S level) ltac:(lia)).
  pose proof (mip_extent_bounds baseHeight (S level) ltac:(lia)).
  rewrite !to_i32_small by lia.
  replace (S level - 1)%nat with level by lia. reflexivity.
Qed.

(** X22. For a base image of [baseWidth] x [baseHeight] texels,
    [load_image_texture2d] records one blit per mip level after the first,
    in order: the blit into level [j + 1] reads the whole of level [j] and
    writes the whole of level [j + 1], where a level [j] has
    [max 1 (base >> j)] texels along each axis. *)
Theorem upload_blits_follow_mip_extents (baseWidth baseHeight : Z) :
  1 <= baseWidth < 2147483648 -> 1 <= baseHeight < 2147483648 ->
  List.filter is_blit (upload_commands baseWidth baseHeight)
  = map (blit_from baseWidth baseHeight)
      (seq 0 (Z.to_nat (compute_mip_level_count baseWidth baseHeight) - 1)).
Proof.
  intros Hw Hh. unfold upload_commands. cbv zeta.
  rewrite !List.filter_app. cbn [List.filter is_blit app]. rewrite app_nil_r.
  pose proof (blit_loop_blits baseWidth baseHeight
                (Z.to_nat (compute_mip_level_count baseWidth baseHeight) - 1) Hw Hh 0) as B.
  rewrite !mip_extent_0 in B by lia. exact B.
Qed.

Lemma upload_blits_follow_mip_extents_witness :
  List.filter is_blit (upload_commands 4 2)
  = [ CmdBlitImage VK_IMAGE_LAYOUT_TRANSFER_SRC_OPTIMAL 0 4 2
        VK_IMAGE_LAYOUT_TRANSFER_DST_OPTIMAL 1 2 1;
      CmdBlitImage VK_IMAGE_LAYOUT_TRANSFER_SRC_OPTIMAL 1 2 1
        VK_IMAGE_LAYOUT_TRANSFER_DST_OPTIMAL 2 1 1 ].
Proof.
  exact (upload_blits_follow_mip_extents 4 2 ltac:(lia) ltac:(lia)).
Defined.

(** X23. The mip chain that [compute_mip_level_count] gives is exactly
    as long as it takes to reach one texel: its last level is 1 x 1, and
    every level before it is larger than that along an axis. *)
Theorem mip_chain_ends_at_one_texel (aWidth aHeight : Z) :
  1 <= aWidth < 4294967296 -> 1 <= aHeight < 4294967296 ->
  let last := (Z.to_nat (compute_mip_level_count aWidth aHeight) - 1)%nat in
  mip_extent aWidth last = 1 /\ mip_extent aHeight last = 1
  /\ forall level, (level < last)%nat ->
       1 < mip_extent aWidth level \/ 1 < mip_extent aHeight level.
Proof.
  intros Hw Hh. cbv zeta. rewrite mip_level_count by lia.
  set (L := Z.log2 (Z.max aWidth aHeight)).
  assert (HL : 0 <= L) by apply Z.log2_nonneg.
  replace (Z.to_nat (L + 1) - 1)%nat with (Z.to_nat L) by lia.
  assert (Hspec : 2 ^ L <= Z.max aWidth aHeight < 2 ^ (L + 1)).
  { pose proof (Z.log2_spec (Z.max aWidth aHeight) ltac:(lia)) as S.
    unfold L. replace (Z.log2 (Z.max aWidth aHeight) + 1)
      with (Z.succ (Z.log2 (Z.max aWidth aHeight))) by lia. exact S. }
  assert (One : forall x, 1 <= x <= Z.max aWidth aHeight -> mip_extent x (Z.to_nat L) = 1).
  { intros x Hx. unfold mip_extent. rewrite Z2Nat.id, Z.shiftr_div_pow2 by lia.
    assert (Hp : 0 < 2 ^ L) by (apply Z.pow_pos_nonneg; lia).
    assert (x / 2 ^ L < 2).
    { apply Z.div_lt_upper_bound; [lia |]. rewrite Z.pow_add_r in Hspec by lia. lia. }
    assert (0 <= x / 2 ^ L) by (apply Z.div_pos; lia). lia. }
  split; [apply One; lia |]. split; [apply One; lia |].
  intros level Hl.
  assert (Big : 1 < mip_extent (Z.max aWidth aHeight) level).
  { unfold mip_extent. rewrite Z.shiftr_div_pow2 by lia.
    assert (Hp : 0 < 2 ^ Z.of_nat level) by (apply Z.pow_pos_nonneg; lia).
    assert (2 <= Z.max aWidth aHeight / 2 ^ Z.of_nat level); [| lia].
    apply Z.div_le_lower_bound; [lia |].
    apply Z.le_trans with (2 ^ L); [| lia].
    replace L with (Z.of_nat level + (L - Z.of_nat level)) by lia.
    rewrite Z.pow_add_r by lia.
    assert (2 ^ 1 <= 2 ^ (L - Z.of_nat level)) by (apply Z.pow_le_mono_r; lia).
    change (2 ^ 1) with 2 in H. nia. }
  destruct (Z.le_ge_cases aWidth aHeight) as [H | H].
  - right. rewrite Z.max_r in Big by exact H. exact Big.
  - left. rewrite Z.max_l in Big by exact H. exact Big.
Qed.

Lemma mip_chain_ends_at_one_texel_witness :
  mip_extent 800 9 = 1 /\ mip_extent 600 9 = 1
  /\ forall level, (level < 9)%nat -> 1 < mip_extent 800 level \/ 1 < mip_extent 600 level.
Proof.
  exact (mip_chain_ends_at_one_texel 800 600 ltac:(lia) ltac:(lia)).
Defined.

(** *** The layouts of the mip levels during the upload *)

Lemma track_all_app (levels : nat) (a b : list Cmd) :
  forall st,
    track_all levels st (a ++ b)
    = match track_all levels st a with
      | Some st' => track_all levels st' b
      | None => None
      end.
Proof.
  induction a as [|c a IH]; intros st; cbn [track_all app]; [reflexivity |].
  destruct (track levels st c); [apply IH | reflexivity].
Qed.

Lemma levels_in_spec (st : Layouts) (l : VkImageLayout) (base count : nat) :
  (forall j, (base <= j < base + count)%nat -> st j = l) -> levels_in st l base count = true.
Proof.
  intros H. unfold levels_in. apply forallb_forall. intros j Hj. apply in_seq in Hj.
  rewrite (H j Hj). destruct l; reflexivity.
Qed.

Ltac nat_tests :=
  repeat match goal with
         | |- context [Nat.leb ?a ?b] => destruct (Nat.leb_spec a b)
         | |- context [Nat.ltb ?a ?b] => destruct (Nat.ltb_spec a b)
         end;
  cbn [andb]; first [reflexivity | lia].

Lemma track_blit_loop (levels : nat) (n : nat) :
  forall (m : nat) (width height : Z) (st : Layouts),
    (1 <= m)%nat -> (m + n = levels)%nat -> filled_below levels m st ->
    exists st', track_all levels st (blit_loop n m width height) = Some st'
                /\ filled_below levels levels st'.
Proof.
  induction n as [|n IH]; intros m width height st Hm Hn [Hs Hd].
  - exists st. split; [reflexivity |]. replace levels with m by lia.
    split; [exact Hs | intros j Hj; lia].
  - cbn [blit_loop track_all track].
    assert (E1 : Nat.ltb (m - 1) levels = true) by (apply Nat.ltb_lt; lia).
    assert (E2 : Nat.ltb m levels = true) by (apply Nat.ltb_lt; lia).
    assert (E3 : Nat.leb (m + 1) levels = true) by (apply Nat.leb_le; lia).
    rewrite E1, E2, E3, (Hs (m - 1)%nat), (Hd m) by lia. cbn [layout_eqb andb orb].
    rewrite levels_in_spec by (intros j Hj; apply Hd; lia).
    apply IH; [lia | lia |]. split.
    + intros j Hj. destruct (Nat.leb_spec m j) as [H1 | H1]; cbn [andb];
        [| apply Hs; lia].
      destruct (Nat.ltb_spec j (m + 1)) as [H2 | H2]; [reflexivity | lia].
    + intros j Hj. destruct (Nat.leb_spec m j) as [H1 | H1]; cbn [andb]; [| lia].
      destruct (Nat.ltb_spec j (m + 1)) as [H2 | H2]; [lia | apply Hd; lia].
Qed.

(** The commands of the upload for an image of [levels] mip levels, whatever
    the extents of the blits. *)
Lemma track_upload (levels : nat) (baseWidth baseHeight : Z) :
  (1 <= levels)%nat ->
  exists st,
    track_all levels (fun _ => VK_IMAGE_LAYOUT_UNDEFINED)
      ([ CmdImageBarrier 0 VK_ACCESS_TRANSFER_WRITE_BIT
           VK_IMAGE_LAYOUT_UNDEFINED VK_IMAGE_LAYOUT_TRANSFER_DST_OPTIMAL
           VK_PIPELINE_STAGE_TOP_OF_PIPE_BIT VK_PIPELINE_STAGE_TRANSFER_BIT 0 levels;
         CmdCopyBufferToImage VK_IMAGE_LAYOUT_TRANSFER_DST_OPTIMAL 0 baseWidth baseHeight;
         CmdImageBarrier VK_ACCESS_TRANSFER_WRITE_BIT VK_ACCESS_TRANSFER_READ_BIT
           VK_IMAGE_LAYOUT_TRANSFER_DST_OPTIMAL VK_IMAGE_LAYOUT_TRANSFER_SRC_OPTIMAL
           VK_PIPELINE_STAGE_TRANSFER_BIT VK_PIPELINE_STAGE_TRANSFER_BIT 0 1 ]
       ++ blit_loop (levels - 1) 1 baseWidth baseHeight
       ++ [ CmdImageBarrier VK_ACCESS_TRANSFER_READ_BIT VK_ACCESS_SHADER_READ_BIT
              VK_IMAGE_LAYOUT_TRANSFER_SRC_OPTIMAL VK_IMAGE_LAYOUT_SHADER_READ_ONLY_OPTIMAL
              VK_PIPELINE_STAGE_TRANSFER_BIT VK_PIPELINE_STAGE_FRAGMENT_SHADER_BIT 0 levels ])
    = Some st
    /\ forall j, (j < levels)%nat -> st j = VK_IMAGE_LAYOUT_SHADER_READ_ONLY_OPTIMAL.
Proof.
  intros Hl. cbn [app track_all track layout_eqb orb andb Nat.add].
  assert (E0 : Nat.leb levels levels = true) by (apply Nat.leb_le; lia).
  assert (E1 : Nat.ltb 0 levels = true) by (apply Nat.ltb_lt; lia).
  assert (E2 : Nat.leb 1 levels = true) by (apply Nat.leb_le; lia).
  rewrite E0, E2. cbn [andb]. rewrite E1. cbn [Nat.leb andb layout_eqb].
  rewrite levels_in_spec.
  2:{ intros j Hj. assert (j = 0%nat) by lia. subst j. rewrite E1. reflexivity. }
  rewrite track_all_app.
  match goal with
  | |- context [track_all levels ?st0 (blit_loop _ _ _ _)] =>
      destruct (track_blit_loop levels (levels - 1) 1 baseWidth baseHeight st0)
        as (st1 & T & Hs & _)
  end.
  - lia.
  - lia.
  - split; intros j Hj; cbn beta; nat_tests.
  - rewrite T. cbn [track_all track layout_eqb orb andb Nat.add]. rewrite E0.
    rewrite levels_in_spec by (intros j Hj; apply Hs; lia).
    eexists. split; [reflexivity |]. intros j Hj. cbn beta.
    destruct (Nat.ltb_spec j levels) as [H | H]; [reflexivity | lia].
Qed.

(** X24. The commands that [load_image_texture2d] records respect
    the image layouts: every barrier names levels of the image and the
    layout they are in, the copy writes level 0 in the transfer destination
    layout, every blit reads a level in the transfer source layout and writes
    one in the transfer destination layout; at the end every mip level of the
    image is in the shader read-only layout. *)
Theorem upload_layouts (baseWidth baseHeight : Z) :
  0 <= baseWidth < 4294967296 -> 0 <= baseHeight < 4294967296 ->
  0 < baseWidth \/ 0 < baseHeight ->
  let mipLevels := Z.to_nat (compute_mip_level_count baseWidth baseHeight) in
  exists st,
    track_all mipLevels (fun _ => VK_IMAGE_LAYOUT_UNDEFINED)
      (upload_commands baseWidth baseHeight) = Some st
    /\ forall level, (level < mipLevels)%nat ->
         st level = VK_IMAGE_LAYOUT_SHADER_READ_ONLY_OPTIMAL.
Proof.
  intros Hw Hh Hpos. cbv zeta. unfold upload_commands. cbv zeta.
  apply track_upload. rewrite mip_level_count by assumption.
  pose proof (Z.log2_nonneg (Z.max baseWidth baseHeight)). lia.
Qed.

Lemma upload_layouts_witness :
  exists st,
    track_all 10 (fun _ => VK_IMAGE_LAYOUT_UNDEFINED) (upload_commands 800 600) = Some st
    /\ forall level, (level < 10)%nat -> st level = VK_IMAGE_LAYOUT_SHADER_READ_ONLY_OPTIMAL.
Proof.
  exact (upload_layouts 800 600 ltac:(lia) ltac:(lia) ltac:(lia)).
Defined.

End ImageSpec.

(** ** The input callbacks of exercise 4 *)
Module InputSpec.

Import Input ToolProps.

Lemma index_inj (e e' : EInputState) : index e = index e' -> e = e'.
Proof. destruct e, e'; cbn; intros H; congruence. Qed.

Lemma index_lt (e : EInputState) : (index e < max)%nat.
Proof. destruct e; cbn; unfold max; lia. Qed.

Lemma key_slot_not_mousing (aKey : Z) : key_slot aKey <> Some mousing.
Proof. unfold key_slot. repeat case_match; discriminate. Qed.

Lemma deliver_all_snoc (evs : list InputEvent) (ev : InputEvent) :
  deliver_all (evs ++ [ev]) = deliver (deliver_all evs) ev.
Proof. unfold deliver_all. rewrite fold_left_app. reflexivity. Qed.

Lemma deliver_length (s : InputState) (ev : InputEvent) :
  length (inputMap (deliver s ev)) = length (inputMap s).
Proof.
  destruct ev as [k a | b a]; cbn [deliver].
  - unfold glfw_callback_key_press. cbv zeta.
    destruct (key_slot k); destruct (_ && _); cbn; rewrite ?length_insert; reflexivity.
  - unfold glfw_callback_button. destruct (_ && _); cbn; rewrite ?length_insert; reflexivity.
Qed.

Lemma deliver_all_length (evs : list InputEvent) :
  length (inputMap (deliver_all evs)) = max.
Proof.
  induction evs as [|ev evs IH] using rev_ind; [reflexivity |].
  rewrite deliver_all_snoc, deliver_length. exact IH.
Qed.

Lemma input_insert (l : list bool) (c : bool) (m : Z) (e e' : EInputState) (b : bool) :
  length l = max ->
  input {| inputMap := <[index e := b]> l; shouldClose := c; cursorMode := m |} e'
  = if Nat.eqb (index e) (index e') then b
    else input {| inputMap := l; shouldClose := c; cursorMode := m |} e'.
Proof.
  intros Hl. unfold input. cbn [inputMap].
  destruct (Nat.eqb_spec (index e) (index e')) as [E | Hne].
  - rewrite <- E, list_lookup_insert_eq by (rewrite Hl; apply index_lt). reflexivity.
  - rewrite list_lookup_insert_ne by exact Hne. reflexivity.
Qed.

Lemma deliver_key_input (s : InputState) (k a : Z) (e : EInputState) :
  length (inputMap s) = max ->
  input (deliver s (Key k a)) e
  = match key_slot k with
    | Some e' => if Nat.eqb (index e') (index e) then negb (GLFW_RELEASE =? a) else input s e
    | None => input s e
    end.
Proof.
  intros Hl. cbn [deliver]. unfold glfw_callback_key_press. cbv zeta.
  destruct (key_slot k) as [e' |].
  - unfold set_input. destruct (_ && _); cbn [inputMap shouldClose cursorMode];
      rewrite input_insert by exact Hl; reflexivity.
  - destruct (_ && _); reflexivity.
Qed.

Lemma deliver_button_input (s : InputState) (b a : Z) (e : EInputState) :
  length (inputMap s) = max ->
  input (deliver s (Button b a)) e
  = if is_toggle (Button b a) && Nat.eqb (index mousing) (index e)
    then negb (input s mousing) else input s e.
Proof.
  intros Hl. cbn [deliver is_toggle]. unfold glfw_callback_button.
  destruct (_ && _); cbn [andb]; [| reflexivity].
  rewrite input_insert by exact Hl. destruct s; reflexivity.
Qed.






(** X26. After any sequence of key and button events, the mousing
    input is set exactly when the right mouse button has been pressed an odd
    number of times, and the cursor is disabled exactly while it is set. *)
Theorem mousing_toggles_cursor (evs : list InputEvent) :
  input (deliver_all evs) mousing = Nat.odd (length (List.filter is_toggle evs))
  /\ cursorMode (deliver_all evs)
     = if input (deliver_all evs) mousing then GLFW_CURSOR_DISABLED else GLFW_CURSOR_NORMAL.
Proof.
  induction evs as [|ev evs [IH1 IH2]] using rev_ind; [split; reflexivity |].
  rewrite deliver_all_snoc, List.filter_app, length_app.
  pose proof (deliver_all_length evs) as Hl. destruct ev as [k a | b a].
  - rewrite deliver_key_input by exact Hl. cbn [List.filter is_toggle length].
    rewrite Nat.add_0_r.
    assert (Hc : cursorMode (deliver (deliver_all evs) (Key k a))
                 = cursorMode (deliver_all evs)).
    { cbn [deliver]. unfold glfw_callback_key_press. cbv zeta.
      destruct (key_slot k); destruct (_ && _); reflexivity. }
    rewrite Hc. pose proof (key_slot_not_mousing k) as Hk.
    destruct (key_slot k) as [e' |]; [| split; assumption].
    destruct (Nat.eqb_spec (index e') (index mousing)) as [E | Hne];
      [apply index_inj in E; congruence | split; assumption].
  - rewrite deliver_button_input by exact Hl. rewrite Nat.eqb_refl, andb_true_r.
    cbn [List.filter is_toggle deliver]. unfold glfw_callback_button.
    destruct ((GLFW_MOUSE_BUTTON_RIGHT =? b) && (GLFW_PRESS =? a));
      cbn [length cursorMode].
    + rewrite Nat.add_1_r, Nat.odd_succ, <- Nat.negb_odd, <- IH1. split; reflexivity.
    + rewrite Nat.add_0_r. split; assumption.
Qed.

(** X27. After any sequence of key and button events, the window has
    been asked to close exactly when one of them was a press of the Escape
    key: no other key, no release or repeat of Escape and no mouse button
    asks for it, and nothing takes the request back. *)
Theorem close_requested_by_escape_press (evs : list InputEvent) :
  shouldClose (deliver_all evs) = true <-> In (Key GLFW_KEY_ESCAPE GLFW_PRESS) evs.
Proof.
  induction evs as [|ev evs IH] using rev_ind; [split; [discriminate | intros []] |].
  rewrite deliver_all_snoc, in_app_iff, <- IH. cbn [In].
  destruct ev as [k a | b a]; cbn [deliver].
  - unfold glfw_callback_key_press. cbv zeta.
    assert (E : shouldClose
                  match key_slot k with
                  | Some e =>
                      set_input
                        (if (GLFW_KEY_ESCAPE =? k) && (GLFW_PRESS =? a)
                         then {| inputMap := inputMap (deliver_all evs); shouldClose := true;
                                 cursorMode := cursorMode (deliver_all evs) |}
                         else deliver_all evs) e (negb (GLFW_RELEASE =? a))
                  | None =>
                      if (GLFW_KEY_ESCAPE =? k) && (GLFW_PRESS =? a)
                      then {| inputMap := inputMap (deliver_all evs); shouldClose := true;
                              cursorMode := cursorMode (deliver_all evs) |}
                      else deliver_all evs
                  end
                = ((GLFW_KEY_ESCAPE =? k) && (GLFW_PRESS =? a))
                  || shouldClose (deliver_all evs)).
    { destruct (key_slot k); destruct (_ && _); reflexivity. }
    rewrite E, orb_true_iff, andb_true_iff, !Z.eqb_eq. split.
    + intros [[<- <-] | H]; [right; left; reflexivity | left; exact H].
    + intros [H | [[= <- <-] | []]]; [right; exact H | left; split; reflexivity].
  - unfold glfw_callback_button. split.
    + intros H. left. destruct (_ && _); exact H.
    + intros [H | [E | []]]; [destruct (_ && _); exact H | discriminate].
Qed.

End InputSpec.
